(** * Aeron: client publication, UDP channel and string utilities

    A shallow embedding of parts of the Aeron C client and media driver:

    - [aeron_strutil.c]: [aeron_format_to_hex], [aeron_tokenise];
    - [aeron_udp_channel.c]: multicast control addresses, the canonical
      form of a UDP channel and [aeron_udp_channel_parse];
    - [aeron_publication.c]: [aeron_publication_create], [_offer],
      [_offerv] and [_try_claim];
    - the session-id selection of the driver conductor.

    C integers are [Z] with the wrap-around written out, [char] buffers
    are lists of byte values, pointers that may be [NULL] are [option]s
    and every mutated object is returned next to the C return value. *)

From Stdlib Require Import ZArith List Bool Lia.
From Stdlib Require Import Strings.String Strings.Ascii.
From stdpp Require Import base list.

Import ListNotations.
Local Open Scope Z_scope.

(** ** Machine integers *)

Module Int.

Definition INT32_MAX : Z := 2147483647.
Definition INT32_MIN : Z := -2147483648.

(** Conversion to [int32_t] (two's complement wrap-around). *)
Definition wrap32 (x : Z) : Z := (x + 2 ^ 31) mod 2 ^ 32 - 2 ^ 31.

(** Conversion to [int64_t]. *)
Definition wrap64 (x : Z) : Z := (x + 2 ^ 63) mod 2 ^ 64 - 2 ^ 63.

(** Conversion to [uint8_t]. *)
Definition wrap8u (x : Z) : Z := x mod 256.

End Int.

(** ** [util/aeron_strutil.c] *)

Module Strutil.

(** [errno.h] values (Linux). *)
Definition EINVAL : Z := 22.
Definition ERANGE : Z := 34.

(** The character stored at [input[i]]; a list stands for the bytes
    of the buffer, the terminating NUL included. *)
Definition char_at (input : list Z) (i : nat) : Z := default 0 (input !! i).

(** [strlen]: the number of bytes before the first NUL. *)
Fixpoint strlen (input : list Z) : nat :=
  match input with
  | [] => 0%nat
  | c :: rest => if c =? 0 then 0%nat else S (strlen rest)
  end.

(** The sixteen entries of [table] in [aeron_format_to_hex]. *)
Definition table : list ascii :=
  ["0"; "1"; "2"; "3"; "4"; "5"; "6"; "7"; "8"; "9";
   "a"; "b"; "c"; "d"; "e"; "f"]%char.

Definition table_at (i : Z) : ascii := default "0"%char (table !! Z.to_nat i).

(** The loop of [aeron_format_to_hex]: [j] is the write index and
    [data] what is left of the input; two characters are written per
    byte as long as [j < str_length]. *)
Fixpoint format_to_hex_loop (str_length j : nat) (data : list Z) : string :=
  match data with
  | [] => EmptyString
  | d :: rest =>
      if (j <? str_length)%nat then
        let c_high := table_at (Z.land (Z.shiftr d 4) 15) in
        let c_low := table_at (Z.land d 15) in
        String c_high (String c_low (format_to_hex_loop str_length (j + 2) rest))
      else EmptyString
  end.

(** [aeron_format_to_hex(str, str_length, data, data_len)]: the
    NUL-terminated contents left in [str]. *)
Definition aeron_format_to_hex (str_length : nat) (data : list Z) : string :=
  format_to_hex_loop str_length 0 data.

(** The body of the [for (int i = (int)len; --i != -1;)] loop of
    [aeron_tokenise], run for the indices [i - 1], ..., [0].  The
    state is the input buffer, the [tokens] array (offsets into the
    input stand for the stored pointers) and [num_tokens]. *)
Fixpoint tokenise_loop (delimiter max_tokens : Z) (i : nat)
    (input : list Z) (tokens : list nat) (num_tokens : Z)
    : list Z * list nat * Z :=
  match i with
  | O => (input, tokens, num_tokens)
  | S i =>
      let input :=
        if delimiter =? char_at input i then <[i := 0]> input else input in
      if (i =? 0)%nat && negb (char_at input i =? 0) then
        if max_tokens <=? num_tokens then (input, tokens, - ERANGE)
        else
          tokenise_loop delimiter max_tokens i input
            (<[Z.to_nat num_tokens := i]> tokens) (num_tokens + 1)
      else if (char_at input i =? 0) && negb (char_at input (i + 1) =? 0) then
        if max_tokens <=? num_tokens then (input, tokens, - ERANGE)
        else
          tokenise_loop delimiter max_tokens i input
            (<[Z.to_nat num_tokens := (i + 1)%nat]> tokens) (num_tokens + 1)
      else tokenise_loop delimiter max_tokens i input tokens num_tokens
  end.

(** [aeron_tokenise(input, delimiter, max_tokens, tokens)]: the
    returned [int], the input buffer and the [tokens] array. *)
Definition aeron_tokenise (input : option (list Z)) (delimiter max_tokens : Z)
    (tokens : list nat) : Z * option (list Z) * list nat :=
  match input with
  | None => (- EINVAL, None, tokens)
  | Some buf =>
      let len := strlen buf in
      if Int.INT32_MAX <? Z.of_nat len then (- EINVAL, Some buf, tokens)
      else if (len =? 0)%nat then (0, Some buf, tokens)
      else
        let '(buf', tokens', num_tokens) :=
          tokenise_loop delimiter max_tokens len buf tokens 0 in
        (num_tokens, Some buf', tokens')
  end.

(** *** What the tokens of a string are

    The fields of [s] between occurrences of [delimiter]. *)
Fixpoint split_at (delimiter : Z) (s : list Z) : list (list Z) :=
  match s with
  | [] => [[]]
  | c :: rest =>
      if c =? delimiter then [] :: split_at delimiter rest
      else
        match split_at delimiter rest with
        | f :: fs => (c :: f) :: fs
        | [] => [[c]]
        end
  end.

(** Each field with the offset of its first character. *)
Fixpoint with_offsets (off : nat) (fields : list (list Z)) : list (nat * list Z) :=
  match fields with
  | [] => []
  | f :: fs => (off, f) :: with_offsets (off + length f + 1) fs
  end.

Definition nonempty (t : nat * list Z) : bool :=
  match snd t with [] => false | _ => true end.

(** The non-empty delimiter-separated tokens of [s], in order of
    occurrence, each with its offset in [s]. *)
Definition tokens_of (delimiter : Z) (s : list Z) : list (nat * list Z) :=
  List.filter nonempty (with_offsets 0 (split_at delimiter s)).

(** The input after every delimiter byte was replaced with NUL. *)
Definition delimiters_replaced (delimiter : Z) (s : list Z) : list Z :=
  List.map (fun c => if c =? delimiter then 0 else c) s.

(** The offsets at which a token starts, scanning [s] from offset
    [off]; [prev_delim] tells whether the character before is a
    delimiter (or the start of the string). *)
Fixpoint token_starts (delimiter : Z) (off : nat) (prev_delim : bool)
    (s : list Z) : list nat :=
  match s with
  | [] => []
  | c :: rest =>
      if c =? delimiter then token_starts delimiter (S off) true rest
      else
        (if prev_delim then [off] else [])
          ++ token_starts delimiter (S off) false rest
  end.

(** Whether [s] ends with a delimiter; [b] for the empty string. *)
Definition ends_with_delimiter (delimiter : Z) (b : bool) (s : list Z) : bool :=
  match last s with
  | Some c => c =? delimiter
  | None => b
  end.

(** The token starts that the loop of [aeron_tokenise] comes across
    while it runs over the prefix [pre] of the input, last found
    first; [next] tells whether the byte after [pre] is not NUL. *)
Definition discovered (delimiter : Z) (pre : list Z) (next : bool) : list nat :=
  rev (token_starts delimiter 0 true pre
         ++ (if next && ends_with_delimiter delimiter false pre
             then [length pre] else [])).

(** The C string found at offset [off] of a buffer. *)
Definition c_string_at (buf : list Z) (off : nat) : list Z :=
  let rest := skipn off buf in firstn (strlen rest) rest.

End Strutil.

(** ** [media/aeron_udp_channel.c] *)

Module UdpChannel.

(** [sys/socket.h] address families (Linux values). *)
Definition AF_INET : Z := 2.
Definition AF_INET6 : Z := 10.

(** [sizeof(struct in_addr)] and [sizeof(struct in6_addr)]. *)
Definition sizeof_in_addr : nat := 4.
Definition sizeof_in6_addr : nat := 16.

(** [sizeof(struct sockaddr_in6)]. *)
Definition sizeof_sockaddr_in6 : nat := 28.

(** [struct sockaddr_storage], seen through the [sockaddr_in] or
    [sockaddr_in6] cast its family selects: the family, the port in
    network byte order and the raw address bytes. *)
Record sockaddr_storage := {
  ss_family : Z;
  sin_port : Z;
  sin_addr : list Z
}.

(** An IPv4 address has 4 bytes and an IPv6 address 16. *)
Definition well_formed (a : sockaddr_storage) : Prop :=
  (ss_family a = AF_INET /\ length (sin_addr a) = sizeof_in_addr
   \/ ss_family a = AF_INET6 /\ length (sin_addr a) = sizeof_in6_addr)
  /\ Forall (fun b => 0 <= b < 256) (sin_addr a).

(** [memset(&addr, 0, sizeof(addr))]. *)
Definition zeroed_sockaddr : sockaddr_storage :=
  {| ss_family := 0; sin_port := 0; sin_addr := repeat 0 16 |}.

(** [ntohs] on a little-endian host. *)
Definition ntohs (x : Z) : Z :=
  Z.lor (Z.shiftl (Z.land x 255) 8) (Z.land (Z.shiftr x 8) 255).

Definition aeron_ipv4_multicast_control_address
    (data_addr control_addr : sockaddr_storage) : Z * sockaddr_storage :=
  let addr_len := sizeof_in_addr in
  let last_byte_index := (addr_len - 1)%nat in
  let bytes := firstn addr_len (sin_addr data_addr) in
  if Z.land (Strutil.char_at bytes last_byte_index) 1 =? 0 then
    (-1, control_addr)
  else
    let bytes :=
      <[last_byte_index :=
          Int.wrap8u (Strutil.char_at bytes last_byte_index + 1)]> bytes in
    (0, {| ss_family := ss_family data_addr;
           sin_port := sin_port data_addr;
           sin_addr := bytes |}).

Definition aeron_ipv6_multicast_control_address
    (data_addr control_addr : sockaddr_storage) : Z * sockaddr_storage :=
  let addr_len := sizeof_in6_addr in
  let last_byte_index := (addr_len - 1)%nat in
  let bytes := firstn addr_len (sin_addr data_addr) in
  if Z.land (Strutil.char_at bytes last_byte_index) 1 =? 0 then
    (-1, control_addr)
  else
    let bytes :=
      <[last_byte_index :=
          Int.wrap8u (Strutil.char_at bytes last_byte_index + 1)]> bytes in
    (0, {| ss_family := ss_family data_addr;
           sin_port := sin_port data_addr;
           sin_addr := bytes |}).

Definition aeron_multicast_control_address
    (data_addr control_addr : sockaddr_storage) : Z * sockaddr_storage :=
  if AF_INET6 =? ss_family data_addr then
    aeron_ipv6_multicast_control_address data_addr control_addr
  else if AF_INET =? ss_family data_addr then
    aeron_ipv4_multicast_control_address data_addr control_addr
  else (-1, control_addr).

(** The data address with the low bit of its last octet toggled, the
    reading of "control address" that the code is compared with. *)
Definition last_octet_low_bit_toggled (addr : list Z) : list Z :=
  let last_byte_index := (length addr - 1)%nat in
  <[last_byte_index := Z.lxor (Strutil.char_at addr last_byte_index) 1]> addr.

Definition digit (d : Z) : ascii := ascii_of_nat (48 + Z.to_nat d).

(** The decimal digits of [v], most significant first, in front of
    [acc]; [fuel] bounds their number. *)
Fixpoint digits (fuel : nat) (v : Z) (acc : string) : string :=
  match fuel with
  | O => acc
  | S fuel =>
      let acc := String (digit (v mod 10)) acc in
      if v / 10 =? 0 then acc else digits fuel (v / 10) acc
  end.

(** [printf("%d", v)] for a 32-bit [int]: at most ten digits. *)
Definition decimal (v : Z) : string :=
  if v <? 0 then String "-" (digits 10 (- v) EmptyString)
  else digits 10 v EmptyString.

(** [snprintf(str, size, ...)] where the formatted text is [text]:
    what [str] holds afterwards ([old] before) and the returned
    length. *)
Definition snprintf (old : string) (size : nat) (text : string) : string * Z :=
  (match size with
   | O => old
   | S n => substring 0 n text
   end,
   Z.of_nat (String.length text)).

(** Modelled from the spec: [AERON_FORMAT_HEX_LENGTH(b)] of
    [aeron_strutil.h], the room for the hex of [b] raw bytes: two
    characters a byte and the terminator. *)
Definition AERON_FORMAT_HEX_LENGTH (b : nat) : nat := (2 * b + 1)%nat.

(** [aeron_uri_udp_canonicalise]: the returned [int], the contents of
    [canonical_form] and the static [unique_canonical_form_value],
    whose value before the call is the first argument. *)
Definition aeron_uri_udp_canonicalise (unique_canonical_form_value : Z)
    (canonical_form : string) (length : nat)
    (local_data remote_data : sockaddr_storage) (make_unique : bool)
    : Z * string * Z :=
  let unique_suffix := EmptyString in
  let '(local_data_addr, local_data_port, local_data_length) :=
    if AF_INET6 =? ss_family local_data then
      (sin_addr local_data, ntohs (sin_port local_data), sizeof_in6_addr)
    else
      (sin_addr local_data, ntohs (sin_port local_data), sizeof_in_addr) in
  let '(remote_data_addr, remote_data_port, remote_data_length) :=
    if AF_INET6 =? ss_family remote_data then
      (sin_addr remote_data, ntohs (sin_port remote_data), sizeof_in6_addr)
    else
      (sin_addr remote_data, ntohs (sin_port remote_data), sizeof_in_addr) in
  let local_data_str :=
    Strutil.aeron_format_to_hex (AERON_FORMAT_HEX_LENGTH sizeof_sockaddr_in6)
      (firstn local_data_length local_data_addr) in
  let remote_data_str :=
    Strutil.aeron_format_to_hex (AERON_FORMAT_HEX_LENGTH sizeof_sockaddr_in6)
      (firstn remote_data_length remote_data_addr) in
  let '(unique_suffix, unique_canonical_form_value) :=
    if make_unique then
      let result := unique_canonical_form_value in
      (fst (snprintf unique_suffix (4 * 4 - 1)
              (String "-" (decimal result))),
       Int.wrap32 (unique_canonical_form_value + 1))
    else (unique_suffix, unique_canonical_form_value) in
  let '(canonical_form, ret) :=
    snprintf canonical_form length
      ("UDP-" ++ local_data_str ++ "-" ++ decimal local_data_port ++ "-"
         ++ remote_data_str ++ "-" ++ decimal remote_data_port
         ++ unique_suffix)%string in
  (ret, canonical_form, unique_canonical_form_value).

(** The canonical form as the specification words it. *)
Definition hex_of_byte (b : Z) : string :=
  String (Strutil.table_at (b / 16)) (String (Strutil.table_at (b mod 16)) EmptyString).

Definition hex_of_bytes (bytes : list Z) : string :=
  fold_right (fun b s => (hex_of_byte b ++ s)%string) EmptyString bytes.

Definition canonical_form_of (local_data remote_data : sockaddr_storage)
    (unique_suffix : option Z) : string :=
  ("UDP-" ++ hex_of_bytes (sin_addr local_data) ++ "-"
     ++ decimal (ntohs (sin_port local_data)) ++ "-"
     ++ hex_of_bytes (sin_addr remote_data) ++ "-"
     ++ decimal (ntohs (sin_port remote_data))
     ++ match unique_suffix with
        | Some n => String "-" (decimal n)
        | None => EmptyString
        end)%string.

(** *** URIs ([uri/aeron_uri.h]) *)

Inductive aeron_uri_type_t := AERON_URI_UDP | AERON_URI_IPC | AERON_URI_UNKNOWN.

Definition AERON_UDP_CHANNEL_CONTROL_MODE_MANUAL_VALUE : string := "manual"%string.
Definition AERON_UDP_CHANNEL_CONTROL_MODE_DYNAMIC_VALUE : string := "dynamic"%string.

Record aeron_uri_param_t := { key : string; value : string }.

(** A [const char *] member is [None] when it is [NULL]. *)
Record aeron_udp_channel_params_t := {
  endpoint : option string;
  bind_interface : option string;
  control : option string;
  control_mode : option string;
  channel_tag : option string;
  entity_tag : option string;
  ttl : option string;
  additional_params : list aeron_uri_param_t
}.

(** [aeron_uri_t]; of the [params] union only the [udp] member is
    read by the functions below. *)
Record aeron_uri_t := {
  type : aeron_uri_type_t;
  params_udp : aeron_udp_channel_params_t
}.

Definition aeron_uri_type_eqb (a b : aeron_uri_type_t) : bool :=
  match a, b with
  | AERON_URI_UDP, AERON_URI_UDP
  | AERON_URI_IPC, AERON_URI_IPC
  | AERON_URI_UNKNOWN, AERON_URI_UNKNOWN => true
  | _, _ => false
  end.

(** [aeron_udp_channel_t] ([media/aeron_udp_channel.h]). *)
Record aeron_udp_channel_t := {
  original_uri : string;
  uri_length : nat;
  uri : aeron_uri_t;
  has_explicit_control : bool;
  is_manual_control_mode : bool;
  is_dynamic_control_mode : bool;
  is_multicast : bool;
  tag_id : Z;
  remote_data : sockaddr_storage;
  remote_control : sockaddr_storage;
  local_data : sockaddr_storage;
  local_control : sockaddr_storage;
  interface_index : Z;
  multicast_ttl : Z;
  canonical_form : string;
  canonical_length : nat
}.

(** The functions of [aeron_uri.c], [aeron_netutil.c] and
    [aeron_alloc.c] that [aeron_udp_channel.c] calls, and the sizes of
    the two [char] arrays of [aeron_udp_channel_t] and the value of
    [AERON_URI_INVALID_TAG], which other headers define.  A function
    that reports failure with a negative [int] returns [None]. *)
Class NetUtil := {
  sizeof_original_uri : nat;
  sizeof_canonical_form : nat;
  AERON_URI_INVALID_TAG : Z;
  aeron_uri_parse : nat -> string -> option aeron_uri_t;
  aeron_uri_parse_tag : string -> Z;
  aeron_uri_multicast_ttl : aeron_uri_t -> Z;
  aeron_host_and_port_parse_and_resolve : string -> option sockaddr_storage;
  aeron_set_ipv4_wildcard_host_and_port : sockaddr_storage -> sockaddr_storage;
  aeron_is_addr_multicast : sockaddr_storage -> bool;
  aeron_interface_parse_and_resolve : string -> option (sockaddr_storage * nat);
  aeron_is_wildcard_addr : sockaddr_storage -> bool;
  aeron_find_interface : string -> option (sockaddr_storage * Z)
}.

(** Control flow of [aeron_udp_channel_parse]: a step either goes on
    with a value or jumps to the [error_cleanup] label. *)
Inductive step (A : Type) := Continue (a : A) | error_cleanup.
Arguments Continue {A} a.
Arguments error_cleanup {A}.

Definition step_bind {A B} (m : step A) (k : A -> step B) : step B :=
  match m with
  | Continue a => k a
  | error_cleanup => error_cleanup
  end.

Definition of_option {A} (o : option A) : step A :=
  match o with Some a => Continue a | None => error_cleanup end.

Section Parse.

Context `{net : NetUtil}.

Definition aeron_find_multicast_interface (family : Z)
    (interface_str : option string)
    (interface_addr : sockaddr_storage) (interface_index : Z)
    : Z * sockaddr_storage * Z :=
  let wildcard_str : string :=
    if AF_INET6 =? family then "[0::]/0"%string else "0.0.0.0/0"%string in
  match aeron_find_interface (default wildcard_str interface_str) with
  | Some (addr, index) => (0, addr, index)
  | None => (-1, interface_addr, interface_index)
  end.

Definition aeron_find_unicast_interface (family : Z)
    (interface_str : option string)
    (interface_addr : sockaddr_storage) (interface_index : Z)
    : Z * sockaddr_storage * Z :=
  let interface_index := 0 in
  match interface_str with
  | Some interface_str =>
      match aeron_interface_parse_and_resolve interface_str with
      | Some (tmp_addr, prefixlen) =>
          if aeron_is_wildcard_addr tmp_addr then (0, tmp_addr, interface_index)
          else
            match aeron_find_interface interface_str with
            | Some (addr, index) => (0, addr, index)
            | None => (-1, interface_addr, interface_index)
            end
      | None =>
          match aeron_find_interface interface_str with
          | Some (addr, index) => (0, addr, index)
          | None => (-1, interface_addr, interface_index)
          end
      end
  | None =>
      if AF_INET6 =? family then
        (0, {| ss_family := AF_INET6; sin_port := 0;
               sin_addr := repeat 0 sizeof_in6_addr |}, interface_index)
      else
        (0, {| ss_family := AF_INET; sin_port := 0;
               sin_addr := repeat 0 sizeof_in_addr |}, interface_index)
  end.

Notation "x <- m ;; k" := (step_bind m (fun x => k))
  (at level 100, m at next level, right associativity).
Notation "'check' b ;; k" := (if b : bool then k else error_cleanup)
  (at level 100, b at next level, right associativity).

(** The part of [aeron_udp_channel_parse] after the allocation of
    [_channel], up to [*channel = _channel; return 0;]. *)
Definition parse_allocated (unique_canonical_form_value : Z)
    (uri_length : nat) (uri_str : string) : step (aeron_udp_channel_t * Z) :=
  let endpoint_addr := zeroed_sockaddr in
  let explicit_control_addr := zeroed_sockaddr in
  let interface_addr := zeroed_sockaddr in
  let interface_index := 0 in
  channel_uri <- of_option (aeron_uri_parse uri_length uri_str) ;;
  let copy_length := (sizeof_original_uri - 1)%nat in
  let copy_length :=
    if (uri_length <? copy_length)%nat then uri_length else copy_length in
  let channel_original_uri := substring 0 copy_length uri_str in
  let channel_uri_length := copy_length in
  let channel_tag_id := AERON_URI_INVALID_TAG in
  check aeron_uri_type_eqb (type channel_uri) AERON_URI_UDP ;;
  let udp := params_udp channel_uri in
  let '(manual, dynamic) :=
    match control_mode udp with
    | Some mode =>
        (String.eqb mode AERON_UDP_CHANNEL_CONTROL_MODE_MANUAL_VALUE,
         String.eqb mode AERON_UDP_CHANNEL_CONTROL_MODE_DYNAMIC_VALUE)
    | None => (false, false)
    end in
  check negb (dynamic && negb (bool_decide (is_Some (control udp)))) ;;
  let has_no_distinguishing_characteristic :=
    negb (bool_decide (is_Some (endpoint udp)))
    && negb (bool_decide (is_Some (control udp)))
    && negb (bool_decide (is_Some (channel_tag udp))) in
  check negb (has_no_distinguishing_characteristic && negb manual) ;;
  endpoint_addr <-
    match endpoint udp with
    | Some e => of_option (aeron_host_and_port_parse_and_resolve e)
    | None => Continue (aeron_set_ipv4_wildcard_host_and_port endpoint_addr)
    end ;;
  explicit_control_addr <-
    match control udp with
    | Some c => of_option (aeron_host_and_port_parse_and_resolve c)
    | None => Continue explicit_control_addr
    end ;;
  channel_tag_id <-
    match channel_tag udp with
    | Some t =>
        let tag := aeron_uri_parse_tag t in
        check negb (tag =? AERON_URI_INVALID_TAG) ;; Continue tag
    | None => Continue channel_tag_id
    end ;;
  let partial remote_data remote_control local_data local_control index
        ttl canonical explicit multicast :=
    {| original_uri := channel_original_uri;
       uri_length := channel_uri_length;
       uri := channel_uri;
       has_explicit_control := explicit;
       is_manual_control_mode := manual;
       is_dynamic_control_mode := dynamic;
       is_multicast := multicast;
       tag_id := channel_tag_id;
       remote_data := remote_data;
       remote_control := remote_control;
       local_data := local_data;
       local_control := local_control;
       interface_index := index;
       multicast_ttl := ttl;
       canonical_form := canonical;
       canonical_length := String.length canonical |} in
  if aeron_is_addr_multicast endpoint_addr then
    let '(rc, remote_control) :=
      aeron_multicast_control_address endpoint_addr zeroed_sockaddr in
    check negb (rc <? 0) ;;
    let '(rc, interface_addr, interface_index) :=
      aeron_find_multicast_interface (ss_family endpoint_addr)
        (bind_interface udp) interface_addr interface_index in
    check negb (rc <? 0) ;;
    let '(_, canonical, unique) :=
      aeron_uri_udp_canonicalise unique_canonical_form_value EmptyString
        sizeof_canonical_form interface_addr endpoint_addr false in
    Continue
      (partial endpoint_addr remote_control interface_addr interface_addr
         interface_index (aeron_uri_multicast_ttl channel_uri) canonical
         false true, unique)
  else if bool_decide (is_Some (control udp)) then
    let '(_, canonical, unique) :=
      aeron_uri_udp_canonicalise unique_canonical_form_value EmptyString
        sizeof_canonical_form explicit_control_addr endpoint_addr false in
    Continue
      (partial endpoint_addr endpoint_addr explicit_control_addr
         explicit_control_addr 0 0 canonical true false, unique)
  else
    let '(rc, interface_addr, interface_index) :=
      aeron_find_unicast_interface (ss_family endpoint_addr)
        (bind_interface udp) interface_addr interface_index in
    check negb (rc <? 0) ;;
    let '(_, canonical, unique) :=
      aeron_uri_udp_canonicalise unique_canonical_form_value EmptyString
        sizeof_canonical_form interface_addr endpoint_addr
        has_no_distinguishing_characteristic in
    Continue
      (partial endpoint_addr endpoint_addr interface_addr interface_addr
         interface_index 0 canonical false false, unique).

(** [aeron_udp_channel_parse(uri_length, uri, channel)].  [alloc]
    tells whether [aeron_alloc] can provide the channel; [channel]
    is what [*channel] holds before the call.  The result is the
    returned [int], [*channel] after the call and the static
    [unique_canonical_form_value]. *)
Definition aeron_udp_channel_parse (alloc : bool)
    (unique_canonical_form_value : Z)
    (uri_length : nat) (uri_str : string)
    (channel : option aeron_udp_channel_t)
    : Z * option aeron_udp_channel_t * Z :=
  if negb alloc then (-1, channel, unique_canonical_form_value)
  else
    match parse_allocated unique_canonical_form_value uri_length uri_str with
    | Continue (_channel, unique) => (0, Some _channel, unique)
    | error_cleanup => (-1, None, unique_canonical_form_value)
    end.

End Parse.

End UdpChannel.

(** ** The log buffer, as far as the publication reads it *)

Module LogBuffer.

(** Modelled from the spec: [AERON_LOGBUFFER_PARTITION_COUNT] of
    [aeron_logbuffer_descriptor.h]; a log has three term buffers. *)
Definition AERON_LOGBUFFER_PARTITION_COUNT : Z := 3.

(** Modelled from the spec: [AERON_DATA_HEADER_LENGTH] of
    [aeron_udp_protocol.h]; the frame header fields add up to 32
    bytes. *)
Definition AERON_DATA_HEADER_LENGTH : Z := 32.

(** Modelled from the spec: the metadata region of a log buffer
    ([aeron_logbuffer_metadata_t] of [aeron_logbuffer_descriptor.h]). *)
Record aeron_logbuffer_metadata_t := {
  term_tail_counters : list Z;
  active_term_count : Z;
  end_of_stream_position : Z;
  is_connected : Z;
  correlation_id : Z;
  initial_term_id : Z;
  mtu_length : Z;
  term_length : Z
}.

(** [aeron_log_buffer_t]: the mapped term buffers and the metadata
    ([mapped_raw_log.term_buffers], [mapped_raw_log.log_meta_data]). *)
Record aeron_log_buffer_t := {
  term_buffers : list (list Z);
  log_meta_data : aeron_logbuffer_metadata_t
}.

(** Modelled from the spec: [aeron_logbuffer_active_term_count], the
    volatile read of [activeTermCount]. *)
Definition aeron_logbuffer_active_term_count (md : aeron_logbuffer_metadata_t) : Z :=
  active_term_count md.

(** Modelled from the spec: [aeron_logbuffer_index_by_term_count];
    [activeTermCount mod 3] selects the active term.  The result is a
    [size_t]: C's [%] truncates, and the conversion takes the negative
    remainder of a negative count to an index far outside the array. *)
Definition aeron_logbuffer_index_by_term_count (term_count : Z) : nat :=
  Z.to_nat (Z.rem term_count AERON_LOGBUFFER_PARTITION_COUNT mod 2 ^ 64).

(** Modelled from the spec: [aeron_logbuffer_term_id]; the tail
    counter holds [(termId << 32) | tailOffset]. *)
Definition aeron_logbuffer_term_id (raw_tail : Z) : Z :=
  Int.wrap32 (Z.shiftr raw_tail 32).

(** Modelled from the spec:
    [aeron_logbuffer_compute_term_begin_position], the first summand of
    [position = ((termId - initialTermId) << positionBitsToShift) + termOffset]. *)
Definition aeron_logbuffer_compute_term_begin_position
    (active_term_id : Z) (position_bits_to_shift : Z) (initial_term_id : Z) : Z :=
  let term_count := Int.wrap32 (active_term_id - initial_term_id) in
  Int.wrap64 (Z.shiftl term_count position_bits_to_shift).

(** Modelled from the spec: [aeron_term_appender_raw_tail_volatile],
    the volatile read of one term tail counter. *)
Definition aeron_term_appender_raw_tail_volatile (tails : list Z) (index : nat) : Z :=
  default 0 (tails !! index).

(** Modelled from the spec: [aeron_frame_compute_max_message_length],
    [maxMessageLength = min(termLength/8, 16 MiB)]. *)
Definition aeron_frame_compute_max_message_length (term_length : Z) : Z :=
  Z.min (term_length / 8) (16 * 1024 * 1024).

(** Modelled from the spec: [aeron_number_of_trailing_zeroes] of
    [aeron_bitutil.h]; for a power of two it is [log2], which is
    [positionBitsToShift = log2(termLength)]. *)
Definition aeron_number_of_trailing_zeroes (value : Z) : Z :=
  if value =? 0 then 32 else Z.log2 (Z.land value (- value)).

End LogBuffer.

(** ** [aeron_publication.c] *)

Module Publication.

Import LogBuffer.

(** Modelled from the spec: the return codes of [aeronc.h], negative
    sentinels told apart from positions, numbered as in that header. *)
Definition AERON_PUBLICATION_NOT_CONNECTED : Z := -1.
Definition AERON_PUBLICATION_BACK_PRESSURED : Z := -2.
Definition AERON_PUBLICATION_ADMIN_ACTION : Z := -3.
Definition AERON_PUBLICATION_CLOSED : Z := -4.
Definition AERON_PUBLICATION_MAX_POSITION_EXCEEDED : Z := -5.
Definition AERON_PUBLICATION_ERROR : Z := -6.

(** The five sentinels that the specification lists for offer and
    claim. *)
Definition listed_sentinel (v : Z) : Prop :=
  v = AERON_PUBLICATION_BACK_PRESSURED
  \/ v = AERON_PUBLICATION_NOT_CONNECTED
  \/ v = AERON_PUBLICATION_ADMIN_ACTION
  \/ v = AERON_PUBLICATION_CLOSED
  \/ v = AERON_PUBLICATION_MAX_POSITION_EXCEEDED.

(** A position above zero, one of the five listed sentinels, or the
    generic error. *)
Definition position_or_sentinel (v : Z) : Prop :=
  0 < v \/ listed_sentinel v \/ v = AERON_PUBLICATION_ERROR.

Inductive aeron_client_command_type_t :=
| AERON_CLIENT_TYPE_PUBLICATION
| AERON_CLIENT_TYPE_OTHER.

(** [aeron_publication_t] ([aeron_publication.h]).  [position_limit]
    and [channel_status_indicator] stand for the counters the two
    pointers address; [log_meta_data] points into [log_buffer] and is
    the projection below. *)
Record aeron_publication_t := {
  command_base_type : aeron_client_command_type_t;
  conductor : Z;
  channel : string;
  log_buffer : aeron_log_buffer_t;
  position_limit : Z;
  channel_status_indicator : Z;
  registration_id : Z;
  original_registration_id : Z;
  stream_id : Z;
  session_id : Z;
  max_possible_position : Z;
  max_payload_length : Z;
  max_message_length : Z;
  position_bits_to_shift : Z;
  initial_term_id : Z;
  is_closed : bool
}.

Definition log_meta_data (p : aeron_publication_t) : aeron_logbuffer_metadata_t :=
  LogBuffer.log_meta_data (log_buffer p).

(** Conversion to [size_t] (64 bits). *)
Definition to_size_t (x : Z) : Z := x mod 2 ^ 64.

(** [aeron_publication_create].  [alloc] tells whether [aeron_alloc]
    succeeds; the result is the returned [int] and [*publication]. *)
Definition aeron_publication_create (alloc : bool)
    (conductor : Z) (channel : string) (stream_id session_id : Z)
    (position_limit_addr channel_status_addr : Z)
    (log_buffer : aeron_log_buffer_t)
    (original_registration_id registration_id : Z)
    : Z * option aeron_publication_t :=
  if negb alloc then (-1, None)
  else
    let md := LogBuffer.log_meta_data log_buffer in
    let term_length := to_size_t (LogBuffer.term_length md) in
    let _publication :=
      {| command_base_type := AERON_CLIENT_TYPE_PUBLICATION;
         log_buffer := log_buffer;
         position_limit := position_limit_addr;
         channel_status_indicator := channel_status_addr;
         conductor := conductor;
         channel := channel;
         registration_id := registration_id;
         original_registration_id := original_registration_id;
         stream_id := stream_id;
         session_id := session_id;
         is_closed := false;
         max_possible_position := Int.wrap64 (Z.shiftl term_length 31);
         max_payload_length :=
           to_size_t (LogBuffer.mtu_length md - AERON_DATA_HEADER_LENGTH);
         max_message_length := aeron_frame_compute_max_message_length term_length;
         position_bits_to_shift :=
           to_size_t (aeron_number_of_trailing_zeroes (Int.wrap32 term_length));
         initial_term_id := LogBuffer.initial_term_id md |} in
    (-1, Some _publication).

(** [aeron_iovec_t] and [aeron_buffer_claim_t] ([aeronc.h]). *)
Record aeron_iovec_t := { iov_base : list Z; iov_len : Z }.
Record aeron_buffer_claim_t := { frame_header : Z; data : Z; length : Z }.

(** [aeron_reserved_value_supplier_t]: a function of [clientd], the
    frame and its length, or [NULL]. *)
Definition aeron_reserved_value_supplier_t : Type := option (Z -> list Z -> Z -> Z).

(** The functions of [aeron_term_appender.h] and the two inline
    functions of [aeron_publication.h] that the offer and claim paths
    call.  A term appender works on one term buffer and its tail
    counter and returns the resulting offset with both; new-position
    may rotate the log, back-pressure-status only reads. *)
Class LogBufferOps := {
  aeron_term_appender_append_unfragmented_message :
    list Z -> Z -> list Z -> Z -> aeron_reserved_value_supplier_t -> Z ->
    Z -> Z -> Z -> Z * list Z * Z;
  aeron_term_appender_append_fragmented_message :
    list Z -> Z -> list Z -> Z -> Z -> aeron_reserved_value_supplier_t -> Z ->
    Z -> Z -> Z -> Z * list Z * Z;
  aeron_term_appender_append_unfragmented_messagev :
    list Z -> Z -> list aeron_iovec_t -> Z -> Z ->
    aeron_reserved_value_supplier_t -> Z -> Z -> Z -> Z -> Z * list Z * Z;
  aeron_term_appender_append_fragmented_messagev :
    list Z -> Z -> list aeron_iovec_t -> Z -> Z -> Z ->
    aeron_reserved_value_supplier_t -> Z -> Z -> Z -> Z -> Z * list Z * Z;
  aeron_term_appender_claim :
    list Z -> Z -> Z -> aeron_buffer_claim_t -> Z -> Z -> Z ->
    Z * list Z * Z * aeron_buffer_claim_t;
  aeron_publication_new_position :
    aeron_publication_t -> Z -> Z -> Z -> Z -> Z -> Z * aeron_publication_t;
  aeron_publication_back_pressure_status :
    aeron_publication_t -> Z -> Z -> Z
}.

(** [aeron_counter_get_volatile]. *)
Definition aeron_counter_get_volatile (counter : Z) : Z := counter.

(** The term buffer and the tail counter at [index]. *)
Definition term_buffer_at (p : aeron_publication_t) (index : nat) : list Z :=
  default [] (term_buffers (log_buffer p) !! index).

Definition term_tail_counter_at (p : aeron_publication_t) (index : nat) : Z :=
  aeron_term_appender_raw_tail_volatile (term_tail_counters (log_meta_data p)) index.

(** The publication after a term appender wrote the term buffer and
    the tail counter at [index]. *)
Definition with_term (p : aeron_publication_t) (index : nat)
    (term_buffer : list Z) (tail : Z) : aeron_publication_t :=
  let lb := log_buffer p in
  let md := LogBuffer.log_meta_data lb in
  {| command_base_type := command_base_type p;
     conductor := conductor p;
     channel := channel p;
     log_buffer :=
       {| term_buffers := <[index := term_buffer]> (term_buffers lb);
          LogBuffer.log_meta_data :=
            {| term_tail_counters := <[index := tail]> (term_tail_counters md);
               active_term_count := active_term_count md;
               end_of_stream_position := end_of_stream_position md;
               is_connected := is_connected md;
               correlation_id := correlation_id md;
               LogBuffer.initial_term_id := LogBuffer.initial_term_id md;
               mtu_length := mtu_length md;
               term_length := term_length md |} |};
     position_limit := position_limit p;
     channel_status_indicator := channel_status_indicator p;
     registration_id := registration_id p;
     original_registration_id := original_registration_id p;
     stream_id := stream_id p;
     session_id := session_id p;
     max_possible_position := max_possible_position p;
     max_payload_length := max_payload_length p;
     max_message_length := max_message_length p;
     position_bits_to_shift := position_bits_to_shift p;
     initial_term_id := initial_term_id p;
     is_closed := is_closed p |}.

(** What the offer and claim paths read from the log: the index of
    the active term, its tail counter, the term id in it and the
    position at which the term begins. *)
Definition active_index (p : aeron_publication_t) : nat :=
  aeron_logbuffer_index_by_term_count
    (aeron_logbuffer_active_term_count (log_meta_data p)).

Definition active_term_id (p : aeron_publication_t) : Z :=
  aeron_logbuffer_term_id (term_tail_counter_at p (active_index p)).

Definition term_begin_position (p : aeron_publication_t) : Z :=
  aeron_logbuffer_compute_term_begin_position
    (active_term_id p) (position_bits_to_shift p) (initial_term_id p).

(** The offset of the tail within the active term, the [term_offset]
    of the offer and claim paths: [raw_tail & 0xFFFFFFFF]. *)
Definition tail_offset (p : aeron_publication_t) : Z :=
  Z.land (term_tail_counter_at p (active_index p)) 4294967295.

(** Modelled from the spec: the position of the current tail,
    [((termId - initialTermId) << positionBitsToShift) + termOffset]. *)
Definition tail_position (p : aeron_publication_t) : Z :=
  term_begin_position p + tail_offset p.

(** The active term count equals [termId - initialTermId], in
    [int32_t] arithmetic. *)
Definition term_count_matches (p : aeron_publication_t) : Prop :=
  aeron_logbuffer_active_term_count (log_meta_data p)
  = Int.wrap32 (active_term_id p - initial_term_id p).

(** The total length of the first [iovcnt] entries of [iov]. *)
Definition iov_length (iov : list aeron_iovec_t) (iovcnt : Z) : Z :=
  fold_left (fun length v => to_size_t (length + iov_len v))
    (firstn (Z.to_nat iovcnt) iov) 0.

(** A term count and a position shift for which positions are not
    negative. *)
Definition positions_non_negative (p : aeron_publication_t) : Prop :=
  0 <= aeron_logbuffer_active_term_count (log_meta_data p) <= Int.INT32_MAX
  /\ 0 <= position_bits_to_shift p <= 31.

Section Offer.

Context `{ops : LogBufferOps}.

(** [aeron_publication_offer]: the returned [int64_t] and the
    publication (with its log buffer) after the call. *)
Definition aeron_publication_offer
    (publication : option aeron_publication_t) (buffer : option (list Z))
    (length : Z) (reserved_value_supplier : aeron_reserved_value_supplier_t)
    (clientd : Z) : Z * option aeron_publication_t :=
  let new_position := AERON_PUBLICATION_CLOSED in
  match publication, buffer with
  | Some p, Some buffer =>
      if negb (is_closed p) then
        let limit := aeron_counter_get_volatile (position_limit p) in
        let term_count := aeron_logbuffer_active_term_count (log_meta_data p) in
        let index := aeron_logbuffer_index_by_term_count term_count in
        let raw_tail := term_tail_counter_at p index in
        let term_offset := Z.land raw_tail 4294967295 in
        let term_id := aeron_logbuffer_term_id raw_tail in
        let position :=
          aeron_logbuffer_compute_term_begin_position
            term_id (position_bits_to_shift p) (initial_term_id p) in
        if negb (term_count =? Int.wrap32 (term_id - initial_term_id p)) then
          (AERON_PUBLICATION_ADMIN_ACTION, Some p)
        else if position <? limit then
          if length <=? max_payload_length p then
            let '(resulting_offset, term_buffer, tail) :=
              aeron_term_appender_append_unfragmented_message
                (term_buffer_at p index) (term_tail_counter_at p index)
                buffer length reserved_value_supplier clientd
                term_id (session_id p) (stream_id p) in
            let '(new_position, p) :=
              aeron_publication_new_position
                (with_term p index term_buffer tail)
                term_count (Int.wrap32 term_offset) term_id position
                resulting_offset in
            (new_position, Some p)
          else if max_message_length p <? length then
            (AERON_PUBLICATION_ERROR, Some p)
          else
            let '(resulting_offset, term_buffer, tail) :=
              aeron_term_appender_append_fragmented_message
                (term_buffer_at p index) (term_tail_counter_at p index)
                buffer length (max_payload_length p)
                reserved_value_supplier clientd
                term_id (session_id p) (stream_id p) in
            let '(new_position, p) :=
              aeron_publication_new_position
                (with_term p index term_buffer tail)
                term_count (Int.wrap32 term_offset) term_id position
                resulting_offset in
            (new_position, Some p)
        else
          (aeron_publication_back_pressure_status p position (Int.wrap32 length),
           Some p)
      else (new_position, Some p)
  | _, _ => (AERON_PUBLICATION_ERROR, publication)
  end.

(** [aeron_publication_offerv]; [iov = NULL] is [None]. *)
Definition aeron_publication_offerv
    (publication : option aeron_publication_t)
    (iov : option (list aeron_iovec_t)) (iovcnt : Z)
    (reserved_value_supplier : aeron_reserved_value_supplier_t)
    (clientd : Z) : Z * option aeron_publication_t :=
  let new_position := AERON_PUBLICATION_CLOSED in
  match publication, iov with
  | Some p, Some iov =>
      let length := iov_length iov iovcnt in
      if negb (is_closed p) then
        let limit := aeron_counter_get_volatile (position_limit p) in
        let term_count := aeron_logbuffer_active_term_count (log_meta_data p) in
        let index := aeron_logbuffer_index_by_term_count term_count in
        let raw_tail := term_tail_counter_at p index in
        let term_offset := Z.land raw_tail 4294967295 in
        let term_id := aeron_logbuffer_term_id raw_tail in
        let position :=
          aeron_logbuffer_compute_term_begin_position
            term_id (position_bits_to_shift p) (initial_term_id p) in
        if negb (term_count =? Int.wrap32 (term_id - initial_term_id p)) then
          (AERON_PUBLICATION_ADMIN_ACTION, Some p)
        else if position <? limit then
          if length <=? max_payload_length p then
            let '(resulting_offset, term_buffer, tail) :=
              aeron_term_appender_append_unfragmented_messagev
                (term_buffer_at p index) (term_tail_counter_at p index)
                iov iovcnt length reserved_value_supplier clientd
                term_id (session_id p) (stream_id p) in
            let '(new_position, p) :=
              aeron_publication_new_position
                (with_term p index term_buffer tail)
                term_count (Int.wrap32 term_offset) term_id position
                resulting_offset in
            (new_position, Some p)
          else if max_message_length p <? length then
            (AERON_PUBLICATION_ERROR, Some p)
          else
            let '(resulting_offset, term_buffer, tail) :=
              aeron_term_appender_append_fragmented_messagev
                (term_buffer_at p index) (term_tail_counter_at p index)
                iov iovcnt length (max_payload_length p)
                reserved_value_supplier clientd
                term_id (session_id p) (stream_id p) in
            let '(new_position, p) :=
              aeron_publication_new_position
                (with_term p index term_buffer tail)
                term_count (Int.wrap32 term_offset) term_id position
                resulting_offset in
            (new_position, Some p)
        else
          (aeron_publication_back_pressure_status p position (Int.wrap32 length),
           Some p)
      else (new_position, Some p)
  | _, _ => (AERON_PUBLICATION_ERROR, publication)
  end.

(** [aeron_publication_try_claim]: the returned [int64_t], the
    publication and [*buffer_claim] after the call. *)
Definition aeron_publication_try_claim
    (publication : option aeron_publication_t) (length : Z)
    (buffer_claim : option aeron_buffer_claim_t)
    : Z * option aeron_publication_t * option aeron_buffer_claim_t :=
  let new_position := AERON_PUBLICATION_CLOSED in
  match publication, buffer_claim with
  | Some p, Some claim =>
      if max_payload_length p <? length then
        (AERON_PUBLICATION_ERROR, Some p, Some claim)
      else if negb (is_closed p) then
        let limit := aeron_counter_get_volatile (position_limit p) in
        let term_count := aeron_logbuffer_active_term_count (log_meta_data p) in
        let index := aeron_logbuffer_index_by_term_count term_count in
        let raw_tail := term_tail_counter_at p index in
        let term_offset := Z.land raw_tail 4294967295 in
        let term_id := aeron_logbuffer_term_id raw_tail in
        let position :=
          aeron_logbuffer_compute_term_begin_position
            term_id (position_bits_to_shift p) (initial_term_id p) in
        if negb (term_count =? Int.wrap32 (term_id - initial_term_id p)) then
          (AERON_PUBLICATION_ADMIN_ACTION, Some p, Some claim)
        else if position <? limit then
          let '(resulting_offset, term_buffer, tail, claim) :=
            aeron_term_appender_claim
              (term_buffer_at p index) (term_tail_counter_at p index)
              length claim term_id (session_id p) (stream_id p) in
          let '(new_position, p) :=
            aeron_publication_new_position
              (with_term p index term_buffer tail)
              term_count (Int.wrap32 term_offset) term_id position
              resulting_offset in
          (new_position, Some p, Some claim)
        else
          (aeron_publication_back_pressure_status p position (Int.wrap32 length),
           Some p, Some claim)
      else (new_position, Some p, Some claim)
  | _, _ => (AERON_PUBLICATION_ERROR, publication, buffer_claim)
  end.

(** What the specification promises of the two inline functions:
    from a position that is not negative, new-position gives a
    position above zero, [ADMIN_ACTION] or [MAX_POSITION_EXCEEDED];
    back-pressure-status gives [BACK_PRESSURED], [NOT_CONNECTED] or
    [MAX_POSITION_EXCEEDED]. *)
Definition new_position_contract : Prop :=
  forall p term_count term_offset term_id position resulting_offset,
    0 <= position ->
    let r :=
      fst (aeron_publication_new_position p term_count term_offset term_id
             position resulting_offset) in
    0 < r
    \/ r = AERON_PUBLICATION_ADMIN_ACTION
    \/ r = AERON_PUBLICATION_MAX_POSITION_EXCEEDED.

Definition back_pressure_status_contract : Prop :=
  forall p current_position message_length,
    let r :=
      aeron_publication_back_pressure_status p current_position message_length in
    r = AERON_PUBLICATION_BACK_PRESSURED
    \/ r = AERON_PUBLICATION_NOT_CONNECTED
    \/ r = AERON_PUBLICATION_MAX_POSITION_EXCEEDED.

End Offer.

End Publication.

(** ** Session-id selection of the driver conductor *)

Module Conductor.

(** Modelled from the spec: a network publication as the conductor
    keeps it ([aeron_driver_conductor.c] is not among the sources):
    the endpoint it sends on, its stream and its session. *)
Record network_publication := {
  endpoint : string;
  stream_id : Z;
  session_id : Z
}.

(** Modelled from the spec: the conductor state that session-id
    selection reads and writes: [nextSessionId], the reserved range
    [[reservedLow, reservedHigh]] and the publications in use. *)
Record aeron_driver_conductor_t := {
  next_session_id : Z;
  publication_reserved_session_id_low : Z;
  publication_reserved_session_id_high : Z;
  network_publications : list network_publication
}.

(** Modelled from the spec: advancing [nextSessionId] wraps
    INT32_MAX to INT32_MIN. *)
Definition advance (session_id : Z) : Z := Int.wrap32 (session_id + 1).

(** Modelled from the spec: a value in [[reservedLow, reservedHigh]]. *)
Definition is_reserved (c : aeron_driver_conductor_t) (session_id : Z) : bool :=
  (publication_reserved_session_id_low c <=? session_id)
  && (session_id <=? publication_reserved_session_id_high c).

(** Modelled from the spec: a sessionId already used on the same
    (endpoint, streamId). *)
Definition is_in_use (c : aeron_driver_conductor_t) (e : string) (stream : Z)
    (id : Z) : bool :=
  existsb
    (fun p => String.eqb (endpoint p) e && (stream_id p =? stream)
              && (session_id p =? id))
    (network_publications c).

(** A session id that may be assigned on (endpoint, streamId). *)
Definition is_free (c : aeron_driver_conductor_t) (e : string) (stream : Z)
    (id : Z) : Prop :=
  is_reserved c id = false /\ is_in_use c e stream id = false.

(** Modelled from the spec: on allocation, take [nextSessionId] and
    advance it, skipping reserved values and values in use.  [fuel]
    bounds the number of candidates tried. *)
Fixpoint select_session_id (fuel : nat) (c : aeron_driver_conductor_t)
    (e : string) (stream : Z) (next : Z) : option (Z * Z) :=
  match fuel with
  | O => None
  | S fuel =>
      let candidate := next in
      let next := advance next in
      if is_reserved c candidate || is_in_use c e stream candidate then
        select_session_id fuel c e stream next
      else Some (candidate, next)
  end.

(** Modelled from the spec: the session id assigned to a new
    publication on (endpoint, streamId) and the conductor afterwards.
    There are [2 ^ 32] candidates; [None] when all were tried. *)
Definition assign_session_id (c : aeron_driver_conductor_t) (e : string)
    (stream : Z) : option (Z * aeron_driver_conductor_t) :=
  match select_session_id (Z.to_nat (2 ^ 32)) c e stream (next_session_id c) with
  | Some (id, next) =>
      Some (id,
            {| next_session_id := next;
               publication_reserved_session_id_low :=
                 publication_reserved_session_id_low c;
               publication_reserved_session_id_high :=
                 publication_reserved_session_id_high c;
               network_publications := network_publications c |})
  | None => None
  end.

End Conductor.

(** ** A reference log buffer

    The term appenders and the two inline functions of
    [aeron_publication.h] are not among the sources; the theorems below
    hold for every [LogBufferOps].  This instance, written after section
    4.1 of the specification, is the one concrete inputs are run on. *)

Module Reference.

Import LogBuffer Publication.

(** Modelled from the spec: the two sentinels of a term appender,
    [TRIPPED] (the append would cross the term boundary) and
    [FAILED]. *)
Definition AERON_TERM_APPENDER_TRIPPED : Z := -1.
Definition AERON_TERM_APPENDER_FAILED : Z := -2.

(** Modelled from the spec: frames are aligned to 32 bytes. *)
Definition AERON_LOGBUFFER_FRAME_ALIGNMENT : Z := 32.

Definition aeron_align (value alignment : Z) : Z :=
  Z.land (value + (alignment - 1)) (- alignment).

(** [memcpy(term_buffer + offset, bytes, length bytes)]. *)
Fixpoint write_bytes (term_buffer : list Z) (offset : nat) (bytes : list Z) : list Z :=
  match bytes with
  | [] => term_buffer
  | b :: rest => write_bytes (<[offset := b]> term_buffer) (S offset) rest
  end.

(** Modelled from the spec: reserving [required] bytes on the tail
    counter; the previous tail gives the term offset, and a
    reservation that crosses the end of the term trips. *)
Definition reserve (term_buffer : list Z) (tail required : Z) : Z * Z * Z :=
  let term_offset := Z.land tail 4294967295 in
  let resulting_offset := term_offset + required in
  if Z.of_nat (List.length term_buffer) <? resulting_offset then
    (AERON_TERM_APPENDER_TRIPPED, term_offset, tail + required)
  else (resulting_offset, term_offset, tail + required).

(** Modelled from the spec: the unfragmented append: one aligned
    frame of header and payload (the header bytes are left as they
    are). *)
Definition append_unfragmented (term_buffer : list Z) (tail : Z)
    (payload : list Z) (length : Z) : Z * list Z * Z :=
  let aligned :=
    aeron_align (length + AERON_DATA_HEADER_LENGTH) AERON_LOGBUFFER_FRAME_ALIGNMENT in
  let '(resulting_offset, term_offset, tail) := reserve term_buffer tail aligned in
  if resulting_offset <? 0 then (resulting_offset, term_buffer, tail)
  else
    (resulting_offset,
     write_bytes term_buffer (Z.to_nat (term_offset + AERON_DATA_HEADER_LENGTH))
       (firstn (Z.to_nat length) payload),
     tail).

(** The payload of each fragment at its place, fragment after
    fragment. *)
Fixpoint write_fragments (fuel : nat) (term_buffer : list Z) (offset : Z)
    (payload : list Z) (max_payload_length : Z) : list Z :=
  match fuel, payload with
  | O, _ | _, [] => term_buffer
  | S fuel, _ =>
      let chunk := firstn (Z.to_nat max_payload_length) payload in
      let aligned :=
        aeron_align (Z.of_nat (List.length chunk) + AERON_DATA_HEADER_LENGTH)
          AERON_LOGBUFFER_FRAME_ALIGNMENT in
      write_fragments fuel
        (write_bytes term_buffer (Z.to_nat (offset + AERON_DATA_HEADER_LENGTH)) chunk)
        (offset + aligned)
        (skipn (Z.to_nat max_payload_length) payload) max_payload_length
  end.

(** Modelled from the spec: the fragmented append: the total aligned
    length of all frames is reserved at once. *)
Definition append_fragmented (term_buffer : list Z) (tail : Z)
    (payload : list Z) (length max_payload_length : Z) : Z * list Z * Z :=
  let num_max_payloads := length / max_payload_length in
  let remaining_payload := length mod max_payload_length in
  let last_frame_length :=
    if 0 <? remaining_payload then
      aeron_align (remaining_payload + AERON_DATA_HEADER_LENGTH)
        AERON_LOGBUFFER_FRAME_ALIGNMENT
    else 0 in
  let required :=
    num_max_payloads * (max_payload_length + AERON_DATA_HEADER_LENGTH)
    + last_frame_length in
  let '(resulting_offset, term_offset, tail) := reserve term_buffer tail required in
  if resulting_offset <? 0 then (resulting_offset, term_buffer, tail)
  else
    (resulting_offset,
     write_fragments (Z.to_nat length) term_buffer term_offset
       (firstn (Z.to_nat length) payload) max_payload_length,
     tail).

Definition gather (iov : list aeron_iovec_t) (iovcnt : Z) : list Z :=
  flat_map (fun v => firstn (Z.to_nat (iov_len v)) (iov_base v))
    (firstn (Z.to_nat iovcnt) iov).

(** Modelled from the spec: rotation: the tail counter of the next
    term becomes [(termId + 1, 0)] and [activeTermCount] becomes
    [termCount + 1]. *)
Definition rotate_log (p : aeron_publication_t) (term_count term_id : Z)
    : aeron_publication_t :=
  let lb := log_buffer p in
  let md := LogBuffer.log_meta_data lb in
  let next_index := aeron_logbuffer_index_by_term_count (term_count + 1) in
  {| command_base_type := command_base_type p;
     conductor := conductor p;
     channel := channel p;
     log_buffer :=
       {| term_buffers := term_buffers lb;
          LogBuffer.log_meta_data :=
            {| term_tail_counters :=
                 <[next_index := Z.shiftl (term_id + 1) 32]> (term_tail_counters md);
               active_term_count := term_count + 1;
               end_of_stream_position := end_of_stream_position md;
               is_connected := is_connected md;
               correlation_id := correlation_id md;
               LogBuffer.initial_term_id := LogBuffer.initial_term_id md;
               mtu_length := mtu_length md;
               term_length := term_length md |} |};
     position_limit := position_limit p;
     channel_status_indicator := channel_status_indicator p;
     registration_id := registration_id p;
     original_registration_id := original_registration_id p;
     stream_id := stream_id p;
     session_id := session_id p;
     max_possible_position := max_possible_position p;
     max_payload_length := max_payload_length p;
     max_message_length := max_message_length p;
     position_bits_to_shift := position_bits_to_shift p;
     initial_term_id := Publication.initial_term_id p;
     is_closed := is_closed p |}.

(** Modelled from the spec: [aeron_publication_new_position].  A
    resulting offset above zero is the offset just past the appended
    frames, counted from the beginning of the term; otherwise the
    position is exhausted or the log is rotated and the caller told to
    retry. *)
Definition new_position (p : aeron_publication_t)
    (term_count term_offset term_id position resulting_offset : Z)
    : Z * aeron_publication_t :=
  if 0 <? resulting_offset then (position + resulting_offset, p)
  else if max_possible_position p <? position + term_offset then
    (AERON_PUBLICATION_MAX_POSITION_EXCEEDED, p)
  else (AERON_PUBLICATION_ADMIN_ACTION, rotate_log p term_count term_id).

(** Modelled from the spec: [aeron_publication_back_pressure_status]:
    past the maximum position, back-pressured when connected, else
    not connected. *)
Definition back_pressure_status (p : aeron_publication_t)
    (current_position message_length : Z) : Z :=
  if max_possible_position p <=? current_position + message_length then
    AERON_PUBLICATION_MAX_POSITION_EXCEEDED
  else if LogBuffer.is_connected (Publication.log_meta_data p) =? 1 then
    AERON_PUBLICATION_BACK_PRESSURED
  else AERON_PUBLICATION_NOT_CONNECTED.

#[export] Instance spec_ops : LogBufferOps := {
  aeron_term_appender_append_unfragmented_message
    term_buffer tail buffer length _ _ _ _ _ :=
      append_unfragmented term_buffer tail buffer length;
  aeron_term_appender_append_fragmented_message
    term_buffer tail buffer length max_payload_length _ _ _ _ _ :=
      append_fragmented term_buffer tail buffer length max_payload_length;
  aeron_term_appender_append_unfragmented_messagev
    term_buffer tail iov iovcnt length _ _ _ _ _ :=
      append_unfragmented term_buffer tail (gather iov iovcnt) length;
  aeron_term_appender_append_fragmented_messagev
    term_buffer tail iov iovcnt length max_payload_length _ _ _ _ _ :=
      append_fragmented term_buffer tail (gather iov iovcnt) length max_payload_length;
  aeron_term_appender_claim term_buffer tail length claim _ _ _ :=
    let aligned :=
      aeron_align (length + AERON_DATA_HEADER_LENGTH) AERON_LOGBUFFER_FRAME_ALIGNMENT in
    let '(resulting_offset, term_offset, tail) := reserve term_buffer tail aligned in
    if resulting_offset <? 0 then (resulting_offset, term_buffer, tail, claim)
    else
      (resulting_offset, term_buffer, tail,
       {| frame_header := term_offset;
          data := term_offset + AERON_DATA_HEADER_LENGTH;
          Publication.length := length |});
  aeron_publication_new_position := new_position;
  aeron_publication_back_pressure_status := back_pressure_status
}.

(** A log of three 64 KiB terms whose first term id was 7 and that
    rotated four times: the terms now hold the term ids 10, 11 and 9,
    and the active term count of a consistent log is 4. *)
Definition sample_log (term_count : Z) : aeron_log_buffer_t :=
  {| term_buffers := repeat (repeat 0 (Z.to_nat 65536)) 3;
     LogBuffer.log_meta_data :=
       {| term_tail_counters := [Z.shiftl 10 32; Z.shiftl 11 32; Z.shiftl 9 32];
          active_term_count := term_count;
          end_of_stream_position := Int.INT32_MAX;
          is_connected := 1;
          correlation_id := 11;
          LogBuffer.initial_term_id := 7;
          mtu_length := 1408;
          term_length := 65536 |} |}.

(** The open publication that [aeron_publication_create] sets up on
    that log, with the given value of the position-limit counter. *)
Definition sample_publication (term_count limit : Z) : aeron_publication_t :=
  {| command_base_type := AERON_CLIENT_TYPE_PUBLICATION;
     conductor := 1;
     channel := "aeron:udp?endpoint=127.0.0.1:40123";
     log_buffer := sample_log term_count;
     position_limit := limit;
     channel_status_indicator := 1;
     registration_id := 12;
     original_registration_id := 12;
     stream_id := 1001;
     session_id := 3;
     max_possible_position := 140737488355328;
     max_payload_length := 1376;
     max_message_length := 8192;
     position_bits_to_shift := 16;
     Publication.initial_term_id := 7;
     is_closed := false |}.

(** The same log after 1024 bytes were appended to the active term,
    and the open publication on it. *)
Definition appended_log : aeron_log_buffer_t :=
  {| term_buffers := repeat (repeat 0 (Z.to_nat 65536)) 3;
     LogBuffer.log_meta_data :=
       {| term_tail_counters :=
            [Z.shiftl 10 32; Z.shiftl 11 32 + 1024; Z.shiftl 9 32];
          active_term_count := 4;
          end_of_stream_position := Int.INT32_MAX;
          is_connected := 1;
          correlation_id := 11;
          LogBuffer.initial_term_id := 7;
          mtu_length := 1408;
          term_length := 65536 |} |}.

Definition appended_publication (limit : Z) : aeron_publication_t :=
  {| command_base_type := AERON_CLIENT_TYPE_PUBLICATION;
     conductor := 1;
     channel := "aeron:udp?endpoint=127.0.0.1:40123";
     log_buffer := appended_log;
     position_limit := limit;
     channel_status_indicator := 1;
     registration_id := 12;
     original_registration_id := 12;
     stream_id := 1001;
     session_id := 3;
     max_possible_position := 140737488355328;
     max_payload_length := 1376;
     max_message_length := 8192;
     position_bits_to_shift := 16;
     Publication.initial_term_id := 7;
     is_closed := false |}.

(** The same publication after it was closed. *)
Definition closed_publication : aeron_publication_t :=
  {| command_base_type := AERON_CLIENT_TYPE_PUBLICATION;
     conductor := 1;
     channel := "aeron:udp?endpoint=127.0.0.1:40123";
     log_buffer := sample_log 4;
     position_limit := 1000000;
     channel_status_indicator := 1;
     registration_id := 12;
     original_registration_id := 12;
     stream_id := 1001;
     session_id := 3;
     max_possible_position := 140737488355328;
     max_payload_length := 1376;
     max_message_length := 8192;
     position_bits_to_shift := 16;
     Publication.initial_term_id := 7;
     is_closed := true |}.

(** The conductor of the test
    [shouldNotAccidentallyBumpIntoExistingSessionIdWithSessionIdWrapping]:
    the counter stands at INT32_MAX - 1 and the four session ids
    around the wrap are in use on the stream. *)
Definition wrapping_conductor : Conductor.aeron_driver_conductor_t :=
  {| Conductor.next_session_id := 2147483646;
     Conductor.publication_reserved_session_id_low := -1;
     Conductor.publication_reserved_session_id_high := 1000;
     Conductor.network_publications :=
       [ {| Conductor.endpoint := "127.0.0.1:40001";
            Conductor.stream_id := 1001;
            Conductor.session_id := 2147483646 |};
         {| Conductor.endpoint := "127.0.0.1:40001";
            Conductor.stream_id := 1001;
            Conductor.session_id := 2147483647 |};
         {| Conductor.endpoint := "127.0.0.1:40001";
            Conductor.stream_id := 1001;
            Conductor.session_id := -2147483648 |};
         {| Conductor.endpoint := "127.0.0.1:40001";
            Conductor.stream_id := 1001;
            Conductor.session_id := -2147483647 |} ] |}.

Import UdpChannel.

(** A name service that knows three URIs and two hosts, for concrete
    runs of [aeron_udp_channel_parse]. *)
#[export] Instance sample_net : NetUtil := {
  sizeof_original_uri := 384;
  sizeof_canonical_form := 384;
  AERON_URI_INVALID_TAG := -1;
  aeron_uri_parse _ uri :=
    if String.eqb uri "aeron:udp?endpoint=127.0.0.1:40123" then
      Some {| type := AERON_URI_UDP;
              params_udp :=
                {| UdpChannel.endpoint := Some "127.0.0.1:40123"%string;
                   bind_interface := None; control := None;
                   control_mode := None; channel_tag := None;
                   entity_tag := None; ttl := None;
                   additional_params := [] |} |}
    else if String.eqb uri "aeron:udp?control-mode=dynamic" then
      Some {| type := AERON_URI_UDP;
              params_udp :=
                {| UdpChannel.endpoint := None;
                   bind_interface := None; control := None;
                   control_mode := Some "dynamic"%string; channel_tag := None;
                   entity_tag := None; ttl := None;
                   additional_params := [] |} |}
    else if String.eqb uri "aeron:udp?interface=localhost" then
      Some {| type := AERON_URI_UDP;
              params_udp :=
                {| UdpChannel.endpoint := None;
                   bind_interface := Some "localhost"%string; control := None;
                   control_mode := None; channel_tag := None;
                   entity_tag := None; ttl := None;
                   additional_params := [] |} |}
    else None;
  aeron_uri_parse_tag _ := -1;
  aeron_uri_multicast_ttl _ := 0;
  aeron_host_and_port_parse_and_resolve host :=
    if String.eqb host "127.0.0.1:40123" then
      Some {| ss_family := AF_INET; sin_port := 48028;
              sin_addr := [127; 0; 0; 1] |}
    else None;
  aeron_set_ipv4_wildcard_host_and_port _ :=
    {| ss_family := AF_INET; sin_port := 0; sin_addr := [0; 0; 0; 0] |};
  aeron_is_addr_multicast a :=
    (224 <=? Strutil.char_at (sin_addr a) 0) && (Strutil.char_at (sin_addr a) 0 <? 240);
  aeron_interface_parse_and_resolve _ := None;
  aeron_is_wildcard_addr a := forallb (Z.eqb 0) (sin_addr a);
  aeron_find_interface _ := None
}.

End Reference.

(** ** Parsed channels

    The two tests of [aeron_udp_channel_parse] that decide whether a
    canonical form is made unique, on the channel it stored. *)

Module ParsedChannel.

Import UdpChannel.

(** [has_no_distinguishing_characteristic]: none of endpoint, control
    and tags is given. *)
Definition has_no_distinguishing_characteristic (u : aeron_uri_t) : bool :=
  negb (bool_decide (is_Some (endpoint (params_udp u))))
  && negb (bool_decide (is_Some (control (params_udp u))))
  && negb (bool_decide (is_Some (channel_tag (params_udp u)))).

(** The [make_unique] argument that the call of
    [aeron_uri_udp_canonicalise] on the path of [ch] was given. *)
Definition made_unique (ch : aeron_udp_channel_t) : bool :=
  negb (is_multicast ch) && has_no_distinguishing_characteristic (uri ch).

End ParsedChannel.

(** ** Reading back what was formatted

    Readers for the text that [aeron_format_to_hex] and
    [aeron_uri_udp_canonicalise] produce; they are what the round trips
    below are stated with. *)

Module Decode.

Fixpoint index_of (c : ascii) (l : list ascii) (i : Z) : option Z :=
  match l with
  | [] => None
  | x :: rest => if Ascii.eqb x c then Some i else index_of c rest (i + 1)
  end.

(** The value of a lower-case hex digit: its place in [table]. *)
Definition hex_digit_value (c : ascii) : option Z :=
  index_of c Strutil.table 0.

(** The bytes that a string of hex pairs stands for. *)
Fixpoint parse_hex (s : string) : option (list Z) :=
  match s with
  | EmptyString => Some []
  | String h s' =>
      match s' with
      | EmptyString => None
      | String l rest =>
          match hex_digit_value h, hex_digit_value l, parse_hex rest with
          | Some a, Some b, Some bytes => Some (16 * a + b :: bytes)
          | _, _, _ => None
          end
      end
  end.

(** The bytes of the hex pairs that [s] starts with, and the rest of
    [s]. *)
Fixpoint read_hex (s : string) : list Z * string :=
  match s with
  | EmptyString => ([], s)
  | String h s' =>
      match s' with
      | EmptyString => ([], s)
      | String l rest =>
          match hex_digit_value h, hex_digit_value l with
          | Some a, Some b =>
              let '(bytes, rest) := read_hex rest in (16 * a + b :: bytes, rest)
          | _, _ => ([], s)
          end
      end
  end.

Definition digit_value (c : ascii) : option Z :=
  let n := Z.of_nat (nat_of_ascii c) in
  if (48 <=? n) && (n <=? 57) then Some (n - 48) else None.

(** The number that the decimal digits at the start of [s] stand for,
    continuing [acc], and the rest of [s]. *)
Fixpoint read_digits (s : string) (acc : Z) : Z * string :=
  match s with
  | EmptyString => (acc, s)
  | String c rest =>
      match digit_value c with
      | Some d => read_digits rest (acc * 10 + d)
      | None => (acc, s)
      end
  end.

(** Where reading digits stops at once, as at the end of the text and
    at a dash. *)
Definition no_digit_ahead (rest : string) : Prop :=
  forall a, read_digits rest a = (a, rest).

(** [s] without its first character, which has to be a dash. *)
Definition after_dash (s : string) : option string :=
  match s with
  | String "-" rest => Some rest
  | _ => None
  end.

(** A canonical form read back: the local address bytes and port, the
    remote address bytes and port, and what follows them. *)
Definition read_canonical (s : string)
    : option (list Z * Z * list Z * Z * string) :=
  match s with
  | String "U" (String "D" (String "P" (String "-" s))) =>
      let '(local_addr, s) := read_hex s in
      match after_dash s with
      | None => None
      | Some s =>
          let '(local_port, s) := read_digits s 0 in
          match after_dash s with
          | None => None
          | Some s =>
              let '(remote_addr, s) := read_hex s in
              match after_dash s with
              | None => None
              | Some s =>
                  let '(remote_port, s) := read_digits s 0 in
                  Some (local_addr, local_port, remote_addr, remote_port, s)
              end
          end
      end
  | _ => None
  end.

End Decode.

(** * Properties *)

(** ** [aeron_tokenise] *)

Section Tokenise.

Import Strutil.

Variable delimiter : Z.

Lemma strlen_terminated (s rest : list Z) :
  Forall (fun c => c <> 0) s -> strlen (s ++ 0 :: rest) = length s.
Proof.
  induction 1 as [|c s Hc _ IH]; simpl; [reflexivity|].
  destruct (Z.eqb_spec c 0); [contradiction|]. now rewrite IH.
Qed.

Lemma char_at_middle (pre : list Z) c suf :
  char_at (pre ++ c :: suf) (length pre) = c.
Proof. unfold char_at. now rewrite list_lookup_middle. Qed.

Lemma char_at_after (pre : list Z) c suf :
  char_at (pre ++ c :: suf) (length pre + 1) = char_at suf 0.
Proof.
  unfold char_at. rewrite lookup_app_r by lia.
  replace (length pre + 1 - length pre)%nat with 1%nat by lia. reflexivity.
Qed.

Lemma insert_middle (pre : list Z) c x suf :
  <[length pre := x]> (pre ++ c :: suf) = pre ++ x :: suf.
Proof.
  rewrite insert_app_r_alt by lia.
  now replace (length pre - length pre)%nat with 0%nat by lia.
Qed.

Lemma token_starts_snoc (s : list Z) c off b :
  token_starts delimiter off b (s ++ [c])
  = token_starts delimiter off b s
      ++ (if negb (c =? delimiter) && ends_with_delimiter delimiter b s
          then [(off + length s)%nat] else []).
Proof.
  revert off b. induction s as [|d s IH]; intros off b.
  - simpl. unfold ends_with_delimiter. simpl.
    destruct (c =? delimiter); simpl; [reflexivity|].
    rewrite Nat.add_0_r. destruct b; reflexivity.
  - assert (Hend : ends_with_delimiter delimiter b (d :: s)
                   = ends_with_delimiter delimiter (d =? delimiter) s).
    { unfold ends_with_delimiter. rewrite last_cons.
      destruct (last s); reflexivity. }
    simpl. rewrite Hend.
    replace (off + S (length s))%nat with (S off + length s)%nat by lia.
    destruct (Z.eqb_spec d delimiter) as [Hd|Hd].
    + now rewrite IH.
    + rewrite IH, app_assoc. reflexivity.
Qed.

Lemma discovered_snoc (pre : list Z) c next :
  discovered delimiter (pre ++ [c]) next
  = (if (length pre =? 0)%nat && negb (c =? delimiter) then [0%nat]
     else if (c =? delimiter) && next then [(length pre + 1)%nat]
     else [])
      ++ discovered delimiter pre (negb (c =? delimiter)).
Proof.
  unfold discovered. rewrite token_starts_snoc.
  assert (Hlast : ends_with_delimiter delimiter false (pre ++ [c]) = (c =? delimiter)).
  { unfold ends_with_delimiter. now rewrite last_snoc. }
  rewrite Hlast, length_app. simpl.
  destruct pre as [|d pre]; simpl.
  - unfold ends_with_delimiter; simpl.
    destruct (c =? delimiter), next; reflexivity.
  - replace (ends_with_delimiter delimiter true (d :: pre))
      with (ends_with_delimiter delimiter false (d :: pre))
      by (unfold ends_with_delimiter; rewrite last_cons;
          destruct (last pre); reflexivity).
    destruct (c =? delimiter), next; simpl;
      rewrite ?app_nil_r, ?rev_app_distr; simpl;
      destruct (ends_with_delimiter delimiter false (d :: pre)); simpl;
      rewrite ?app_nil_r, ?rev_app_distr; reflexivity.
Qed.

Lemma delimiters_replaced_snoc (pre : list Z) c :
  delimiters_replaced delimiter (pre ++ [c])
  = delimiters_replaced delimiter pre ++ [if c =? delimiter then 0 else c].
Proof. unfold delimiters_replaced. now rewrite map_app. Qed.

Lemma store_token (tokens : list nat) (n : nat) x found :
  (n < length tokens)%nat ->
  take (S n) (<[n := x]> tokens) ++ found
    ++ drop (S n + length found) (<[n := x]> tokens)
  = take n tokens ++ (x :: found) ++ drop (n + length (x :: found)) tokens.
Proof.
  intros Hn.
  rewrite (take_S_r _ _ x) by now apply list_lookup_insert_eq.
  rewrite take_insert_ge by lia.
  rewrite drop_insert_lt by lia.
  rewrite <- app_assoc. simpl.
  now replace (n + S (length found))%nat with (S (n + length found)) by lia.
Qed.

Lemma tokenise_loop_fits (max_tokens : Z) (pre : list Z) :
  forall (suf : list Z) (tokens : list nat) (num : Z),
    Forall (fun c => c <> 0) pre ->
    0 <= num ->
    num + Z.of_nat (length (discovered delimiter pre (negb (char_at suf 0 =? 0))))
      <= max_tokens ->
    max_tokens <= Z.of_nat (length tokens) ->
    tokenise_loop delimiter max_tokens (length pre) (pre ++ suf) tokens num
    = (delimiters_replaced delimiter pre ++ suf,
       take (Z.to_nat num) tokens
         ++ discovered delimiter pre (negb (char_at suf 0 =? 0))
         ++ drop (Z.to_nat num
                  + length (discovered delimiter pre (negb (char_at suf 0 =? 0))))
              tokens,
       num + Z.of_nat (length (discovered delimiter pre (negb (char_at suf 0 =? 0))))).
Proof.
  induction pre as [|c pre IH] using rev_ind; intros suf tokens num Hnz Hnum Hfit Hcap.
  - unfold discovered, ends_with_delimiter. simpl. rewrite andb_false_r. simpl.
    now rewrite Nat.add_0_r, take_drop, Z.add_0_r.
  - apply Forall_app in Hnz as [Hpre Hc]. rewrite Forall_singleton in Hc.
    rewrite discovered_snoc in *.
    rewrite delimiters_replaced_snoc, <- !app_assoc.
    rewrite length_app, Nat.add_comm. simpl.
    rewrite char_at_middle, (Z.eqb_sym delimiter c).
    destruct (Z.eqb_spec c delimiter) as [Hd|Hd].
    + rewrite insert_middle, char_at_middle, char_at_after. simpl.
      rewrite andb_false_r in *. simpl in *.
      specialize (IH (0 :: suf)). change (char_at (0 :: suf) 0) with 0 in IH.
      simpl in IH.
      destruct (negb (char_at suf 0 =? 0)); simpl in *.
      * destruct (Z.leb_spec max_tokens num); [lia|].
        rewrite IH by (rewrite ?length_insert; auto; lia).
        replace (Z.to_nat (num + 1)) with (S (Z.to_nat num)) by lia.
        rewrite store_token by lia.
        simpl. f_equal. lia.
      * now rewrite IH by (rewrite ?length_insert; auto; lia).
    + rewrite char_at_middle. destruct (Z.eqb_spec c 0); [contradiction|].
      simpl. rewrite andb_true_r.
      specialize (IH (c :: suf)). change (char_at (c :: suf) 0) with c in IH.
      destruct (Z.eqb_spec c 0); [contradiction|]. simpl in IH.
      destruct (Nat.eqb_spec (length pre) 0) as [H0|H0]; simpl in *.
      * destruct (Z.leb_spec max_tokens num); [lia|].
        rewrite IH by (rewrite ?length_insert; auto; lia).
        replace (Z.to_nat (num + 1)) with (S (Z.to_nat num)) by lia.
        rewrite store_token by lia.
        simpl. rewrite H0. f_equal. lia.
      * now rewrite IH by (rewrite ?length_insert; auto; lia).
Qed.

Lemma tokenise_loop_overflows (max_tokens : Z) (pre : list Z) :
  forall (suf : list Z) (tokens : list nat) (num : Z),
    Forall (fun c => c <> 0) pre ->
    num <= max_tokens ->
    max_tokens
      < num + Z.of_nat (length (discovered delimiter pre (negb (char_at suf 0 =? 0)))) ->
    snd (tokenise_loop delimiter max_tokens (length pre) (pre ++ suf) tokens num)
    = - ERANGE.
Proof.
  induction pre as [|c pre IH] using rev_ind; intros suf tokens num Hnz Hnum Hover.
  - unfold discovered, ends_with_delimiter in Hover. simpl in Hover.
    rewrite andb_false_r in Hover. simpl in Hover. lia.
  - apply Forall_app in Hnz as [Hpre Hc]. rewrite Forall_singleton in Hc.
    rewrite discovered_snoc in Hover.
    rewrite <- !app_assoc, length_app, Nat.add_comm. simpl.
    rewrite char_at_middle, (Z.eqb_sym delimiter c).
    destruct (Z.eqb_spec c delimiter) as [Hd|Hd].
    + rewrite insert_middle, char_at_middle, char_at_after. simpl.
      rewrite andb_false_r in *. simpl in *.
      specialize (IH (0 :: suf)). change (char_at (0 :: suf) 0) with 0 in IH.
      simpl in IH.
      destruct (negb (char_at suf 0 =? 0)); simpl in *.
      * destruct (Z.leb_spec max_tokens num); [reflexivity|].
        apply IH; auto; lia.
      * apply IH; auto.
    + rewrite char_at_middle. destruct (Z.eqb_spec c 0); [contradiction|].
      simpl. rewrite andb_true_r in *.
      specialize (IH (c :: suf)). change (char_at (c :: suf) 0) with c in IH.
      destruct (Z.eqb_spec c 0); [contradiction|]. simpl in IH.
      destruct (Nat.eqb_spec (length pre) 0) as [H0|H0]; simpl in *.
      * destruct (Z.leb_spec max_tokens num); [reflexivity|].
        apply IH; auto; lia.
      * apply IH; auto.
Qed.

Lemma token_starts_split (s : list Z) :
  forall off b,
    match split_at delimiter s with
    | f :: fs =>
        token_starts delimiter off b s
        = (if b && nonempty (off, f) then [off] else [])
            ++ map fst (List.filter nonempty (with_offsets (off + length f + 1) fs))
    | [] => False
    end.
Proof.
  induction s as [|c s IH]; intros off b; simpl.
  - now rewrite andb_false_r.
  - destruct (Z.eqb_spec c delimiter) as [Hd|Hd].
    + specialize (IH (S off) true).
      destruct (split_at delimiter s) as [|f fs]; [contradiction|].
      rewrite andb_false_r. simpl.
      replace (off + 0 + 1)%nat with (S off) by lia.
      rewrite IH. unfold nonempty at 3. simpl.
      destruct f; reflexivity.
    + specialize (IH (S off) false).
      destruct (split_at delimiter s) as [|f fs]; [contradiction|].
      rewrite IH, andb_true_r. simpl.
      now replace (off + S (length f) + 1)%nat with (S (off + length f + 1)) by lia.
Qed.

Lemma discovered_tokens_of (s : list Z) :
  discovered delimiter s false = rev (map fst (tokens_of delimiter s)).
Proof.
  unfold discovered, tokens_of. simpl. rewrite app_nil_r. f_equal.
  pose proof (token_starts_split s 0 true) as Hs.
  destruct (split_at delimiter s) as [|f fs]; [contradiction|].
  rewrite Hs. simpl. unfold nonempty at 1 3. simpl.
  destruct f; reflexivity.
Qed.

Lemma split_at_fields (s : list Z) :
  exists f fs, split_at delimiter s = f :: fs.
Proof.
  destruct s as [|c s]; simpl; [eauto|].
  destruct (c =? delimiter); [eauto|].
  destruct (split_at delimiter s); eauto.
Qed.

Lemma delimiters_replaced_fields (s : list Z) :
  delimiters_replaced delimiter s ++ [0]
  = flat_map (fun f => f ++ [0]) (split_at delimiter s).
Proof.
  induction s as [|c s IH]; simpl; [reflexivity|].
  destruct (c =? delimiter); simpl; [now rewrite IH|].
  destruct (split_at_fields s) as (f & fs & Hs). rewrite Hs in *.
  simpl in *. now rewrite IH.
Qed.

Lemma split_at_nul_free (s : list Z) :
  Forall (fun c => c <> 0) s ->
  Forall (Forall (fun c => c <> 0)) (split_at delimiter s).
Proof.
  induction 1 as [|c s Hc _ IH]; simpl.
  - repeat constructor.
  - destruct (c =? delimiter); [now repeat constructor|].
    destruct (split_at delimiter s) as [|f fs]; [repeat constructor; assumption|].
    inversion IH; subst. now repeat constructor.
Qed.

Lemma c_string_at_field (fields : list (list Z)) :
  forall off o t rest,
    Forall (Forall (fun c => c <> 0)) fields ->
    In (o, t) (with_offsets off fields) ->
    (off <= o)%nat
    /\ c_string_at (flat_map (fun f => f ++ [0]) fields ++ rest) (o - off) = t.
Proof.
  induction fields as [|f fields IH]; intros off o t rest Hnz Hin; [destruct Hin|].
  inversion Hnz as [|? ? Hf Hfields]; subst. simpl in Hin.
  destruct Hin as [Heq|Hin].
  - inversion Heq; subst. split; [lia|].
    unfold c_string_at. rewrite Nat.sub_diag. simpl.
    rewrite <- !app_assoc. simpl. rewrite !drop_0.
    rewrite strlen_terminated by assumption.
    now rewrite take_app_length.
  - destruct (IH _ _ _ rest Hfields Hin) as [Hle Hstr]. split; [lia|].
    unfold c_string_at in *. simpl.
    rewrite <- !app_assoc. simpl.
    replace (o - off)%nat with (length f + S (o - (off + length f + 1)))%nat by lia.
    rewrite <- drop_drop, drop_app_length. simpl.
    exact Hstr.
Qed.

End Tokenise.

(** C10. [aeron_tokenise] returns [-EINVAL] for a NULL input, [0] for
    an empty string and [-ERANGE] when the string has more tokens than
    [max_tokens]; otherwise every delimiter byte of the input is NUL
    afterwards, the result is the number of non-empty
    delimiter-separated tokens, and the [tokens] array starts with the
    pointers to them, last token first, each pointing at its
    NUL-terminated text.  The input is the C string [s] (no NUL inside,
    at most INT32_MAX bytes) followed by its terminator, and [tokens]
    has room for [max_tokens] pointers. *)
Theorem aeron_tokenise_spec (delimiter max_tokens : Z) (s rest : list Z)
    (tokens : list nat) :
  Forall (fun c => c <> 0) s ->
  Z.of_nat (length s) <= Int.INT32_MAX ->
  0 <= max_tokens <= Z.of_nat (length tokens) ->
  let toks := Strutil.tokens_of delimiter s in
  let input := Some (s ++ 0 :: rest) in
  Strutil.aeron_tokenise None delimiter max_tokens tokens
  = (- Strutil.EINVAL, None, tokens)
  /\ (s = [] ->
      Strutil.aeron_tokenise input delimiter max_tokens tokens = (0, input, tokens))
  /\ (max_tokens < Z.of_nat (length toks) ->
      fst (fst (Strutil.aeron_tokenise input delimiter max_tokens tokens))
      = - Strutil.ERANGE)
  /\ (Z.of_nat (length toks) <= max_tokens ->
      Strutil.aeron_tokenise input delimiter max_tokens tokens
      = (Z.of_nat (length toks),
         Some (Strutil.delimiters_replaced delimiter s ++ 0 :: rest),
         rev (map fst toks) ++ drop (length toks) tokens)
      /\ forall o t,
          In (o, t) toks ->
          Strutil.c_string_at
            (Strutil.delimiters_replaced delimiter s ++ 0 :: rest) o = t).
Proof.
  intros Hnz Hlen [Hmax Hcap] toks input.
  split; [reflexivity|]. split; [intros ->; reflexivity|].
  assert (Hfound : length (Strutil.discovered delimiter s false) = length toks).
  { rewrite discovered_tokens_of. now rewrite length_rev, length_map. }
  unfold input, Strutil.aeron_tokenise.
  rewrite strlen_terminated by assumption.
  destruct (Z.ltb_spec Int.INT32_MAX (Z.of_nat (length s))); [lia|].
  split.
  - intros Hover. destruct (Nat.eqb_spec (length s) 0) as [H0|H0].
    { apply length_zero_iff_nil in H0. subst. simpl in *. lia. }
    pose proof (tokenise_loop_overflows delimiter max_tokens s (0 :: rest) tokens 0
                  Hnz Hmax) as Hloop.
    change (Strutil.char_at (0 :: rest) 0) with 0 in Hloop. simpl in Hloop.
    rewrite Hfound in Hloop. specialize (Hloop ltac:(lia)).
    destruct (Strutil.tokenise_loop _ _ _ _ _ _) as [[buf' tokens'] n].
    exact Hloop.
  - intros Hfit. split.
    + destruct (Nat.eqb_spec (length s) 0) as [H0|H0].
      { apply length_zero_iff_nil in H0. subst. reflexivity. }
      pose proof (tokenise_loop_fits delimiter max_tokens s (0 :: rest) tokens 0
                    Hnz (Z.le_refl 0)) as Hloop.
      change (Strutil.char_at (0 :: rest) 0) with 0 in Hloop. simpl in Hloop.
      rewrite Hfound in Hloop. specialize (Hloop Hfit Hcap).
      rewrite Hloop. rewrite discovered_tokens_of. reflexivity.
    + intros o t Hin. unfold toks, Strutil.tokens_of in Hin.
      apply filter_In in Hin as [Hin _].
      destruct (c_string_at_field (Strutil.split_at delimiter s) 0 o t rest
                  (split_at_nul_free delimiter s Hnz) Hin) as [_ Hstr].
      rewrite <- delimiters_replaced_fields, Nat.sub_0_r, <- app_assoc in Hstr.
      exact Hstr.
Qed.

Example aeron_tokenise_too_many_tokens :
  Strutil.aeron_tokenise (Some [97; 44; 98; 99; 44; 44; 100; 0]) 44 2
    [9; 9; 9; 9]%nat
  = (- Strutil.ERANGE, Some [97; 0; 98; 99; 0; 0; 100; 0], [6; 2; 9; 9]%nat).
Proof. reflexivity. Qed.

Lemma aeron_tokenise_spec_witness :
  Strutil.aeron_tokenise (Some [97; 44; 98; 99; 44; 44; 100; 0]) 44 4
    [9; 9; 9; 9]%nat
  = (3, Some [97; 0; 98; 99; 0; 0; 100; 0], [6; 2; 0; 9]%nat).
Proof.
  pose proof (aeron_tokenise_spec 44 4 [97; 44; 98; 99; 44; 44; 100] []
                [9; 9; 9; 9]%nat) as H.
  simpl in H.
  destruct H as (_ & _ & _ & H).
  - repeat constructor; discriminate.
  - unfold Int.INT32_MAX. lia.
  - lia.
  - apply H. lia.
Defined.

(** ** Multicast control addresses *)

Section Multicast.

Import UdpChannel.

Lemma land_1_odd (b : Z) : (Z.land b 1 =? 0) = negb (Z.odd b).
Proof.
  change 1 with (Z.ones 1). rewrite Z.land_ones by lia.
  change (2 ^ 1) with 2. rewrite <- Z.bit0_mod, Z.bit0_odd.
  destruct (Z.odd b); reflexivity.
Qed.

Lemma incremented_octet_even (octet : Z) :
  Z.odd octet = true -> Z.odd ((octet + 1) mod 256) = false.
Proof.
  rewrite !Zodd_mod. intros Hodd. apply Z.eqb_eq in Hodd. apply Z.eqb_neq.
  rewrite Z.mod_mod_divide by now exists 128.
  rewrite Z.add_mod, Hodd by lia. discriminate.
Qed.

Lemma aeron_ipv4_multicast_control_address_spec (data control : sockaddr_storage) :
  length (sin_addr data) = sizeof_in_addr ->
  aeron_ipv4_multicast_control_address data control
  = if Z.odd (Strutil.char_at (sin_addr data) 3) then
      (0, {| ss_family := ss_family data;
             sin_port := sin_port data;
             sin_addr :=
               <[3%nat := (Strutil.char_at (sin_addr data) 3 + 1) mod 256]>
                 (sin_addr data) |})
    else (-1, control).
Proof.
  intros Hlen. unfold aeron_ipv4_multicast_control_address.
  rewrite take_ge by (rewrite Hlen; reflexivity).
  change (sizeof_in_addr - 1)%nat with 3%nat.
  rewrite land_1_odd. now destruct (Z.odd _).
Qed.

Lemma aeron_ipv6_multicast_control_address_spec (data control : sockaddr_storage) :
  length (sin_addr data) = sizeof_in6_addr ->
  aeron_ipv6_multicast_control_address data control
  = if Z.odd (Strutil.char_at (sin_addr data) 15) then
      (0, {| ss_family := ss_family data;
             sin_port := sin_port data;
             sin_addr :=
               <[15%nat := (Strutil.char_at (sin_addr data) 15 + 1) mod 256]>
                 (sin_addr data) |})
    else (-1, control).
Proof.
  intros Hlen. unfold aeron_ipv6_multicast_control_address.
  rewrite take_ge by (rewrite Hlen; reflexivity).
  change (sizeof_in6_addr - 1)%nat with 15%nat.
  rewrite land_1_odd. now destruct (Z.odd _).
Qed.

End Multicast.

(** C6, as amended.  For an IPv4 or IPv6 data address whose last octet
    is odd, the derived control address has the family and the port of
    the data address and its address bytes with the last octet
    incremented by one modulo 256, which makes it even; when the last
    octet is even the derivation fails with [-1] and the control
    address is left as it was. *)
Theorem aeron_multicast_control_address_increments
    (data control : UdpChannel.sockaddr_storage) :
  UdpChannel.well_formed data ->
  let last := (length (UdpChannel.sin_addr data) - 1)%nat in
  let octet := Strutil.char_at (UdpChannel.sin_addr data) last in
  if Z.odd octet then
    UdpChannel.aeron_multicast_control_address data control
    = (0, {| UdpChannel.ss_family := UdpChannel.ss_family data;
             UdpChannel.sin_port := UdpChannel.sin_port data;
             UdpChannel.sin_addr :=
               <[last := (octet + 1) mod 256]> (UdpChannel.sin_addr data) |})
    /\ Z.odd ((octet + 1) mod 256) = false
  else
    UdpChannel.aeron_multicast_control_address data control = (-1, control).
Proof.
  intros [[[Hfam Hlen]|[Hfam Hlen]] _] last octet; subst last octet;
    unfold UdpChannel.aeron_multicast_control_address;
    rewrite Hfam, Hlen; simpl.
  - rewrite aeron_ipv4_multicast_control_address_spec by assumption.
    destruct (Z.odd _) eqn:Hodd; [split; [now rewrite ?Hfam|]|reflexivity].
    now apply incremented_octet_even.
  - rewrite aeron_ipv6_multicast_control_address_spec by assumption.
    destruct (Z.odd _) eqn:Hodd; [split; [now rewrite ?Hfam|]|reflexivity].
    now apply incremented_octet_even.
Qed.

Lemma aeron_multicast_control_address_increments_witness :
  UdpChannel.aeron_multicast_control_address
    {| UdpChannel.ss_family := UdpChannel.AF_INET;
       UdpChannel.sin_port := 2206;
       UdpChannel.sin_addr := [224; 0; 1; 1] |}
    UdpChannel.zeroed_sockaddr
  = (0, {| UdpChannel.ss_family := UdpChannel.AF_INET;
           UdpChannel.sin_port := 2206;
           UdpChannel.sin_addr := [224; 0; 1; 2] |}).
Proof.
  refine (proj1 (aeron_multicast_control_address_increments
                   {| UdpChannel.ss_family := UdpChannel.AF_INET;
                      UdpChannel.sin_port := 2206;
                      UdpChannel.sin_addr := [224; 0; 1; 1] |}
                   UdpChannel.zeroed_sockaddr _)).
  split; [left; split; reflexivity|].
  repeat constructor; simpl; lia.
Defined.

(** C6, as stated, fails: for the odd data address 224.0.1.1 the
    derived control address is 224.0.1.2, whereas toggling the low bit
    of the last octet gives 224.0.1.0. *)
Lemma control_address_is_not_low_bit_toggled :
  Z.odd (Strutil.char_at [224; 0; 1; 1] 3) = true
  /\ UdpChannel.aeron_multicast_control_address
       {| UdpChannel.ss_family := UdpChannel.AF_INET;
          UdpChannel.sin_port := 2206;
          UdpChannel.sin_addr := [224; 0; 1; 1] |}
       UdpChannel.zeroed_sockaddr
     = (0, {| UdpChannel.ss_family := UdpChannel.AF_INET;
              UdpChannel.sin_port := 2206;
              UdpChannel.sin_addr := [224; 0; 1; 2] |})
  /\ UdpChannel.last_octet_low_bit_toggled [224; 0; 1; 1] = [224; 0; 1; 0]
  /\ [224; 0; 1; 2] <> UdpChannel.last_octet_low_bit_toggled [224; 0; 1; 1].
Proof. repeat split; discriminate. Qed.

(** ** The canonical form *)

Section Canonical.

Import UdpChannel.

Lemma substring_all (text : string) (n : nat) :
  (String.length text <= n)%nat -> substring 0 n text = text.
Proof.
  revert n. induction text as [|c text IH]; intros [|n] Hn; simpl in *;
    try reflexivity; try lia.
  now rewrite IH by lia.
Qed.

Lemma digits_length (fuel : nat) :
  forall v acc,
    (String.length (digits fuel v acc) <= fuel + String.length acc)%nat.
Proof.
  induction fuel as [|fuel IH]; intros v acc; simpl; [lia|].
  destruct (v / 10 =? 0); simpl; [lia|].
  etransitivity; [apply IH|]. simpl. lia.
Qed.

Lemma decimal_length (v : Z) : (String.length (decimal v) <= 11)%nat.
Proof.
  unfold decimal. destruct (v <? 0); simpl.
  - pose proof (digits_length 10 (- v) EmptyString). simpl in *. lia.
  - pose proof (digits_length 10 v EmptyString). simpl in *. lia.
Qed.

Lemma table_at_high (d : Z) :
  0 <= d < 256 -> Strutil.table_at (Z.land (Z.shiftr d 4) 15) = Strutil.table_at (d / 16).
Proof.
  intros Hd. rewrite Z.shiftr_div_pow2 by lia.
  change 15 with (Z.ones 4). rewrite Z.land_ones by lia.
  change (2 ^ 4) with 16. rewrite Z.mod_small; [reflexivity|].
  split; [apply Z.div_pos; lia|apply Z.div_lt_upper_bound; lia].
Qed.

Lemma table_at_low (d : Z) :
  Strutil.table_at (Z.land d 15) = Strutil.table_at (d mod 16).
Proof. change 15 with (Z.ones 4). now rewrite Z.land_ones by lia. Qed.

Lemma format_to_hex_loop_hex (str_length : nat) (data : list Z) :
  forall j,
    (j + 2 * length data <= str_length + 1)%nat ->
    Forall (fun b => 0 <= b < 256) data ->
    Strutil.format_to_hex_loop str_length j data = hex_of_bytes data.
Proof.
  induction data as [|d data IH]; intros j Hj Hbytes; simpl; [reflexivity|].
  inversion Hbytes; subst. simpl in Hj.
  destruct (Nat.ltb_spec j str_length); [|lia].
  rewrite table_at_high, table_at_low by assumption.
  now rewrite IH by (auto; lia).
Qed.

Lemma canonical_address_hex (a : sockaddr_storage) :
  well_formed a ->
  Strutil.aeron_format_to_hex (AERON_FORMAT_HEX_LENGTH sizeof_sockaddr_in6)
    (firstn (if AF_INET6 =? ss_family a then sizeof_in6_addr else sizeof_in_addr)
       (sin_addr a))
  = hex_of_bytes (sin_addr a).
Proof.
  intros [[[Hfam Hlen]|[Hfam Hlen]] Hbytes]; rewrite Hfam; simpl;
    rewrite take_ge by (rewrite Hlen; reflexivity);
    apply format_to_hex_loop_hex; auto; rewrite Hlen;
    vm_compute; lia.
Qed.

Lemma unique_suffix_fits (v : Z) :
  fst (snprintf EmptyString (4 * 4 - 1) (String "-" (decimal v)))
  = String "-" (decimal v).
Proof.
  unfold snprintf. change (4 * 4 - 1)%nat with 15%nat. cbn [fst].
  apply substring_all. cbn [String.length].
  pose proof (decimal_length v). lia.
Qed.

End Canonical.

(** C8.  For resolved IPv4 or IPv6 local and remote addresses,
    [aeron_uri_udp_canonicalise] formats exactly ["UDP-"], the
    lower-case hex of the raw local address bytes, ["-"], the decimal
    local port, ["-"], the hex of the remote address bytes, ["-"], the
    decimal remote port, and the suffix ["-<n>"] if and only if
    [make_unique] is set, [n] being the running unique value, which is
    then incremented.  It returns the length of that string and, as
    [snprintf] does, stores it cut to the [length] of the buffer: the
    whole of it when it fits. *)
Theorem aeron_uri_udp_canonicalise_spec (unique : Z) (old : string)
    (length : nat) (local_data remote_data : UdpChannel.sockaddr_storage)
    (make_unique : bool) :
  UdpChannel.well_formed local_data ->
  UdpChannel.well_formed remote_data ->
  let text :=
    UdpChannel.canonical_form_of local_data remote_data
      (if make_unique then Some unique else None) in
  let '(ret, canonical_form, unique') :=
    UdpChannel.aeron_uri_udp_canonicalise unique old length
      local_data remote_data make_unique in
  ret = Z.of_nat (String.length text)
  /\ canonical_form = fst (UdpChannel.snprintf old length text)
  /\ ((String.length text < length)%nat -> canonical_form = text)
  /\ unique' = (if make_unique then Int.wrap32 (unique + 1) else unique).
Proof.
  intros Hlocal Hremote text.
  pose proof (canonical_address_hex local_data Hlocal) as Hl.
  pose proof (canonical_address_hex remote_data Hremote) as Hr.
  unfold UdpChannel.aeron_uri_udp_canonicalise.
  destruct (UdpChannel.AF_INET6 =? UdpChannel.ss_family local_data);
    destruct (UdpChannel.AF_INET6 =? UdpChannel.ss_family remote_data);
    cbv beta iota zeta; rewrite Hl, Hr; clear Hl Hr;
    (destruct make_unique; cbv beta iota zeta;
     [rewrite unique_suffix_fits|];
     unfold UdpChannel.snprintf at 1; cbv beta iota zeta;
     (split; [reflexivity|]; split; [reflexivity|]; split; [|reflexivity];
      intros Hfit; destruct length as [|n]; [lia|];
      apply substring_all, Nat.lt_succ_r; exact Hfit)).
Qed.

Lemma aeron_uri_udp_canonicalise_spec_witness :
  UdpChannel.aeron_uri_udp_canonicalise 0 EmptyString 384
    {| UdpChannel.ss_family := UdpChannel.AF_INET;
       UdpChannel.sin_port := 0;
       UdpChannel.sin_addr := [0; 0; 0; 0] |}
    {| UdpChannel.ss_family := UdpChannel.AF_INET;
       UdpChannel.sin_port := 48028;
       UdpChannel.sin_addr := [127; 0; 0; 1] |}
    false
  = (29, "UDP-00000000-0-7f000001-40123"%string, 0).
Proof.
  pose proof (aeron_uri_udp_canonicalise_spec 0 EmptyString 384
    {| UdpChannel.ss_family := UdpChannel.AF_INET;
       UdpChannel.sin_port := 0;
       UdpChannel.sin_addr := [0; 0; 0; 0] |}
    {| UdpChannel.ss_family := UdpChannel.AF_INET;
       UdpChannel.sin_port := 48028;
       UdpChannel.sin_addr := [127; 0; 0; 1] |}
    false) as H.
  cbv zeta in H.
  destruct (UdpChannel.aeron_uri_udp_canonicalise _ _ _ _ _ _) as [[ret form] u].
  destruct H as (-> & -> & _ & ->).
  - split; [left; split; reflexivity|]. repeat constructor; simpl; lia.
  - split; [left; split; reflexivity|]. repeat constructor; simpl; lia.
  - reflexivity.
Defined.

Example decimal_samples :
  UdpChannel.decimal 0 = "0"%string
  /\ UdpChannel.decimal 40123 = "40123"%string
  /\ UdpChannel.decimal 65535 = "65535"%string
  /\ UdpChannel.decimal (-2147483648) = "-2147483648"%string
  /\ UdpChannel.ntohs 48028 = 40123.
Proof. repeat split. Qed.

Example aeron_uri_udp_canonicalise_unique :
  UdpChannel.aeron_uri_udp_canonicalise 7 EmptyString 384
    {| UdpChannel.ss_family := UdpChannel.AF_INET6;
       UdpChannel.sin_port := 0;
       UdpChannel.sin_addr := repeat 0 16 |}
    {| UdpChannel.ss_family := UdpChannel.AF_INET;
       UdpChannel.sin_port := 48028;
       UdpChannel.sin_addr := [127; 0; 0; 1] |}
    true
  = (55, "UDP-00000000000000000000000000000000-0-7f000001-40123-7"%string, 8).
Proof. reflexivity. Qed.

Example aeron_uri_udp_canonicalise_short_buffer :
  UdpChannel.aeron_uri_udp_canonicalise 0 EmptyString 8
    {| UdpChannel.ss_family := UdpChannel.AF_INET;
       UdpChannel.sin_port := 0;
       UdpChannel.sin_addr := [0; 0; 0; 0] |}
    {| UdpChannel.ss_family := UdpChannel.AF_INET;
       UdpChannel.sin_port := 48028;
       UdpChannel.sin_addr := [127; 0; 0; 1] |}
    false
  = (29, "UDP-000"%string, 0).
Proof. reflexivity. Qed.

(** ** [aeron_udp_channel_parse] *)

(** C7.  When the channel can be allocated and the URI parses as a UDP
    URI that specifies none of endpoint, control and tags and whose
    control-mode is not manual, or whose control-mode is dynamic
    without a control address, [aeron_udp_channel_parse] returns [-1]
    and sets [*channel] to NULL; whatever the allocator does, it
    returns [-1] for such a URI. *)
Theorem aeron_udp_channel_parse_rejects `{net : UdpChannel.NetUtil}
    (unique : Z) (uri_length : nat) (uri : string)
    (channel : option UdpChannel.aeron_udp_channel_t)
    (parsed : UdpChannel.aeron_uri_t) :
  UdpChannel.aeron_uri_parse uri_length uri = Some parsed ->
  UdpChannel.type parsed = UdpChannel.AERON_URI_UDP ->
  (UdpChannel.endpoint (UdpChannel.params_udp parsed) = None
   /\ UdpChannel.control (UdpChannel.params_udp parsed) = None
   /\ UdpChannel.channel_tag (UdpChannel.params_udp parsed) = None
   /\ UdpChannel.control_mode (UdpChannel.params_udp parsed)
      <> Some UdpChannel.AERON_UDP_CHANNEL_CONTROL_MODE_MANUAL_VALUE)
  \/ (UdpChannel.control_mode (UdpChannel.params_udp parsed)
      = Some UdpChannel.AERON_UDP_CHANNEL_CONTROL_MODE_DYNAMIC_VALUE
      /\ UdpChannel.control (UdpChannel.params_udp parsed) = None) ->
  UdpChannel.aeron_udp_channel_parse true unique uri_length uri channel
  = (-1, None, unique)
  /\ forall alloc,
      fst (fst (UdpChannel.aeron_udp_channel_parse alloc unique uri_length uri channel))
      = -1.
Proof.
  intros Hparse Htype Hcase.
  assert (Hbody :
    UdpChannel.parse_allocated unique uri_length uri = UdpChannel.error_cleanup).
  { unfold UdpChannel.parse_allocated. rewrite Hparse. cbn [UdpChannel.of_option UdpChannel.step_bind].
    rewrite Htype. cbn [UdpChannel.aeron_uri_type_eqb].
    destruct Hcase as [(He & Hc & Ht & Hm)|[Hm Hc]].
    - rewrite He, Hc, Ht.
      destruct (UdpChannel.control_mode (UdpChannel.params_udp parsed)) as [mode|].
      + destruct (String.eqb_spec mode UdpChannel.AERON_UDP_CHANNEL_CONTROL_MODE_MANUAL_VALUE)
          as [->|_]; [contradiction|].
        now destruct (String.eqb mode _).
      + reflexivity.
    - rewrite Hm, Hc. reflexivity. }
  unfold UdpChannel.aeron_udp_channel_parse. rewrite Hbody.
  split; [reflexivity|]. now intros [].
Qed.

Lemma aeron_udp_channel_parse_rejects_witness :
  UdpChannel.aeron_udp_channel_parse (net := Reference.sample_net)
    true 5 29 "aeron:udp?interface=localhost" None
  = (-1, None, 5)
  /\ UdpChannel.aeron_udp_channel_parse (net := Reference.sample_net)
       true 5 30 "aeron:udp?control-mode=dynamic" None
     = (-1, None, 5).
Proof.
  split.
  - refine (proj1 (aeron_udp_channel_parse_rejects (net := Reference.sample_net) 5 29
                     "aeron:udp?interface=localhost" None _ eq_refl eq_refl _)).
    left. repeat split; discriminate.
  - refine (proj1 (aeron_udp_channel_parse_rejects (net := Reference.sample_net) 5 30
                     "aeron:udp?control-mode=dynamic" None _ eq_refl eq_refl _)).
    right. split; reflexivity.
Defined.

Example aeron_udp_channel_parse_endpoint :
  (let '(ret, channel, _) :=
     UdpChannel.aeron_udp_channel_parse (net := Reference.sample_net) true 0 34
       "aeron:udp?endpoint=127.0.0.1:40123" None in
   (ret, option_map UdpChannel.canonical_form channel))
  = (0, Some "UDP-00000000-0-7f000001-40123"%string).
Proof. reflexivity. Qed.

(** ** [aeron_publication.c] *)

(** C1.  On its success path, where the allocation succeeds and a
    publication is stored into [*publication], [aeron_publication_create]
    returns [-1], not [0]. *)
Theorem aeron_publication_create_returns_minus_one
    (conductor : Z) (channel : string) (stream_id session_id : Z)
    (position_limit_addr channel_status_addr : Z)
    (log_buffer : LogBuffer.aeron_log_buffer_t)
    (original_registration_id registration_id : Z) :
  exists p,
    Publication.aeron_publication_create true conductor channel stream_id
      session_id position_limit_addr channel_status_addr log_buffer
      original_registration_id registration_id
    = (-1, Some p)
    /\ Publication.log_buffer p = log_buffer
    /\ Publication.is_closed p = false.
Proof. eexists. repeat split. Qed.

Example aeron_publication_create_sample :
  Publication.aeron_publication_create true 1
    "aeron:udp?endpoint=127.0.0.1:40123" 1001 3 65536 1
    (Reference.sample_log 4) 12 12
  = (-1, Some (Reference.sample_publication 4 65536)).
Proof. reflexivity. Qed.

Section OfferClaim.

Context `{ops : Publication.LogBufferOps}.

Lemma wrap64_small (x : Z) : 0 <= x < 2 ^ 63 -> Int.wrap64 x = x.
Proof. intros Hx. unfold Int.wrap64. rewrite Z.mod_small; lia. Qed.

Lemma term_begin_position_non_negative (p : Publication.aeron_publication_t) :
  Publication.positions_non_negative p ->
  Publication.term_count_matches p ->
  0 <= Publication.term_begin_position p.
Proof.
  intros [Hcount Hshift] Hmatch.
  unfold Publication.term_begin_position,
    LogBuffer.aeron_logbuffer_compute_term_begin_position.
  rewrite <- Hmatch.
  set (tc := LogBuffer.aeron_logbuffer_active_term_count _) in *.
  unfold Int.INT32_MAX in Hcount.
  rewrite Z.shiftl_mul_pow2 by lia.
  assert (0 < 2 ^ Publication.position_bits_to_shift p <= 2 ^ 31).
  { split; [apply Z.pow_pos_nonneg; lia|apply Z.pow_le_mono_r; lia]. }
  rewrite wrap64_small; nia.
Qed.

(** The three paths of an offer or a claim on an open publication
    with valid arguments, told apart by the two tests on what was
    read from the log. *)
Lemma term_count_check (p : Publication.aeron_publication_t) :
  Publication.term_count_matches p ->
  (LogBuffer.aeron_logbuffer_active_term_count (Publication.log_meta_data p)
   =? Int.wrap32
        (LogBuffer.aeron_logbuffer_term_id
           (Publication.term_tail_counter_at p
              (LogBuffer.aeron_logbuffer_index_by_term_count
                 (LogBuffer.aeron_logbuffer_active_term_count
                    (Publication.log_meta_data p))))
         - Publication.initial_term_id p))
  = true.
Proof. intros Hmatch. apply Z.eqb_eq. exact Hmatch. Qed.

Lemma term_count_check_fails (p : Publication.aeron_publication_t) :
  ~ Publication.term_count_matches p ->
  (LogBuffer.aeron_logbuffer_active_term_count (Publication.log_meta_data p)
   =? Int.wrap32
        (LogBuffer.aeron_logbuffer_term_id
           (Publication.term_tail_counter_at p
              (LogBuffer.aeron_logbuffer_index_by_term_count
                 (LogBuffer.aeron_logbuffer_active_term_count
                    (Publication.log_meta_data p))))
         - Publication.initial_term_id p))
  = false.
Proof. intros Hmatch. apply Z.eqb_neq. exact Hmatch. Qed.


Lemma limit_check_passes (p : Publication.aeron_publication_t) :
  Publication.term_begin_position p < Publication.position_limit p ->
  (LogBuffer.aeron_logbuffer_compute_term_begin_position
     (LogBuffer.aeron_logbuffer_term_id
        (Publication.term_tail_counter_at p
           (LogBuffer.aeron_logbuffer_index_by_term_count
              (LogBuffer.aeron_logbuffer_active_term_count
                 (Publication.log_meta_data p)))))
     (Publication.position_bits_to_shift p) (Publication.initial_term_id p)
   <? Publication.aeron_counter_get_volatile (Publication.position_limit p))
  = true.
Proof. intros Hlimit. apply Z.ltb_lt. exact Hlimit. Qed.

(** C4, as amended.  On an open publication whose active term count
    differs from [termId - initialTermId], an offer or a vectored
    offer with a non-NULL buffer, and a claim of at most
    [max_payload_length] bytes with a non-NULL claim, return
    [ADMIN_ACTION] and leave the publication, its log buffer
    included, as it was. *)
Theorem term_count_mismatch_is_admin_action (p : Publication.aeron_publication_t) :
  Publication.is_closed p = false ->
  ~ Publication.term_count_matches p ->
  (forall buffer length supplier clientd,
      Publication.aeron_publication_offer (Some p) (Some buffer) length
        supplier clientd
      = (Publication.AERON_PUBLICATION_ADMIN_ACTION, Some p))
  /\ (forall iov iovcnt supplier clientd,
        Publication.aeron_publication_offerv (Some p) (Some iov) iovcnt
          supplier clientd
        = (Publication.AERON_PUBLICATION_ADMIN_ACTION, Some p))
  /\ (forall length claim,
        length <= Publication.max_payload_length p ->
        Publication.aeron_publication_try_claim (Some p) length (Some claim)
        = (Publication.AERON_PUBLICATION_ADMIN_ACTION, Some p, Some claim)).
Proof.
  intros Hopen Hmismatch. apply term_count_check_fails in Hmismatch.
  repeat split; intros.
  - unfold Publication.aeron_publication_offer. cbv zeta.
    now rewrite Hopen, Hmismatch.
  - unfold Publication.aeron_publication_offerv. cbv zeta.
    now rewrite Hopen, Hmismatch.
  - unfold Publication.aeron_publication_try_claim. cbv zeta.
    destruct (Z.ltb_spec (Publication.max_payload_length p) length); [lia|].
    now rewrite Hopen, Hmismatch.
Qed.


(** C9.  A claim longer than the publication's [max_payload_length]
    returns [AERON_PUBLICATION_ERROR] and leaves the publication and
    the claim as they were, whatever the log holds: a claim is never
    fragmented.  An offer of such a length that does not exceed
    [max_message_length], on an open publication below its limit, goes
    to the fragmenting appender. *)
Theorem try_claim_over_max_payload_length (p : Publication.aeron_publication_t)
    (length : Z) (buffer_claim : option Publication.aeron_buffer_claim_t) :
  Publication.max_payload_length p < length ->
  Publication.aeron_publication_try_claim (Some p) length buffer_claim
  = (Publication.AERON_PUBLICATION_ERROR, Some p, buffer_claim)
  /\ forall buffer supplier clientd,
      length <= Publication.max_message_length p ->
      Publication.is_closed p = false ->
      Publication.term_count_matches p ->
      Publication.term_begin_position p < Publication.position_limit p ->
      Publication.aeron_publication_offer (Some p) (Some buffer) length
        supplier clientd
      = let index := Publication.active_index p in
        let '(resulting_offset, term_buffer, tail) :=
          Publication.aeron_term_appender_append_fragmented_message
            (Publication.term_buffer_at p index)
            (Publication.term_tail_counter_at p index)
            buffer length (Publication.max_payload_length p) supplier clientd
            (Publication.active_term_id p) (Publication.session_id p)
            (Publication.stream_id p) in
        let '(new_position, p') :=
          Publication.aeron_publication_new_position
            (Publication.with_term p index term_buffer tail)
            (LogBuffer.aeron_logbuffer_active_term_count
               (Publication.log_meta_data p))
            (Int.wrap32
               (Z.land (Publication.term_tail_counter_at p index) 4294967295))
            (Publication.active_term_id p)
            (Publication.term_begin_position p) resulting_offset in
        (new_position, Some p').
Proof.
  intros Hlong. split.
  - unfold Publication.aeron_publication_try_claim.
    destruct buffer_claim as [claim|]; [|reflexivity].
    destruct (Z.ltb_spec (Publication.max_payload_length p) length); [reflexivity|lia].
  - intros buffer supplier clientd Hmsg Hopen Hmatch Hlimit.
    apply term_count_check in Hmatch. apply limit_check_passes in Hlimit.
    unfold Publication.aeron_publication_offer. cbv zeta.
    rewrite Hopen, Hmatch, Hlimit. cbn [negb].
    destruct (Z.leb_spec length (Publication.max_payload_length p)); [lia|].
    destruct (Z.ltb_spec (Publication.max_message_length p) length); [lia|].
    reflexivity.
Qed.

Ltac use_new_position Hnp Hpos :=
  match goal with
  | |- context [Publication.aeron_publication_new_position ?a ?b ?c ?d ?e ?f] =>
      let Hc := fresh "Hc" in
      pose proof (Hnp a b c d e f Hpos) as Hc; cbv zeta in Hc;
      destruct (Publication.aeron_publication_new_position a b c d e f);
      cbn [fst] in *;
      unfold Publication.position_or_sentinel, Publication.listed_sentinel;
      tauto
  end.

Ltac use_back_pressure_status Hbps :=
  match goal with
  | |- context [Publication.aeron_publication_back_pressure_status ?p ?a ?b] =>
      let Hc := fresh "Hc" in
      pose proof (Hbps p a b) as Hc; cbv zeta in Hc; cbn [fst];
      unfold Publication.position_or_sentinel, Publication.listed_sentinel;
      tauto
  end.

Ltac sentinel :=
  unfold Publication.position_or_sentinel, Publication.listed_sentinel; tauto.

(** C2, as amended.  On a publication whose positions are not
    negative, and with the two inline functions keeping to what the
    specification says they return, every offer, vectored offer and
    claim returns a position above zero, one of the five listed
    sentinels, or the sixth sentinel [AERON_PUBLICATION_ERROR]; all six
    sentinels are negative. *)
Theorem offer_claim_result_is_position_or_sentinel
    (publication : option Publication.aeron_publication_t) :
  Publication.new_position_contract ->
  Publication.back_pressure_status_contract ->
  (forall p, publication = Some p -> Publication.positions_non_negative p) ->
  (forall buffer length supplier clientd,
      Publication.position_or_sentinel
        (fst (Publication.aeron_publication_offer publication buffer length
                supplier clientd)))
  /\ (forall iov iovcnt supplier clientd,
        Publication.position_or_sentinel
          (fst (Publication.aeron_publication_offerv publication iov iovcnt
                  supplier clientd)))
  /\ (forall length buffer_claim,
        Publication.position_or_sentinel
          (fst (fst (Publication.aeron_publication_try_claim publication length
                       buffer_claim))))
  /\ (forall v,
        Publication.listed_sentinel v \/ v = Publication.AERON_PUBLICATION_ERROR ->
        v < 0).
Proof.
  intros Hnp Hbps Hwf.
  assert (Hpos : forall p,
             publication = Some p ->
             (LogBuffer.aeron_logbuffer_active_term_count (Publication.log_meta_data p)
              =? Int.wrap32
                   (Publication.active_term_id p - Publication.initial_term_id p))
             = true ->
             0 <= Publication.term_begin_position p).
  { intros p Hp Hmatch. apply term_begin_position_non_negative; [now apply Hwf|].
    now apply Z.eqb_eq. }
  repeat split.
  - intros buffer length supplier clientd.
    unfold Publication.aeron_publication_offer. cbv zeta.
    destruct publication as [p|]; [|cbn; sentinel].
    destruct buffer as [buffer|]; [|cbn; sentinel].
    destruct (Publication.is_closed p); cbn [negb]; [cbn; sentinel|].
    destruct (_ =? _) eqn:Hmatch; cbn [negb]; [|cbn; sentinel].
    specialize (Hpos p eq_refl Hmatch).
    destruct (_ <? _); [|use_back_pressure_status Hbps].
    destruct (length <=? _).
    + destruct (Publication.aeron_term_appender_append_unfragmented_message
                  _ _ _ _ _ _ _ _ _) as [[ro tb] tail].
      use_new_position Hnp Hpos.
    + destruct (_ <? length); [cbn; sentinel|].
      destruct (Publication.aeron_term_appender_append_fragmented_message
                  _ _ _ _ _ _ _ _ _ _) as [[ro tb] tail].
      use_new_position Hnp Hpos.
  - intros iov iovcnt supplier clientd.
    unfold Publication.aeron_publication_offerv. cbv zeta.
    destruct publication as [p|]; [|cbn; sentinel].
    destruct iov as [iov|]; [|cbn; sentinel].
    destruct (Publication.is_closed p); cbn [negb]; [cbn; sentinel|].
    destruct (_ =? _) eqn:Hmatch; cbn [negb]; [|cbn; sentinel].
    specialize (Hpos p eq_refl Hmatch).
    destruct (_ <? _); [|use_back_pressure_status Hbps].
    destruct (_ <=? _).
    + destruct (Publication.aeron_term_appender_append_unfragmented_messagev
                  _ _ _ _ _ _ _ _ _ _) as [[ro tb] tail].
      use_new_position Hnp Hpos.
    + destruct (_ <? Publication.iov_length _ _); [cbn; sentinel|].
      destruct (Publication.aeron_term_appender_append_fragmented_messagev
                  _ _ _ _ _ _ _ _ _ _ _) as [[ro tb] tail].
      use_new_position Hnp Hpos.
  - intros length buffer_claim.
    unfold Publication.aeron_publication_try_claim. cbv zeta.
    destruct publication as [p|]; [|cbn; sentinel].
    destruct buffer_claim as [claim|]; [|cbn; sentinel].
    destruct (_ <? length); [cbn; sentinel|].
    destruct (Publication.is_closed p); cbn [negb]; [cbn; sentinel|].
    destruct (_ =? _) eqn:Hmatch; cbn [negb]; [|cbn; sentinel].
    specialize (Hpos p eq_refl Hmatch).
    destruct (_ <? _); [|use_back_pressure_status Hbps].
    destruct (Publication.aeron_term_appender_claim _ _ _ _ _ _ _)
      as [[[ro tb] tail] claim'].
    use_new_position Hnp Hpos.
  - intros v [Hv|Hv]; [destruct Hv as [Hv|[Hv|[Hv|[Hv|Hv]]]]|];
      subst v; reflexivity.
Qed.

End OfferClaim.

Lemma term_count_mismatch_is_admin_action_witness :
  Publication.aeron_publication_offer (ops := Reference.spec_ops)
    (Some (Reference.sample_publication 1 1000000)) (Some [1; 2; 3]) 3 None 0
  = (Publication.AERON_PUBLICATION_ADMIN_ACTION,
     Some (Reference.sample_publication 1 1000000)).
Proof.
  refine (proj1 (term_count_mismatch_is_admin_action (ops := Reference.spec_ops)
                   (Reference.sample_publication 1 1000000) eq_refl _)
            [1; 2; 3] 3 None 0).
  vm_compute. discriminate.
Defined.

(** C4, as stated, fails: on an open publication whose active term
    count (1) differs from [termId - initialTermId] (4), a claim of
    1377 bytes, one more than [max_payload_length], returns
    [AERON_PUBLICATION_ERROR], and so does an offer with a NULL buffer;
    neither returns [ADMIN_ACTION]. *)
Lemma term_count_mismatch_is_not_always_admin_action :
  Publication.is_closed (Reference.sample_publication 1 1000000) = false
  /\ ~ Publication.term_count_matches (Reference.sample_publication 1 1000000)
  /\ Publication.aeron_publication_try_claim (ops := Reference.spec_ops)
       (Some (Reference.sample_publication 1 1000000)) 1377
       (Some {| Publication.frame_header := 0; Publication.data := 0;
                Publication.length := 0 |})
     = (Publication.AERON_PUBLICATION_ERROR,
        Some (Reference.sample_publication 1 1000000),
        Some {| Publication.frame_header := 0; Publication.data := 0;
                Publication.length := 0 |})
  /\ Publication.aeron_publication_offer (ops := Reference.spec_ops)
       (Some (Reference.sample_publication 1 1000000)) None 3 None 0
     = (Publication.AERON_PUBLICATION_ERROR,
        Some (Reference.sample_publication 1 1000000))
  /\ Publication.AERON_PUBLICATION_ERROR
     <> Publication.AERON_PUBLICATION_ADMIN_ACTION.
Proof.
  split; [reflexivity|]. split; [vm_compute; discriminate|].
  split; [reflexivity|]. split; [reflexivity|discriminate].
Qed.



(** The limit test of the offer and claim paths compares the
    beginning of the active term, not the position of the tail: with
    the tail 1024 bytes into the term that begins at 262144 and the
    limit at 262656, between the two, the position 263168 has reached
    the limit, yet the offer appends, returns the new position 263232
    and moves the tail. *)
Example offer_with_limit_between_term_begin_and_tail :
  Publication.term_begin_position (Reference.appended_publication 262656)
  = 262144
  /\ Publication.tail_position (Reference.appended_publication 262656) = 263168
  /\ fst (Publication.aeron_publication_offer (ops := Reference.spec_ops)
            (Some (Reference.appended_publication 262656)) (Some [1; 2; 3]) 3
            None 0)
     = 263232
  /\ option_map Publication.tail_position
       (snd (Publication.aeron_publication_offer (ops := Reference.spec_ops)
               (Some (Reference.appended_publication 262656)) (Some [1; 2; 3]) 3
               None 0))
     = Some 263232.
Proof. repeat split; vm_compute; reflexivity. Qed.

Lemma try_claim_over_max_payload_length_witness :
  Publication.aeron_publication_try_claim (ops := Reference.spec_ops)
    (Some (Reference.sample_publication 4 1000000)) 1377
    (Some {| Publication.frame_header := 0; Publication.data := 0;
             Publication.length := 0 |})
  = (Publication.AERON_PUBLICATION_ERROR,
     Some (Reference.sample_publication 4 1000000),
     Some {| Publication.frame_header := 0; Publication.data := 0;
             Publication.length := 0 |}).
Proof.
  refine (proj1 (try_claim_over_max_payload_length (ops := Reference.spec_ops)
                   (Reference.sample_publication 4 1000000) 1377 _ _)).
  vm_compute. reflexivity.
Defined.

Lemma offer_claim_result_is_position_or_sentinel_witness :
  Publication.position_or_sentinel
    (fst (Publication.aeron_publication_offer (ops := Reference.spec_ops)
            (Some (Reference.sample_publication 4 1000000)) (Some [1; 2; 3]) 3
            None 0)).
Proof.
  refine (proj1 (offer_claim_result_is_position_or_sentinel
                   (ops := Reference.spec_ops)
                   (Some (Reference.sample_publication 4 1000000)) _ _ _)
            (Some [1; 2; 3]) 3 None 0).
  - intros p term_count term_offset term_id position resulting_offset Hpos.
    cbn. unfold Reference.new_position.
    destruct (Z.ltb_spec 0 resulting_offset); cbn; [lia|].
    destruct (_ <? _); cbn; auto.
  - intros p current_position message_length.
    cbn. unfold Reference.back_pressure_status.
    destruct (_ <=? _); [auto|]. destruct (_ =? _); auto.
  - intros p Hp. inversion Hp; subst p. vm_compute. repeat split; discriminate.
Defined.

(** C2, as stated, fails: an offer with a NULL buffer, and an offer of
    9000 bytes to a publication whose [max_message_length] is 8192,
    return [AERON_PUBLICATION_ERROR] (-6), which is neither above zero
    nor one of the five listed sentinels. *)
Lemma offer_returns_unlisted_error_sentinel :
  fst (Publication.aeron_publication_offer (ops := Reference.spec_ops)
         (Some (Reference.sample_publication 4 1000000)) None 3 None 0)
  = Publication.AERON_PUBLICATION_ERROR
  /\ fst (Publication.aeron_publication_offer (ops := Reference.spec_ops)
            (Some (Reference.sample_publication 4 1000000))
            (Some (repeat 0 (Z.to_nat 9000))) 9000 None 0)
     = Publication.AERON_PUBLICATION_ERROR
  /\ ~ 0 < Publication.AERON_PUBLICATION_ERROR
  /\ ~ Publication.listed_sentinel Publication.AERON_PUBLICATION_ERROR.
Proof.
  split; [reflexivity|]. split; [reflexivity|]. split; [discriminate|].
  unfold Publication.listed_sentinel. intros [H|[H|[H|[H|H]]]]; discriminate.
Qed.

Example offer_appends_one_frame :
  fst (Publication.aeron_publication_offer (ops := Reference.spec_ops)
         (Some (Reference.sample_publication 4 1000000)) (Some [1; 2; 3]) 3 None 0)
  = 262208.
Proof. vm_compute. reflexivity. Qed.

(** ** Session ids *)

Section SessionId.

Import Conductor.

Lemma wrap32_in_range (x : Z) :
  Int.INT32_MIN <= x <= Int.INT32_MAX -> Int.wrap32 x = x.
Proof.
  unfold Int.INT32_MIN, Int.INT32_MAX, Int.wrap32. intros Hx.
  rewrite Z.mod_small; lia.
Qed.

Lemma wrap32_range (x : Z) : Int.INT32_MIN <= Int.wrap32 x <= Int.INT32_MAX.
Proof.
  unfold Int.INT32_MIN, Int.INT32_MAX, Int.wrap32.
  pose proof (Z.mod_pos_bound (x + 2 ^ 31) (2 ^ 32)). lia.
Qed.

Lemma wrap32_add_l (a b : Z) : Int.wrap32 (Int.wrap32 a + b) = Int.wrap32 (a + b).
Proof.
  unfold Int.wrap32. f_equal.
  replace ((a + 2 ^ 31) mod 2 ^ 32 - 2 ^ 31 + b + 2 ^ 31)
    with ((a + 2 ^ 31) mod 2 ^ 32 + b) by lia.
  rewrite Zplus_mod_idemp_l. f_equal. lia.
Qed.

Variable c : aeron_driver_conductor_t.
Variable e : string.
Variable stream : Z.

Lemma select_session_id_sound (fuel : nat) :
  forall next id next',
    select_session_id fuel c e stream next = Some (id, next') ->
    is_free c e stream id /\ next' = advance id.
Proof.
  induction fuel as [|fuel IH]; intros next id next' Hsel; simpl in Hsel;
    [discriminate|].
  destruct (is_reserved c next) eqn:Hres; simpl in Hsel; [now apply IH in Hsel|].
  destruct (is_in_use c e stream next) eqn:Huse; [now apply IH in Hsel|].
  inversion Hsel; subst. now repeat split.
Qed.

Lemma select_session_id_finds (k : nat) :
  forall fuel next,
    (k < fuel)%nat ->
    Int.INT32_MIN <= next <= Int.INT32_MAX ->
    is_free c e stream (Int.wrap32 (next + Z.of_nat k)) ->
    exists id next', select_session_id fuel c e stream next = Some (id, next').
Proof.
  induction k as [|k IH]; intros fuel next Hfuel Hnext Hfree;
    (destruct fuel as [|fuel]; [lia|]); simpl.
  - rewrite Z.add_0_r, wrap32_in_range in Hfree by assumption.
    destruct Hfree as [-> ->]. simpl. eauto.
  - destruct (is_reserved c next || is_in_use c e stream next); [|eauto].
    apply IH; [lia|apply wrap32_range|].
    unfold advance. rewrite wrap32_add_l.
    now replace (next + 1 + Z.of_nat k) with (next + Z.of_nat (S k)) by lia.
Qed.

Lemma is_in_use_false (id : Z) :
  is_in_use c e stream id = false ->
  forall p,
    In p (network_publications c) ->
    endpoint p = e -> Conductor.stream_id p = stream ->
    Conductor.session_id p <> id.
Proof.
  intros Huse p Hin He Hs Hid.
  assert (Htrue : is_in_use c e stream id = true); [|congruence].
  apply existsb_exists. exists p. split; [assumption|].
  now rewrite He, Hs, Hid, String.eqb_refl, !Z.eqb_refl.
Qed.

End SessionId.

(** C5.  Against the session-id selection modelled from the
    specification: as long as some session id is neither reserved nor
    in use on the (endpoint, streamId), the conductor assigns one; the
    assigned id is outside [[reservedLow, reservedHigh]] and differs
    from every session id in use on the same (endpoint, streamId); the
    counter is left one past the assigned id, and advancing it wraps
    from INT32_MAX to INT32_MIN. *)
Theorem assign_session_id_avoids_reserved_and_used
    (c : Conductor.aeron_driver_conductor_t) (e : string) (stream : Z)
    (unused : Z) :
  Int.INT32_MIN <= Conductor.next_session_id c <= Int.INT32_MAX ->
  Int.INT32_MIN <= unused <= Int.INT32_MAX ->
  Conductor.is_reserved c unused = false ->
  Conductor.is_in_use c e stream unused = false ->
  exists id c',
    Conductor.assign_session_id c e stream = Some (id, c')
    /\ ~ (Conductor.publication_reserved_session_id_low c <= id
          <= Conductor.publication_reserved_session_id_high c)
    /\ (forall p,
          In p (Conductor.network_publications c) ->
          Conductor.endpoint p = e -> Conductor.stream_id p = stream ->
          Conductor.session_id p <> id)
    /\ Conductor.next_session_id c' = Conductor.advance id
    /\ Conductor.advance Int.INT32_MAX = Int.INT32_MIN.
Proof.
  intros Hnext Hunused Hres Huse.
  set (k := (unused - Conductor.next_session_id c) mod 2 ^ 32).
  assert (Hk : 0 <= k < 2 ^ 32) by (apply Z.mod_pos_bound; lia).
  destruct (select_session_id_finds c e stream (Z.to_nat k) (Z.to_nat (2 ^ 32))
              (Conductor.next_session_id c)) as (id & next' & Hsel).
  - lia.
  - assumption.
  - rewrite Z2Nat.id by lia.
    replace (Int.wrap32 (Conductor.next_session_id c + k)) with unused;
      [now split|].
    unfold k, Int.wrap32. rewrite <- Z.add_assoc, (Z.add_comm (_ mod _)).
    rewrite Z.add_assoc, Zplus_mod_idemp_r.
    replace (Conductor.next_session_id c + 2 ^ 31
             + (unused - Conductor.next_session_id c))
      with (unused + 2 ^ 31) by lia.
    unfold Int.INT32_MIN, Int.INT32_MAX in Hunused.
    rewrite Z.mod_small; lia.
  - exists id. eexists. unfold Conductor.assign_session_id. rewrite Hsel.
    destruct (select_session_id_sound c e stream _ _ _ _ Hsel) as [[Hr Hu] ->].
    split; [reflexivity|]. split; [|split; [|split; reflexivity]].
    + unfold Conductor.is_reserved in Hr.
      apply andb_false_iff in Hr as [Hr|Hr]; [apply Z.leb_gt in Hr|apply Z.leb_gt in Hr];
        lia.
    + now apply is_in_use_false.
Qed.

Lemma assign_session_id_avoids_reserved_and_used_witness :
  exists id c',
    Conductor.assign_session_id Reference.wrapping_conductor "127.0.0.1:40001" 1001
    = Some (id, c')
    /\ ~ (-1 <= id <= 1000)
    /\ id <> 2147483646 /\ id <> 2147483647
    /\ id <> -2147483648 /\ id <> -2147483647.
Proof.
  destruct (assign_session_id_avoids_reserved_and_used
              Reference.wrapping_conductor "127.0.0.1:40001" 1001 5000)
    as (id & c' & Hassign & Hreserved & Hused & _).
  - unfold Int.INT32_MIN, Int.INT32_MAX. simpl. lia.
  - unfold Int.INT32_MIN, Int.INT32_MAX. lia.
  - reflexivity.
  - reflexivity.
  - exists id, c'. split; [exact Hassign|]. split; [exact Hreserved|].
    repeat split; intros Hid;
      refine (Hused {| Conductor.endpoint := "127.0.0.1:40001";
                       Conductor.stream_id := 1001;
                       Conductor.session_id := id |} _ eq_refl eq_refl eq_refl);
      subst id; simpl; tauto.
Defined.

(** The three tests of the conductor on session ids, run on the model:
    a counter inside the reserved range, a counter on ids in use, and a
    counter that wraps over ids in use. *)
Example shouldNotAddDynamicSessionIdInReservedRange :
  option_map fst
    (Conductor.assign_session_id
       {| Conductor.next_session_id := -1;
          Conductor.publication_reserved_session_id_low := -1;
          Conductor.publication_reserved_session_id_high := 1000;
          Conductor.network_publications := [] |}
       "127.0.0.1:40001" 1001)
  = Some 1001.
Proof. reflexivity. Qed.

Example shouldNotAccidentallyBumpIntoExistingSessionId :
  option_map fst
    (Conductor.assign_session_id
       {| Conductor.next_session_id := 100000;
          Conductor.publication_reserved_session_id_low := -1;
          Conductor.publication_reserved_session_id_high := 1000;
          Conductor.network_publications :=
            [ {| Conductor.endpoint := "127.0.0.1:40001";
                 Conductor.stream_id := 1001;
                 Conductor.session_id := 100000 |};
              {| Conductor.endpoint := "127.0.0.1:40001";
                 Conductor.stream_id := 1001;
                 Conductor.session_id := 100001 |};
              {| Conductor.endpoint := "127.0.0.1:40001";
                 Conductor.stream_id := 1001;
                 Conductor.session_id := 100002 |} ] |}
       "127.0.0.1:40001" 1001)
  = Some 100003.
Proof. reflexivity. Qed.

Example shouldNotAccidentallyBumpIntoExistingSessionIdWithSessionIdWrapping :
  option_map fst
    (Conductor.assign_session_id Reference.wrapping_conductor
       "127.0.0.1:40001" 1001)
  = Some (-2147483646).
Proof. reflexivity. Qed.

(** * Further properties *)

(** ** [aeron_format_to_hex] *)

Section FormatToHex.

Import Strutil.

Lemma half_step (x : nat) : (2 <= x -> x / 2 = S ((x - 2) / 2))%nat.
Proof.
  intros Hx. replace x with ((x - 2) + 1 * 2)%nat at 1 by lia.
  rewrite Nat.div_add by lia. lia.
Qed.

Lemma format_to_hex_loop_length (str_length : nat) (data : list Z) :
  forall j,
    String.length (format_to_hex_loop str_length j data)
    = (2 * Nat.min (length data) ((str_length + 1 - j) / 2))%nat.
Proof.
  induction data as [|d data IH]; intros j;
    cbn [format_to_hex_loop length]; [reflexivity|].
  destruct (Nat.ltb_spec j str_length) as [Hj|Hj].
  - cbn [String.length]. rewrite IH.
    rewrite (half_step (str_length + 1 - j)) by lia.
    replace (str_length + 1 - j - 2)%nat with (str_length + 1 - (j + 2))%nat by lia.
    lia.
  - replace ((str_length + 1 - j) / 2)%nat with 0%nat;
      [cbn [String.length]; lia|].
    symmetry. apply Nat.div_small. lia.
Qed.

Lemma hex_digit_value_table_at (x : Z) :
  0 <= x < 16 -> Decode.hex_digit_value (table_at x) = Some x.
Proof.
  intros Hx.
  assert (Hc : x = 0 \/ x = 1 \/ x = 2 \/ x = 3 \/ x = 4 \/ x = 5 \/ x = 6 \/ x = 7
               \/ x = 8 \/ x = 9 \/ x = 10 \/ x = 11 \/ x = 12 \/ x = 13 \/ x = 14
               \/ x = 15) by lia.
  repeat (destruct Hc as [->|Hc]; [reflexivity|]). now subst x.
Qed.

Lemma parse_hex_of_bytes (data : list Z) :
  Forall (fun b => 0 <= b < 256) data ->
  Decode.parse_hex (UdpChannel.hex_of_bytes data) = Some data.
Proof.
  induction 1 as [|b data Hb _ IH]; [reflexivity|].
  cbn [UdpChannel.hex_of_bytes fold_right]. unfold UdpChannel.hex_of_byte.
  cbn [String.append Decode.parse_hex].
  change (fold_right _ _ data) with (UdpChannel.hex_of_bytes data).
  rewrite IH, !hex_digit_value_table_at;
    [|apply Z.mod_pos_bound; lia
     |split; [apply Z.div_pos; lia|apply Z.div_lt_upper_bound; lia]].
  do 2 f_equal. rewrite (Z.div_mod b 16) at 3 by lia. lia.
Qed.

End FormatToHex.

(** X1.  [aeron_format_to_hex] writes two characters for each input
    byte as long as the write index is below [str_length]: the text has
    [2 * min(data_len, ceil(str_length / 2))] characters.  With
    [2 * data_len < str_length] the text and its terminator fit the
    buffer; with an odd [str_length] below [2 * data_len] the text
    alone is one character longer than the buffer. *)
Theorem aeron_format_to_hex_length (str_length : nat) (data : list Z) :
  String.length (Strutil.aeron_format_to_hex str_length data)
  = (2 * Nat.min (length data) ((str_length + 1) / 2))%nat
  /\ ((2 * length data < str_length)%nat ->
      (String.length (Strutil.aeron_format_to_hex str_length data) + 1
       <= str_length)%nat)
  /\ (Nat.odd str_length = true -> (str_length < 2 * length data)%nat ->
      String.length (Strutil.aeron_format_to_hex str_length data)
      = (str_length + 1)%nat).
Proof.
  unfold Strutil.aeron_format_to_hex.
  rewrite format_to_hex_loop_length, Nat.sub_0_r.
  split; [reflexivity|]. split.
  - intros Hfit.
    assert (length data <= (str_length + 1) / 2)%nat
      by (apply Nat.div_le_lower_bound; lia).
    lia.
  - intros Hodd Hshort. apply Nat.odd_spec in Hodd as [k ->].
    replace (2 * k + 1 + 1)%nat with ((k + 1) * 2)%nat by lia.
    rewrite Nat.div_mul by lia. lia.
Qed.

Example aeron_format_to_hex_overruns :
  Strutil.aeron_format_to_hex 1 [171; 205] = "ab"%string
  /\ Strutil.aeron_format_to_hex 4 [171; 205; 239] = "abcd"%string.
Proof. split; reflexivity. Qed.

(** X2.  Round trip: when the buffer has room ([2 * data_len <=
    str_length + 1]), reading the hex pairs that [aeron_format_to_hex]
    wrote gives the input bytes back. *)
Theorem aeron_format_to_hex_round_trip (str_length : nat) (data : list Z) :
  Forall (fun b => 0 <= b < 256) data ->
  (2 * length data <= str_length + 1)%nat ->
  Decode.parse_hex (Strutil.aeron_format_to_hex str_length data) = Some data.
Proof.
  intros Hbytes Hfit. unfold Strutil.aeron_format_to_hex.
  rewrite format_to_hex_loop_hex by (auto; lia).
  now apply parse_hex_of_bytes.
Qed.

Lemma aeron_format_to_hex_round_trip_witness :
  Decode.parse_hex (Strutil.aeron_format_to_hex 57 [127; 0; 0; 1])
  = Some [127; 0; 0; 1].
Proof.
  apply aeron_format_to_hex_round_trip.
  - repeat constructor; lia.
  - simpl. lia.
Defined.

Lemma format_to_hex_loop_prefix (str_length : nat) (data : list Z) :
  forall j,
    Forall (fun b => 0 <= b < 256) data ->
    Strutil.format_to_hex_loop str_length j data
    = UdpChannel.hex_of_bytes (take ((str_length + 1 - j) / 2) data).
Proof.
  induction data as [|d data IH]; intros j Hbytes;
    cbn [Strutil.format_to_hex_loop]; [now rewrite take_nil|].
  inversion Hbytes as [|? ? Hd Hrest]; subst.
  destruct (Nat.ltb_spec j str_length) as [Hj|Hj].
  - rewrite (half_step (str_length + 1 - j)) by lia.
    replace (str_length + 1 - j - 2)%nat with (str_length + 1 - (j + 2))%nat by lia.
    cbn [take UdpChannel.hex_of_bytes fold_right].
    unfold UdpChannel.hex_of_byte. cbn [String.append].
    rewrite table_at_high, table_at_low by assumption.
    now rewrite IH by assumption.
  - replace ((str_length + 1 - j) / 2)%nat with 0%nat; [reflexivity|].
    symmetry. apply Nat.div_small. lia.
Qed.

(** X3.  For bytes as a [uint8_t] holds them and whatever the buffer
    length, [aeron_format_to_hex] writes exactly the hex of the first
    [ceil(str_length / 2)] bytes, or of all of them when they are
    fewer: for each byte the table entry of its high four bits and
    then the entry of its low four bits.  A buffer that is too short
    cuts the text between two bytes, never inside a pair. *)
Theorem aeron_format_to_hex_whole_bytes (str_length : nat) (data : list Z) :
  Forall (fun b => 0 <= b < 256) data ->
  Strutil.aeron_format_to_hex str_length data
  = UdpChannel.hex_of_bytes (take ((str_length + 1) / 2) data).
Proof.
  intros Hbytes. unfold Strutil.aeron_format_to_hex.
  rewrite format_to_hex_loop_prefix by assumption.
  now rewrite Nat.sub_0_r.
Qed.

Lemma aeron_format_to_hex_whole_bytes_witness :
  Strutil.aeron_format_to_hex 3 [171; 205; 239] = "abcd"%string.
Proof.
  refine (aeron_format_to_hex_whole_bytes 3 [171; 205; 239] _).
  repeat constructor; lia.
Defined.

(** ** [aeron_tokenise]: bounds and what it leaves alone *)

Section TokeniseBounds.

Import Strutil.

Variables delimiter max_tokens : Z.

Lemma tokenise_loop_bounds (i : nat) :
  forall input tokens num,
    0 <= num ->
    let r := tokenise_loop delimiter max_tokens i input tokens num in
    (snd r = - ERANGE \/ num <= snd r <= Z.max num max_tokens)
    /\ length (snd (fst r)) = length tokens
    /\ forall k, max_tokens <= Z.of_nat k -> (snd (fst r)) !! k = tokens !! k.
Proof.
  induction i as [|i IH]; intros input tokens num Hnum; cbn zeta.
  - simpl. repeat split; auto; lia.
  - cbn [tokenise_loop].
    set (input1 := if delimiter =? char_at input i then _ else _).
    assert (Hstore : forall x,
      (max_tokens <=? num) = false ->
      let r := tokenise_loop delimiter max_tokens i input1
                 (<[Z.to_nat num := x]> tokens) (num + 1) in
      (snd r = - ERANGE \/ num <= snd r <= Z.max num max_tokens)
      /\ length (snd (fst r)) = length tokens
      /\ forall k, max_tokens <= Z.of_nat k -> (snd (fst r)) !! k = tokens !! k).
    { intros x Hroom. apply Z.leb_gt in Hroom.
      destruct (IH input1 (<[Z.to_nat num := x]> tokens) (num + 1) ltac:(lia))
        as (Hret & Hlen & Hkeep).
      cbn zeta. split; [lia|]. split; [now rewrite Hlen, length_insert|].
      intros k Hk. rewrite Hkeep by assumption.
      apply list_lookup_insert_ne. lia. }
    destruct (_ && _).
    + destruct (max_tokens <=? num) eqn:Hroom; [|now apply Hstore].
      simpl. repeat split; auto.
    + destruct (_ && _).
      * destruct (max_tokens <=? num) eqn:Hroom; [|now apply Hstore].
        simpl. repeat split; auto.
      * apply IH. assumption.
Qed.

Lemma replaced_byte (input : list Z) (i : nat) :
  let input1 :=
    if delimiter =? char_at input i then <[i := 0]> input else input in
  length input1 = length input
  /\ (forall j, j <> i -> input1 !! j = input !! j)
  /\ (input1 !! i = input !! i
      \/ (input !! i = Some delimiter /\ input1 !! i = Some 0)).
Proof.
  cbn zeta. destruct (Z.eqb_spec delimiter (char_at input i)) as [Hd|Hd].
  - split; [apply length_insert|]. split.
    + intros j Hj. now apply list_lookup_insert_ne.
    + unfold char_at in Hd. destruct (input !! i) as [c|] eqn:Hc.
      * right. simpl in Hd. subst c. split; [reflexivity|].
        apply list_lookup_insert_eq. now apply lookup_lt_Some in Hc.
      * left. rewrite list_insert_ge; [assumption|]. now apply lookup_ge_None.
  - repeat split; auto.
Qed.

Lemma tokenise_loop_bytes (i : nat) :
  forall input tokens num,
    let buf := fst (fst (tokenise_loop delimiter max_tokens i input tokens num)) in
    length buf = length input
    /\ (forall j, (i <= j)%nat -> buf !! j = input !! j)
    /\ (forall j,
          buf !! j = input !! j
          \/ (input !! j = Some delimiter /\ buf !! j = Some 0)).
Proof.
  induction i as [|i IH]; intros input tokens num; cbn zeta.
  - simpl. repeat split; auto.
  - cbn [tokenise_loop].
    destruct (replaced_byte input i) as (Hlen1 & Hother & Hat).
    set (input1 := if delimiter =? char_at input i then _ else _) in *.
    assert (Hbreak :
      length input1 = length input
      /\ (forall j, (S i <= j)%nat -> input1 !! j = input !! j)
      /\ (forall j,
            input1 !! j = input !! j
            \/ (input !! j = Some delimiter /\ input1 !! j = Some 0))).
    { split; [assumption|]. split.
      - intros j Hj. apply Hother. lia.
      - intros j. destruct (Nat.eq_dec j i) as [->|Hj]; [assumption|].
        left. now apply Hother. }
    assert (Hrec : forall tokens' num',
      let buf := fst (fst (tokenise_loop delimiter max_tokens i input1 tokens' num')) in
      length buf = length input
      /\ (forall j, (S i <= j)%nat -> buf !! j = input !! j)
      /\ (forall j,
            buf !! j = input !! j
            \/ (input !! j = Some delimiter /\ buf !! j = Some 0))).
    { intros tokens' num'. destruct (IH input1 tokens' num') as (Hlen & Hkeep & Hrepl).
      cbn zeta. split; [congruence|]. split.
      - intros j Hj. rewrite Hkeep by lia. apply Hother. lia.
      - intros j. destruct (Nat.eq_dec j i) as [->|Hj].
        + rewrite Hkeep by lia. assumption.
        + rewrite <- (Hother j Hj). apply Hrepl. }
    destruct (_ && _).
    + destruct (max_tokens <=? num); [exact Hbreak|apply Hrec].
    + destruct (_ && _).
      * destruct (max_tokens <=? num); [exact Hbreak|apply Hrec].
      * apply Hrec.
Qed.

End TokeniseBounds.

(** X4.  Whatever the input, [aeron_tokenise] returns [-EINVAL],
    [-ERANGE] or a count between 0 and [max_tokens]; it keeps the size
    of the [tokens] array and never stores into [tokens[k]] for
    [k >= max_tokens]. *)
Theorem aeron_tokenise_bounds (input : option (list Z))
    (delimiter max_tokens : Z) (tokens : list nat) :
  let r := Strutil.aeron_tokenise input delimiter max_tokens tokens in
  (fst (fst r) = - Strutil.EINVAL
   \/ fst (fst r) = - Strutil.ERANGE
   \/ 0 <= fst (fst r) <= Z.max 0 max_tokens)
  /\ length (snd r) = length tokens
  /\ forall k, max_tokens <= Z.of_nat k -> (snd r) !! k = tokens !! k.
Proof.
  cbn zeta. unfold Strutil.aeron_tokenise.
  destruct input as [buf|]; [|simpl; auto].
  destruct (_ <? _); [simpl; auto|].
  destruct (_ =? _)%nat; [simpl; repeat split; auto; lia|].
  pose proof (tokenise_loop_bounds delimiter max_tokens (Strutil.strlen buf) buf
                tokens 0 (Z.le_refl 0)) as Hloop.
  cbn zeta in Hloop.
  destruct (Strutil.tokenise_loop _ _ _ _ _ _) as [[buf' tokens'] n].
  simpl in *. tauto.
Qed.

(** X5.  Whatever the outcome, [-ERANGE] included, [aeron_tokenise]
    keeps the length of the input buffer, leaves every byte from the
    terminator on as it was, and changes a byte before it only from the
    delimiter to NUL. *)
Theorem aeron_tokenise_only_replaces_delimiters (buf : list Z)
    (delimiter max_tokens : Z) (tokens : list nat) :
  exists buf',
    snd (fst (Strutil.aeron_tokenise (Some buf) delimiter max_tokens tokens))
    = Some buf'
    /\ length buf' = length buf
    /\ (forall j, (Strutil.strlen buf <= j)%nat -> buf' !! j = buf !! j)
    /\ (forall j,
          buf' !! j = buf !! j
          \/ (buf !! j = Some delimiter /\ buf' !! j = Some 0)).
Proof.
  unfold Strutil.aeron_tokenise.
  destruct (_ <? _); [exists buf; simpl; auto|].
  destruct (_ =? _)%nat; [exists buf; simpl; auto|].
  pose proof (tokenise_loop_bytes delimiter max_tokens (Strutil.strlen buf) buf
                tokens 0) as Hloop.
  cbn zeta in Hloop.
  destruct (Strutil.tokenise_loop _ _ _ _ _ _) as [[buf' tokens'] n].
  exists buf'. simpl in *. tauto.
Qed.

(** ** [aeron_tokenise]: the tokens it points at *)

Section TokeniseTokens.

Import Strutil.

Variable delimiter : Z.

Lemma split_at_delimiter_free (s : list Z) :
  Forall (Forall (fun c => c <> delimiter)) (split_at delimiter s).
Proof.
  induction s as [|c s IH]; simpl; [repeat constructor|].
  destruct (Z.eqb_spec c delimiter) as [Hc|Hc]; [now repeat constructor|].
  destruct (split_at delimiter s) as [|f fs]; [repeat constructor; assumption|].
  inversion IH; subst. now repeat constructor.
Qed.

Lemma with_offsets_field (fields : list (list Z)) :
  forall off o t, In (o, t) (with_offsets off fields) -> In t fields.
Proof.
  induction fields as [|f fields IH]; intros off o t Hin; [destruct Hin|].
  destruct Hin as [Heq|Hin]; [inversion Heq; now left|right; eauto].
Qed.

Lemma field_position (fields : list (list Z)) :
  forall off o t,
    In (o, t) (with_offsets off fields) ->
    exists pre post,
      flat_map (fun f => f ++ [0]) fields = pre ++ t ++ 0 :: post
      /\ (off + length pre = o)%nat.
Proof.
  induction fields as [|f fields IH]; intros off o t Hin; [destruct Hin|].
  destruct Hin as [Heq|Hin].
  - inversion Heq; subst. exists [], (flat_map (fun f => f ++ [0]) fields).
    simpl. rewrite <- app_assoc. split; [reflexivity|lia].
  - destruct (IH _ _ _ Hin) as (pre & post & Hflat & Hoff).
    exists (f ++ 0 :: pre), post. simpl. rewrite Hflat, <- !app_assoc. simpl.
    split; [reflexivity|]. rewrite length_app. simpl. lia.
Qed.

Lemma kept_bytes (w : list Z) :
  Forall (fun c => c <> 0) (delimiters_replaced delimiter w) ->
  delimiters_replaced delimiter w = w.
Proof.
  induction w as [|c w IH]; simpl; intros Hnz; [reflexivity|].
  inversion Hnz as [|? ? Hc Hw]; subst.
  rewrite IH by assumption.
  destruct (c =? delimiter); [contradiction|reflexivity].
Qed.

Lemma aeron_tokenise_fits (max_tokens : Z) (s rest : list Z) (tokens : list nat) :
  Forall (fun c => c <> 0) s ->
  Z.of_nat (length s) <= Int.INT32_MAX ->
  0 <= max_tokens <= Z.of_nat (length tokens) ->
  0 <= fst (fst (aeron_tokenise (Some (s ++ 0 :: rest)) delimiter max_tokens tokens)) ->
  aeron_tokenise (Some (s ++ 0 :: rest)) delimiter max_tokens tokens
  = (Z.of_nat (length (tokens_of delimiter s)),
     Some (delimiters_replaced delimiter s ++ 0 :: rest),
     rev (map fst (tokens_of delimiter s))
       ++ drop (length (tokens_of delimiter s)) tokens).
Proof.
  intros Hnz Hlen [Hmax Hcap].
  assert (Hfound : length (discovered delimiter s false)
                   = length (tokens_of delimiter s)).
  { rewrite discovered_tokens_of. now rewrite length_rev, length_map. }
  unfold aeron_tokenise. rewrite strlen_terminated by assumption.
  destruct (Z.ltb_spec Int.INT32_MAX (Z.of_nat (length s))); [lia|].
  destruct (Nat.eqb_spec (length s) 0) as [H0|H0].
  { apply length_zero_iff_nil in H0. subst. reflexivity. }
  destruct (Z.le_gt_cases (Z.of_nat (length (tokens_of delimiter s))) max_tokens)
    as [Hfit|Hover].
  - intros _.
    pose proof (tokenise_loop_fits delimiter max_tokens s (0 :: rest) tokens 0
                  Hnz (Z.le_refl 0)) as Hloop.
    change (char_at (0 :: rest) 0) with 0 in Hloop. simpl in Hloop.
    rewrite Hfound in Hloop. specialize (Hloop Hfit Hcap).
    rewrite Hloop, discovered_tokens_of. reflexivity.
  - pose proof (tokenise_loop_overflows delimiter max_tokens s (0 :: rest) tokens 0
                  Hnz Hmax) as Hloop.
    change (char_at (0 :: rest) 0) with 0 in Hloop. simpl in Hloop.
    rewrite Hfound in Hloop. specialize (Hloop ltac:(lia)).
    destruct (tokenise_loop _ _ _ _ _ _) as [[buf' tokens'] n].
    simpl in *. subst n. unfold ERANGE. lia.
Qed.

End TokeniseTokens.

(** X6.  When [aeron_tokenise] succeeds on a C string [s], each of the
    pointers it stored, [tokens[k]] for [k] below the returned count,
    points into [s] at a NUL-terminated token that is not empty, holds
    no delimiter, and is the run of [s] found at that offset. *)
Theorem aeron_tokenise_tokens (delimiter max_tokens : Z) (s rest : list Z)
    (tokens : list nat) (k : nat) :
  Forall (fun c => c <> 0) s ->
  Z.of_nat (length s) <= Int.INT32_MAX ->
  0 <= max_tokens <= Z.of_nat (length tokens) ->
  let r := Strutil.aeron_tokenise (Some (s ++ 0 :: rest)) delimiter max_tokens
             tokens in
  0 <= fst (fst r) ->
  Z.of_nat k < fst (fst r) ->
  exists o buf',
    (snd r) !! k = Some o
    /\ snd (fst r) = Some buf'
    /\ Strutil.c_string_at buf' o <> []
    /\ ~ In delimiter (Strutil.c_string_at buf' o)
    /\ (o + length (Strutil.c_string_at buf' o) <= length s)%nat
    /\ Strutil.c_string_at buf' o
       = take (length (Strutil.c_string_at buf' o)) (drop o s).
Proof.
  intros Hnz Hlen Hmax r Hok Hk. subst r.
  rewrite (aeron_tokenise_fits delimiter max_tokens s rest tokens Hnz Hlen Hmax Hok)
    in *.
  cbn [fst snd] in *.
  set (toks := Strutil.tokens_of delimiter s) in *.
  assert (Hlookup : exists o, rev (map fst toks) !! k = Some o).
  { apply lookup_lt_is_Some. rewrite length_rev, length_map. lia. }
  destruct Hlookup as [o Ho].
  exists o, (Strutil.delimiters_replaced delimiter s ++ 0 :: rest).
  split; [now apply lookup_app_l_Some|]. split; [reflexivity|].
  assert (Hin : exists t, In (o, t) toks).
  { apply list_elem_of_lookup_2, list_elem_of_In, in_rev, in_map_iff in Ho
      as ([o' t] & Heq & Hin).
    simpl in Heq. subst o'. eauto. }
  destruct Hin as [t Hin]. unfold toks, Strutil.tokens_of in Hin.
  apply filter_In in Hin as [Hin Hne].
  destruct (field_position _ _ _ _ Hin) as (pre & post & Hflat & Hoff).
  simpl in Hoff.
  rewrite <- delimiters_replaced_fields in Hflat.
  assert (Ht0 : Forall (fun c => c <> 0) t).
  { pose proof (split_at_nul_free delimiter s Hnz) as Hall.
    rewrite Forall_forall in Hall. apply Hall, list_elem_of_In.
    eapply with_offsets_field; eassumption. }
  assert (Htd : Forall (fun c => c <> delimiter) t).
  { pose proof (split_at_delimiter_free delimiter s) as Hall.
    rewrite Forall_forall in Hall. apply Hall, list_elem_of_In.
    eapply with_offsets_field; eassumption. }
  assert (Hstr : Strutil.c_string_at
                   (Strutil.delimiters_replaced delimiter s ++ 0 :: rest) o = t).
  { change (0 :: rest) with ([0] ++ rest). rewrite app_assoc, Hflat.
    unfold Strutil.c_string_at. rewrite <- !app_assoc, <- Hoff, drop_app_length.
    simpl. rewrite strlen_terminated by assumption. apply take_app_length. }
  rewrite Hstr.
  assert (Hlens : (length s + 1 = length pre + (length t + S (length post)))%nat).
  { apply (f_equal (@length Z)) in Hflat.
    rewrite !length_app in Hflat. unfold Strutil.delimiters_replaced in Hflat.
    rewrite length_map in Hflat. simpl in Hflat. lia. }
  split; [destruct t; [discriminate|discriminate]|].
  split; [rewrite Forall_forall in Htd; intros Hd;
          apply list_elem_of_In in Hd; now apply (Htd _ Hd)|].
  split; [lia|].
  assert (Hwin : take (length t) (drop o (Strutil.delimiters_replaced delimiter s))
                 = t).
  { assert (Hw : take (length t)
                   (drop o (Strutil.delimiters_replaced delimiter s ++ [0])) = t).
    { rewrite Hflat, <- Hoff, drop_app_length. apply take_app_length. }
    rewrite drop_app_le in Hw
      by (unfold Strutil.delimiters_replaced; rewrite length_map; lia).
    rewrite take_app_le in Hw; [assumption|].
    rewrite length_drop. unfold Strutil.delimiters_replaced.
    rewrite length_map. lia. }
  unfold Strutil.delimiters_replaced in Hwin.
  rewrite skipn_map, firstn_map in Hwin.
  symmetry. rewrite <- Hwin at 2. symmetry. apply kept_bytes.
  unfold Strutil.delimiters_replaced. now rewrite Hwin.
Qed.

Lemma aeron_tokenise_tokens_witness :
  exists o buf',
    (snd (Strutil.aeron_tokenise (Some [97; 44; 98; 99; 44; 44; 100; 0]) 44 4
            [9; 9; 9; 9]%nat)) !! 1%nat = Some o
    /\ snd (fst (Strutil.aeron_tokenise (Some [97; 44; 98; 99; 44; 44; 100; 0])
                   44 4 [9; 9; 9; 9]%nat)) = Some buf'
    /\ Strutil.c_string_at buf' o <> []
    /\ ~ In 44 (Strutil.c_string_at buf' o)
    /\ (o + length (Strutil.c_string_at buf' o) <= 7)%nat
    /\ Strutil.c_string_at buf' o
       = take (length (Strutil.c_string_at buf' o))
           (drop o [97; 44; 98; 99; 44; 44; 100]).
Proof.
  apply (aeron_tokenise_tokens 44 4 [97; 44; 98; 99; 44; 44; 100] []
           [9; 9; 9; 9]%nat 1).
  - repeat constructor; discriminate.
  - unfold Int.INT32_MAX. simpl. lia.
  - simpl. lia.
  - vm_compute. discriminate.
  - vm_compute. reflexivity.
Defined.

(** ** Multicast control addresses: failure and composition *)

Section MulticastMore.

Import UdpChannel.

Lemma multicast_control_cases (data control : sockaddr_storage) :
  ss_family data = AF_INET /\ length (sin_addr data) = sizeof_in_addr
  \/ ss_family data = AF_INET6 /\ length (sin_addr data) = sizeof_in6_addr ->
  aeron_multicast_control_address data control
  = if Z.odd (Strutil.char_at (sin_addr data) (length (sin_addr data) - 1)) then
      (0, {| ss_family := ss_family data;
             sin_port := sin_port data;
             sin_addr :=
               <[(length (sin_addr data) - 1)%nat :=
                   (Strutil.char_at (sin_addr data) (length (sin_addr data) - 1) + 1)
                   mod 256]> (sin_addr data) |})
    else (-1, control).
Proof.
  intros [[Hfam Hlen]|[Hfam Hlen]]; unfold aeron_multicast_control_address;
    rewrite Hfam, Hlen; simpl.
  - now rewrite aeron_ipv4_multicast_control_address_spec, Hfam by assumption.
  - now rewrite aeron_ipv6_multicast_control_address_spec, Hfam by assumption.
Qed.

Lemma last_octet (addr : list Z) :
  (0 < length addr)%nat ->
  addr !! (length addr - 1)%nat = Some (Strutil.char_at addr (length addr - 1)).
Proof.
  intros Hlen. unfold Strutil.char_at.
  destruct (lookup_lt_is_Some_2 addr (length addr - 1) ltac:(lia)) as [b Hb].
  now rewrite Hb.
Qed.

End MulticastMore.

(** X7.  The control address derived from a well-formed data address
    is itself well formed and differs from the data address, and no
    control address can be derived from it in turn: its last octet is
    even, so [aeron_multicast_control_address] fails on it. *)
Theorem control_address_of_control_address
    (data control control' : UdpChannel.sockaddr_storage) :
  UdpChannel.well_formed data ->
  UdpChannel.aeron_multicast_control_address data control = (0, control') ->
  UdpChannel.well_formed control'
  /\ UdpChannel.sin_addr control' <> UdpChannel.sin_addr data
  /\ forall other,
      UdpChannel.aeron_multicast_control_address control' other = (-1, other).
Proof.
  intros [Hshape Hbytes] Hctl.
  rewrite multicast_control_cases in Hctl by assumption.
  set (last := (length (UdpChannel.sin_addr data) - 1)%nat) in *.
  set (octet := Strutil.char_at (UdpChannel.sin_addr data) last) in *.
  destruct (Z.odd octet) eqn:Hodd; [|discriminate].
  inversion Hctl; subst control'; clear Hctl.
  assert (Hlen : (0 < length (UdpChannel.sin_addr data))%nat).
  { unfold UdpChannel.sizeof_in_addr, UdpChannel.sizeof_in6_addr in Hshape. lia. }
  pose proof (last_octet _ Hlen) as Hlast. fold last octet in Hlast.
  pose proof (incremented_octet_even octet Hodd) as Heven.
  assert (Hshape' :
    UdpChannel.ss_family data = UdpChannel.AF_INET
    /\ length (<[last := (octet + 1) mod 256]> (UdpChannel.sin_addr data))
       = UdpChannel.sizeof_in_addr
    \/ UdpChannel.ss_family data = UdpChannel.AF_INET6
       /\ length (<[last := (octet + 1) mod 256]> (UdpChannel.sin_addr data))
          = UdpChannel.sizeof_in6_addr)
    by now rewrite length_insert.
  split; [split; [exact Hshape'|]|split].
  - cbn [UdpChannel.sin_addr]. apply Forall_insert; [assumption|].
    apply Z.mod_pos_bound. lia.
  - cbn [UdpChannel.sin_addr]. intros Heq.
    apply (f_equal (fun l => l !! last)) in Heq.
    rewrite list_lookup_insert_eq, Hlast in Heq by (unfold last; lia).
    inversion Heq as [Hoct]. rewrite Hoct in Heven. congruence.
  - intros other. rewrite multicast_control_cases by exact Hshape'.
    cbn [UdpChannel.sin_addr]. rewrite length_insert. fold last.
    unfold Strutil.char_at at 1.
    rewrite list_lookup_insert_eq by (unfold last; lia).
    cbn [default from_option id]. now rewrite Heven.
Qed.

Lemma control_address_of_control_address_witness :
  UdpChannel.aeron_multicast_control_address
    {| UdpChannel.ss_family := UdpChannel.AF_INET;
       UdpChannel.sin_port := 2206;
       UdpChannel.sin_addr := [224; 0; 1; 2] |} UdpChannel.zeroed_sockaddr
  = (-1, UdpChannel.zeroed_sockaddr).
Proof.
  refine (proj2 (proj2 (control_address_of_control_address
    {| UdpChannel.ss_family := UdpChannel.AF_INET;
       UdpChannel.sin_port := 2206;
       UdpChannel.sin_addr := [224; 0; 1; 1] |}
    UdpChannel.zeroed_sockaddr _ _ eq_refl)) UdpChannel.zeroed_sockaddr).
  split; [left; split; reflexivity|]. repeat constructor; simpl; lia.
Defined.

(** X8.  [aeron_multicast_control_address] returns 0 or -1; for an
    address family other than AF_INET and AF_INET6 it returns -1; and
    whenever it returns -1 the caller's control address is untouched,
    while on 0 the family and the port are those of the data address. *)
Theorem aeron_multicast_control_address_outcome
    (data control : UdpChannel.sockaddr_storage) :
  let r := UdpChannel.aeron_multicast_control_address data control in
  (fst r = 0 \/ fst r = -1)
  /\ (fst r = -1 -> snd r = control)
  /\ (UdpChannel.ss_family data <> UdpChannel.AF_INET ->
      UdpChannel.ss_family data <> UdpChannel.AF_INET6 -> r = (-1, control))
  /\ (fst r = 0 ->
      UdpChannel.ss_family (snd r) = UdpChannel.ss_family data
      /\ UdpChannel.sin_port (snd r) = UdpChannel.sin_port data).
Proof.
  cbn zeta. unfold UdpChannel.aeron_multicast_control_address,
    UdpChannel.aeron_ipv6_multicast_control_address,
    UdpChannel.aeron_ipv4_multicast_control_address.
  destruct (Z.eqb_spec UdpChannel.AF_INET6 (UdpChannel.ss_family data)) as [H6|H6];
    [|destruct (Z.eqb_spec UdpChannel.AF_INET (UdpChannel.ss_family data)) as [H4|H4]].
  - destruct (_ =? 0); simpl; repeat split; auto; try discriminate; congruence.
  - destruct (_ =? 0); simpl; repeat split; auto; try discriminate; congruence.
  - simpl. repeat split; auto; try discriminate.
Qed.

(** ** Canonical forms: length, reading back, uniqueness *)

Section CanonicalMore.

Import UdpChannel.

Local Open Scope string_scope.

Lemma string_length_app (s t : string) :
  String.length (s ++ t) = (String.length s + String.length t)%nat.
Proof. induction s as [|c s IH]; simpl; [reflexivity|now rewrite IH]. Qed.

Lemma string_app_assoc (s t u : string) : (s ++ t) ++ u = s ++ t ++ u.
Proof. induction s as [|c s IH]; simpl; [reflexivity|now rewrite IH]. Qed.

Lemma hex_of_bytes_length (bytes : list Z) :
  String.length (hex_of_bytes bytes) = (2 * length bytes)%nat.
Proof.
  induction bytes as [|b bytes IH]; simpl; [reflexivity|].
  rewrite IH. lia.
Qed.

Lemma digits_app (fuel : nat) :
  forall v acc rest, digits fuel v acc ++ rest = digits fuel v (acc ++ rest).
Proof.
  induction fuel as [|fuel IH]; intros v acc rest; simpl; [reflexivity|].
  destruct (v / 10 =? 0)%Z; [reflexivity|]. now rewrite IH.
Qed.

Lemma digits_length_acc (fuel : nat) :
  forall v acc, (String.length acc <= String.length (digits fuel v acc))%nat.
Proof.
  induction fuel as [|fuel IH]; intros v acc; simpl; [lia|].
  destruct (v / 10 =? 0)%Z; simpl; [lia|].
  etransitivity; [|apply IH]. simpl. lia.
Qed.

Lemma digits_length_value (fuel : nat) :
  forall n v acc,
    (1 <= n)%nat -> (0 <= v < 10 ^ Z.of_nat n)%Z ->
    (String.length (digits fuel v acc) <= n + String.length acc)%nat.
Proof.
  induction fuel as [|fuel IH]; intros n v acc Hn Hv; simpl; [lia|].
  destruct (Z.eqb_spec (v / 10) 0) as [Hq|Hq]; simpl; [lia|].
  assert (Hv10 : (10 <= v)%Z).
  { destruct (Z_lt_le_dec v 10); [|assumption].
    exfalso. apply Hq. apply Z.div_small. lia. }
  destruct n as [|[|n]]; [lia|simpl in Hv; lia|].
  etransitivity; [apply (IH (S n))|simpl; lia]; [lia|].
  split; [apply Z.div_pos; lia|].
  apply Z.div_lt_upper_bound; [lia|].
  replace (Z.of_nat (S (S n))) with (1 + Z.of_nat (S n))%Z in Hv by lia.
  rewrite Z.pow_add_r in Hv by lia. lia.
Qed.

Lemma ntohs_range (x : Z) : (0 <= ntohs x < 65536)%Z.
Proof.
  unfold ntohs. change 255%Z with (Z.ones 8). rewrite !Z.land_ones by lia.
  rewrite Z.shiftl_mul_pow2 by lia. change (2 ^ 8)%Z with 256%Z.
  pose proof (Z.mod_pos_bound x 256 ltac:(lia)) as Ha.
  pose proof (Z.mod_pos_bound (Z.shiftr x 8) 256 ltac:(lia)) as Hb.
  set (a := (x mod 256)%Z) in *. set (b := (Z.shiftr x 8 mod 256)%Z) in *.
  assert (Hnn : (0 <= Z.lor (a * 256) b)%Z) by (apply Z.lor_nonneg; lia).
  split; [assumption|].
  destruct (Z.eq_dec (Z.lor (a * 256) b) 0) as [->|Hnz]; [lia|].
  change 65536%Z with (2 ^ 16)%Z. apply Z.log2_lt_pow2; [lia|].
  rewrite Z.log2_lor by lia. apply Z.max_lub_lt.
  - destruct (Z.eq_dec a 0) as [->|Ha0]; [reflexivity|].
    apply Z.log2_lt_pow2; lia.
  - destruct (Z.eq_dec b 0) as [->|Hb0]; [reflexivity|].
    apply Z.log2_lt_pow2; lia.
Qed.

Lemma port_length (x : Z) :
  (1 <= String.length (decimal (ntohs x)) <= 5)%nat.
Proof.
  pose proof (ntohs_range x) as Hx. unfold decimal.
  destruct (Z.ltb_spec (ntohs x) 0); [lia|]. split.
  - pose proof (digits_length_acc 9 (ntohs x / 10)
      (String (digit (ntohs x mod 10)) "")) as Hacc.
    change (digits 10 (ntohs x) "") with
      (if (ntohs x / 10 =? 0)%Z then String (digit (ntohs x mod 10)) ""
       else digits 9 (ntohs x / 10) (String (digit (ntohs x mod 10)) "")).
    destruct (_ =? _)%Z; simpl in *; lia.
  - pose proof (digits_length_value 10 5 (ntohs x) "" ltac:(lia)) as Hlen.
    simpl String.length in Hlen. rewrite Nat.add_0_r in Hlen.
    apply Hlen. change (10 ^ Z.of_nat 5)%Z with 100000%Z. lia.
Qed.

Lemma aeron_uri_udp_canonicalise_text (unique : Z) (old : string)
    (length : nat) (local_data remote_data : sockaddr_storage)
    (make_unique : bool) :
  well_formed local_data ->
  well_formed remote_data ->
  aeron_uri_udp_canonicalise unique old length local_data remote_data make_unique
  = (Z.of_nat (String.length
       (canonical_form_of local_data remote_data
          (if make_unique then Some unique else None))),
     fst (snprintf old length
       (canonical_form_of local_data remote_data
          (if make_unique then Some unique else None))),
     if make_unique then Int.wrap32 (unique + 1) else unique).
Proof.
  intros Hlocal Hremote.
  pose proof (canonical_address_hex local_data Hlocal) as Hl.
  pose proof (canonical_address_hex remote_data Hremote) as Hr.
  unfold aeron_uri_udp_canonicalise.
  destruct (AF_INET6 =? ss_family local_data)%Z;
    destruct (AF_INET6 =? ss_family remote_data)%Z;
    cbv beta iota zeta; rewrite Hl, Hr; clear Hl Hr;
    (destruct make_unique; cbv beta iota zeta;
     [rewrite unique_suffix_fits|]; reflexivity).
Qed.

Lemma canonical_form_of_length (local_data remote_data : sockaddr_storage)
    (unique_suffix : option Z) :
  well_formed local_data ->
  well_formed remote_data ->
  (25 <= String.length (canonical_form_of local_data remote_data unique_suffix)
   <= match unique_suffix with Some _ => 93 | None => 81 end)%nat.
Proof.
  intros [Hl _] [Hr _]. unfold canonical_form_of.
  rewrite !string_length_app, !hex_of_bytes_length.
  pose proof (port_length (sin_port local_data)).
  pose proof (port_length (sin_port remote_data)).
  assert (Hsfx :
    (String.length match unique_suffix with
                   | Some n => String "-" (decimal n)
                   | None => ""
                   end
     <= match unique_suffix with Some _ => 12 | None => 0 end)%nat).
  { destruct unique_suffix as [n|]; simpl; [|lia].
    pose proof (decimal_length n). lia. }
  unfold sizeof_in_addr, sizeof_in6_addr in *.
  cbn [String.length].
  destruct unique_suffix; lia.
Qed.

Lemma digit_value_digit (d : Z) :
  (0 <= d < 10)%Z -> Decode.digit_value (digit d) = Some d.
Proof.
  intros Hd.
  assert (Hc : (d = 0 \/ d = 1 \/ d = 2 \/ d = 3 \/ d = 4 \/ d = 5 \/ d = 6
                \/ d = 7 \/ d = 8 \/ d = 9)%Z) by lia.
  repeat (destruct Hc as [->|Hc]; [reflexivity|]). now subst.
Qed.

Lemma read_digits_digits (fuel : nat) :
  forall v acc,
    (0 <= v < 10 ^ Z.of_nat fuel)%Z ->
    Decode.read_digits (digits fuel v acc) 0 = Decode.read_digits acc v.
Proof.
  induction fuel as [|fuel IH]; intros v acc Hv.
  - simpl in *. now replace v with 0%Z by lia.
  - cbn [digits].
    assert (Hd : (0 <= v mod 10 < 10)%Z) by (apply Z.mod_pos_bound; lia).
    destruct (Z.eqb_spec (v / 10) 0) as [Hq|Hq].
    + cbn [Decode.read_digits]. rewrite digit_value_digit by assumption.
      f_equal. rewrite (Z.div_mod v 10) at 2 by lia. lia.
    + rewrite IH.
      * cbn [Decode.read_digits]. rewrite digit_value_digit by assumption.
        f_equal. rewrite (Z.div_mod v 10) at 3 by lia. lia.
      * split; [apply Z.div_pos; lia|].
        apply Z.div_lt_upper_bound; [lia|].
        replace (Z.of_nat (S fuel)) with (1 + Z.of_nat fuel)%Z in Hv by lia.
        rewrite Z.pow_add_r in Hv by lia. lia.
Qed.

Lemma no_digit_ahead_empty : Decode.no_digit_ahead "".
Proof. intros a. reflexivity. Qed.

Lemma no_digit_ahead_dash (rest : string) : Decode.no_digit_ahead (String "-" rest).
Proof. intros a. reflexivity. Qed.

Lemma read_digits_decimal (v : Z) (rest : string) :
  (0 <= v < 10 ^ 10)%Z ->
  Decode.no_digit_ahead rest ->
  Decode.read_digits (decimal v ++ rest) 0 = (v, rest).
Proof.
  intros Hv Hrest. unfold decimal.
  destruct (Z.ltb_spec v 0); [lia|].
  rewrite digits_app. cbn [append].
  rewrite read_digits_digits by exact Hv. apply Hrest.
Qed.

Lemma read_digits_negative (v : Z) (rest : string) :
  (v < 0)%Z ->
  Decode.read_digits (decimal v ++ rest) 0 = (0%Z, decimal v ++ rest).
Proof.
  intros Hv. unfold decimal.
  destruct (Z.ltb_spec v 0); [|lia]. reflexivity.
Qed.

Lemma read_hex_bytes (bytes : list Z) (rest : string) :
  Forall (fun b => 0 <= b < 256)%Z bytes ->
  Decode.read_hex (hex_of_bytes bytes ++ String "-" rest)
  = (bytes, String "-" rest).
Proof.
  induction 1 as [|b bytes Hb Hbytes IH].
  - cbn [hex_of_bytes fold_right append]. destruct rest; reflexivity.
  - cbn [hex_of_bytes fold_right]. fold (hex_of_bytes bytes).
    unfold hex_of_byte. cbn [append Decode.read_hex].
    rewrite !hex_digit_value_table_at, IH.
    + f_equal. f_equal. rewrite (Z.div_mod b 16) at 3 by lia. lia.
    + apply Z.mod_pos_bound. lia.
    + split; [apply Z.div_pos; lia|apply Z.div_lt_upper_bound; lia].
Qed.

Lemma read_canonical_form_of (local_data remote_data : sockaddr_storage)
    (unique_suffix : option Z) :
  well_formed local_data ->
  well_formed remote_data ->
  Decode.read_canonical (canonical_form_of local_data remote_data unique_suffix)
  = Some (sin_addr local_data, ntohs (sin_port local_data),
          sin_addr remote_data, ntohs (sin_port remote_data),
          match unique_suffix with
          | Some n => String "-" (decimal n)
          | None => ""
          end).
Proof.
  intros [_ Hl] [_ Hr]. unfold canonical_form_of.
  pose proof (ntohs_range (sin_port local_data)) as Hpl.
  pose proof (ntohs_range (sin_port remote_data)) as Hpr.
  cbn [append]. unfold Decode.read_canonical.
  rewrite read_hex_bytes by assumption. cbn [Decode.after_dash].
  rewrite read_digits_decimal; [|lia|apply no_digit_ahead_dash].
  cbn [Decode.after_dash].
  rewrite read_hex_bytes by assumption. cbn [Decode.after_dash].
  rewrite read_digits_decimal; [reflexivity|lia|].
  destruct unique_suffix; [apply no_digit_ahead_dash|apply no_digit_ahead_empty].
Qed.

Lemma decimal_injective (a b : Z) :
  (- 10 ^ 10 < a < 10 ^ 10)%Z -> (- 10 ^ 10 < b < 10 ^ 10)%Z ->
  decimal a = decimal b -> a = b.
Proof.
  intros Ha Hb Heq.
  assert (Hread : Decode.read_digits (decimal a ++ "") 0
                  = Decode.read_digits (decimal b ++ "") 0) by now rewrite Heq.
  destruct (Z_lt_le_dec a 0) as [Hna|Hna]; destruct (Z_lt_le_dec b 0) as [Hnb|Hnb].
  - clear Hread. unfold decimal in Heq.
    destruct (Z.ltb_spec a 0); [|lia]. destruct (Z.ltb_spec b 0); [|lia].
    apply (f_equal (fun s => match s with
                             | String _ t => Decode.read_digits t 0
                             | EmptyString => (0%Z, EmptyString)
                             end)) in Heq.
    cbv beta iota in Heq.
    rewrite !read_digits_digits in Heq by (change (Z.of_nat 10) with 10%Z; lia).
    cbn [Decode.read_digits] in Heq. injection Heq as Heq. lia.
  - rewrite read_digits_negative, read_digits_decimal in Hread
      by (try apply no_digit_ahead_empty; lia).
    injection Hread as _ Hread. unfold decimal in Hread.
    destruct (Z.ltb_spec a 0); [discriminate|lia].
  - rewrite read_digits_decimal, read_digits_negative in Hread
      by (try apply no_digit_ahead_empty; lia).
    injection Hread as _ Hread. unfold decimal in Hread.
    destruct (Z.ltb_spec b 0); [discriminate|lia].
  - rewrite !read_digits_decimal in Hread
      by (try apply no_digit_ahead_empty; lia).
    now injection Hread.
Qed.

End CanonicalMore.

(** X9.  For resolved IPv4 or IPv6 addresses the text that
    [aeron_uri_udp_canonicalise] formats is between 25 and 81
    characters long, 93 at most with the unique suffix; so a buffer of
    94 characters or more always receives all of it, and the returned
    value is then the length of what the buffer holds. *)
Theorem aeron_uri_udp_canonicalise_fits (unique : Z) (old : string)
    (length : nat) (local_data remote_data : UdpChannel.sockaddr_storage)
    (make_unique : bool) :
  UdpChannel.well_formed local_data ->
  UdpChannel.well_formed remote_data ->
  let r :=
    UdpChannel.aeron_uri_udp_canonicalise unique old length
      local_data remote_data make_unique in
  25 <= fst (fst r) <= (if make_unique then 93 else 81)
  /\ ((94 <= length)%nat ->
      snd (fst r)
      = UdpChannel.canonical_form_of local_data remote_data
          (if make_unique then Some unique else None)
      /\ fst (fst r) = Z.of_nat (String.length (snd (fst r)))).
Proof.
  intros Hlocal Hremote r. subst r.
  rewrite aeron_uri_udp_canonicalise_text by assumption. cbn [fst snd].
  pose proof (canonical_form_of_length local_data remote_data
    (if make_unique then Some unique else None) Hlocal Hremote) as Hlen.
  split; [destruct make_unique; lia|].
  intros Hroom. destruct length as [|n]; [lia|].
  unfold UdpChannel.snprintf. cbn [fst].
  rewrite substring_all by (destruct make_unique; lia). now split.
Qed.

Lemma aeron_uri_udp_canonicalise_fits_witness :
  25 <= fst (fst (UdpChannel.aeron_uri_udp_canonicalise 2147483647 EmptyString 94
    {| UdpChannel.ss_family := UdpChannel.AF_INET6;
       UdpChannel.sin_port := 65535;
       UdpChannel.sin_addr := repeat 255 16 |}
    {| UdpChannel.ss_family := UdpChannel.AF_INET6;
       UdpChannel.sin_port := 65535;
       UdpChannel.sin_addr := repeat 255 16 |}
    true)) <= 93.
Proof.
  refine (proj1 (aeron_uri_udp_canonicalise_fits 2147483647 EmptyString 94
    {| UdpChannel.ss_family := UdpChannel.AF_INET6;
       UdpChannel.sin_port := 65535;
       UdpChannel.sin_addr := repeat 255 16 |}
    {| UdpChannel.ss_family := UdpChannel.AF_INET6;
       UdpChannel.sin_port := 65535;
       UdpChannel.sin_addr := repeat 255 16 |}
    true _ _)).
  - split; [right; split; reflexivity|]. repeat constructor; simpl; lia.
  - split; [right; split; reflexivity|]. repeat constructor; simpl; lia.
Defined.

(** X10.  What [aeron_uri_udp_canonicalise] stores in a buffer of 94
    characters or more reads back, with [Decode.read_canonical], as
    the raw bytes of the two addresses, the two ports in host byte
    order, and the unique suffix: nothing of the addresses is lost in
    the canonical form. *)
Theorem aeron_uri_udp_canonicalise_round_trip (unique : Z) (old : string)
    (length : nat) (local_data remote_data : UdpChannel.sockaddr_storage)
    (make_unique : bool) :
  UdpChannel.well_formed local_data ->
  UdpChannel.well_formed remote_data ->
  (94 <= length)%nat ->
  Decode.read_canonical
    (snd (fst (UdpChannel.aeron_uri_udp_canonicalise unique old length
                 local_data remote_data make_unique)))
  = Some (UdpChannel.sin_addr local_data,
          UdpChannel.ntohs (UdpChannel.sin_port local_data),
          UdpChannel.sin_addr remote_data,
          UdpChannel.ntohs (UdpChannel.sin_port remote_data),
          if make_unique then String "-" (UdpChannel.decimal unique)
          else EmptyString).
Proof.
  intros Hlocal Hremote Hroom.
  rewrite aeron_uri_udp_canonicalise_text by assumption. cbn [fst snd].
  pose proof (canonical_form_of_length local_data remote_data
    (if make_unique then Some unique else None) Hlocal Hremote) as Hlen.
  destruct length as [|n]; [lia|]. unfold UdpChannel.snprintf. cbn [fst].
  rewrite substring_all by (destruct make_unique; lia).
  rewrite read_canonical_form_of by assumption. now destruct make_unique.
Qed.

Lemma aeron_uri_udp_canonicalise_round_trip_witness :
  Decode.read_canonical
    (snd (fst (UdpChannel.aeron_uri_udp_canonicalise 7 EmptyString 384
      {| UdpChannel.ss_family := UdpChannel.AF_INET;
         UdpChannel.sin_port := 0;
         UdpChannel.sin_addr := [0; 0; 0; 0] |}
      {| UdpChannel.ss_family := UdpChannel.AF_INET;
         UdpChannel.sin_port := 48028;
         UdpChannel.sin_addr := [127; 0; 0; 1] |}
      true)))
  = Some ([0; 0; 0; 0], 0, [127; 0; 0; 1], 40123, "-7"%string).
Proof.
  refine (aeron_uri_udp_canonicalise_round_trip 7 EmptyString 384
    {| UdpChannel.ss_family := UdpChannel.AF_INET;
       UdpChannel.sin_port := 0;
       UdpChannel.sin_addr := [0; 0; 0; 0] |}
    {| UdpChannel.ss_family := UdpChannel.AF_INET;
       UdpChannel.sin_port := 48028;
       UdpChannel.sin_addr := [127; 0; 0; 1] |}
    true _ _ _).
  - split; [left; split; reflexivity|]. repeat constructor; simpl; lia.
  - split; [left; split; reflexivity|]. repeat constructor; simpl; lia.
  - lia.
Defined.

(** X11.  Channels with the same canonical form have the same
    addresses: if two calls of [aeron_uri_udp_canonicalise], each with
    room for 94 characters, store the same text, then the local
    addresses agree in family and bytes, so do the remote addresses,
    the ports agree in host byte order, and both calls made the form
    unique or neither did. *)
Theorem aeron_uri_udp_canonicalise_injective (unique1 unique2 : Z)
    (old1 old2 : string) (length1 length2 : nat)
    (local1 remote1 local2 remote2 : UdpChannel.sockaddr_storage)
    (make_unique1 make_unique2 : bool) :
  UdpChannel.well_formed local1 -> UdpChannel.well_formed remote1 ->
  UdpChannel.well_formed local2 -> UdpChannel.well_formed remote2 ->
  (94 <= length1)%nat -> (94 <= length2)%nat ->
  snd (fst (UdpChannel.aeron_uri_udp_canonicalise unique1 old1 length1
              local1 remote1 make_unique1))
  = snd (fst (UdpChannel.aeron_uri_udp_canonicalise unique2 old2 length2
                local2 remote2 make_unique2)) ->
  (UdpChannel.ss_family local1 = UdpChannel.ss_family local2
   /\ UdpChannel.sin_addr local1 = UdpChannel.sin_addr local2
   /\ UdpChannel.ntohs (UdpChannel.sin_port local1)
      = UdpChannel.ntohs (UdpChannel.sin_port local2))
  /\ (UdpChannel.ss_family remote1 = UdpChannel.ss_family remote2
      /\ UdpChannel.sin_addr remote1 = UdpChannel.sin_addr remote2
      /\ UdpChannel.ntohs (UdpChannel.sin_port remote1)
         = UdpChannel.ntohs (UdpChannel.sin_port remote2))
  /\ make_unique1 = make_unique2.
Proof.
  intros Hl1 Hr1 Hl2 Hr2 Hroom1 Hroom2 Heq.
  apply (f_equal Decode.read_canonical) in Heq.
  rewrite !aeron_uri_udp_canonicalise_round_trip in Heq by assumption.
  injection Heq as Hla Hlp Hra Hrp Hsfx.
  assert (Hfamily : forall a b,
    UdpChannel.well_formed a -> UdpChannel.well_formed b ->
    UdpChannel.sin_addr a = UdpChannel.sin_addr b ->
    UdpChannel.ss_family a = UdpChannel.ss_family b).
  { intros a b [Ha _] [Hb _] Hab. rewrite Hab in Ha.
    unfold UdpChannel.sizeof_in_addr, UdpChannel.sizeof_in6_addr in *.
    destruct Ha as [[-> Ha]|[-> Ha]], Hb as [[-> Hb]|[-> Hb]];
      try reflexivity; lia. }
  repeat split; auto.
  destruct make_unique1, make_unique2; try reflexivity; discriminate.
Qed.

Lemma aeron_uri_udp_canonicalise_injective_witness :
  UdpChannel.sin_addr
    {| UdpChannel.ss_family := UdpChannel.AF_INET;
       UdpChannel.sin_port := 48028;
       UdpChannel.sin_addr := [127; 0; 0; 1] |}
  = UdpChannel.sin_addr
      {| UdpChannel.ss_family := UdpChannel.AF_INET;
         UdpChannel.sin_port := 48028;
         UdpChannel.sin_addr := [127; 0; 0; 1] |}.
Proof.
  refine (proj1 (proj2 (proj1 (proj2
    (aeron_uri_udp_canonicalise_injective 0 5 EmptyString "old"%string 384 100
       {| UdpChannel.ss_family := UdpChannel.AF_INET;
          UdpChannel.sin_port := 0;
          UdpChannel.sin_addr := [0; 0; 0; 0] |}
       {| UdpChannel.ss_family := UdpChannel.AF_INET;
          UdpChannel.sin_port := 48028;
          UdpChannel.sin_addr := [127; 0; 0; 1] |}
       {| UdpChannel.ss_family := UdpChannel.AF_INET;
          UdpChannel.sin_port := 0;
          UdpChannel.sin_addr := [0; 0; 0; 0] |}
       {| UdpChannel.ss_family := UdpChannel.AF_INET;
          UdpChannel.sin_port := 48028;
          UdpChannel.sin_addr := [127; 0; 0; 1] |}
       false false _ _ _ _ _ _ eq_refl))))).
  - split; [left; split; reflexivity|]. repeat constructor; simpl; lia.
  - split; [left; split; reflexivity|]. repeat constructor; simpl; lia.
  - split; [left; split; reflexivity|]. repeat constructor; simpl; lia.
  - split; [left; split; reflexivity|]. repeat constructor; simpl; lia.
  - lia.
  - lia.
Defined.

(** X12.  Forms made unique are unique: with the static counter a
    32-bit value and room for 94 characters, two successive calls of
    [aeron_uri_udp_canonicalise] with [make_unique] set, the second
    starting from the counter the first one left, store different
    texts, even for the same addresses. *)
Theorem aeron_uri_udp_canonicalise_successive_unique (unique : Z)
    (old1 old2 : string) (length1 length2 : nat)
    (local1 remote1 local2 remote2 : UdpChannel.sockaddr_storage) :
  UdpChannel.well_formed local1 -> UdpChannel.well_formed remote1 ->
  UdpChannel.well_formed local2 -> UdpChannel.well_formed remote2 ->
  (94 <= length1)%nat -> (94 <= length2)%nat ->
  Int.INT32_MIN <= unique <= Int.INT32_MAX ->
  let first :=
    UdpChannel.aeron_uri_udp_canonicalise unique old1 length1
      local1 remote1 true in
  let second :=
    UdpChannel.aeron_uri_udp_canonicalise (snd first) old2 length2
      local2 remote2 true in
  snd (fst first) <> snd (fst second).
Proof.
  intros Hl1 Hr1 Hl2 Hr2 Hroom1 Hroom2 Hunique first second Heq.
  subst first second.
  apply (f_equal Decode.read_canonical) in Heq.
  rewrite !aeron_uri_udp_canonicalise_round_trip in Heq by assumption.
  rewrite aeron_uri_udp_canonicalise_text in Heq by assumption.
  cbn [snd] in Heq. injection Heq as _ _ _ _ Hsfx.
  pose proof (wrap32_range (unique + 1)) as Hwrap.
  unfold Int.INT32_MIN, Int.INT32_MAX in *.
  apply decimal_injective in Hsfx; [|lia|lia].
  unfold Int.wrap32 in Hsfx.
  destruct (Z.eq_dec unique 2147483647) as [->|Hmax]; [discriminate|].
  rewrite Z.mod_small in Hsfx by lia. lia.
Qed.

Lemma aeron_uri_udp_canonicalise_successive_unique_witness :
  snd (fst (UdpChannel.aeron_uri_udp_canonicalise 2147483647 EmptyString 384
    {| UdpChannel.ss_family := UdpChannel.AF_INET;
       UdpChannel.sin_port := 0;
       UdpChannel.sin_addr := [0; 0; 0; 0] |}
    {| UdpChannel.ss_family := UdpChannel.AF_INET;
       UdpChannel.sin_port := 0;
       UdpChannel.sin_addr := [0; 0; 0; 0] |}
    true))
  <> snd (fst (UdpChannel.aeron_uri_udp_canonicalise (-2147483648) EmptyString 384
    {| UdpChannel.ss_family := UdpChannel.AF_INET;
       UdpChannel.sin_port := 0;
       UdpChannel.sin_addr := [0; 0; 0; 0] |}
    {| UdpChannel.ss_family := UdpChannel.AF_INET;
       UdpChannel.sin_port := 0;
       UdpChannel.sin_addr := [0; 0; 0; 0] |}
    true)).
Proof.
  refine (aeron_uri_udp_canonicalise_successive_unique 2147483647
    EmptyString EmptyString 384 384
    {| UdpChannel.ss_family := UdpChannel.AF_INET;
       UdpChannel.sin_port := 0;
       UdpChannel.sin_addr := [0; 0; 0; 0] |}
    {| UdpChannel.ss_family := UdpChannel.AF_INET;
       UdpChannel.sin_port := 0;
       UdpChannel.sin_addr := [0; 0; 0; 0] |}
    {| UdpChannel.ss_family := UdpChannel.AF_INET;
       UdpChannel.sin_port := 0;
       UdpChannel.sin_addr := [0; 0; 0; 0] |}
    {| UdpChannel.ss_family := UdpChannel.AF_INET;
       UdpChannel.sin_port := 0;
       UdpChannel.sin_addr := [0; 0; 0; 0] |}
    _ _ _ _ _ _ _).
  - split; [left; split; reflexivity|]. repeat constructor; simpl; lia.
  - split; [left; split; reflexivity|]. repeat constructor; simpl; lia.
  - split; [left; split; reflexivity|]. repeat constructor; simpl; lia.
  - split; [left; split; reflexivity|]. repeat constructor; simpl; lia.
  - lia.
  - lia.
  - unfold Int.INT32_MIN, Int.INT32_MAX. lia.
Defined.

(** ** [aeron_udp_channel_parse]: what a parsed channel satisfies *)

Section ParseMore.

Import UdpChannel.

Context `{net : NetUtil}.

Lemma multicast_control_success (data control control' : sockaddr_storage) (rc : Z) :
  aeron_multicast_control_address data control = (rc, control') ->
  (rc <? 0) = false ->
  forall other, aeron_multicast_control_address data other = (0, control').
Proof.
  unfold aeron_multicast_control_address, aeron_ipv6_multicast_control_address,
    aeron_ipv4_multicast_control_address.
  intros Hctl Hrc other.
  destruct (AF_INET6 =? ss_family data); [|destruct (AF_INET =? ss_family data)];
    try destruct (_ =? 0); inversion Hctl; subst; try discriminate; reflexivity.
Qed.

Lemma canonicalise_unique_value (unique : Z) (old : string) (length : nat)
    (local_data remote_data : sockaddr_storage) (make_unique : bool) :
  snd (aeron_uri_udp_canonicalise unique old length local_data remote_data make_unique)
  = if make_unique then Int.wrap32 (unique + 1) else unique.
Proof.
  unfold aeron_uri_udp_canonicalise.
  destruct (AF_INET6 =? ss_family local_data);
    destruct (AF_INET6 =? ss_family remote_data);
    destruct make_unique; reflexivity.
Qed.

Lemma parse_stored (alloc : bool) (unique : Z) (uri_length : nat) (uri_str : string)
    (channel : option aeron_udp_channel_t) (ch : aeron_udp_channel_t)
    (unique' : Z) :
  aeron_udp_channel_parse alloc unique uri_length uri_str channel
  = (0, Some ch, unique') ->
  parse_allocated unique uri_length uri_str = Continue (ch, unique').
Proof.
  unfold aeron_udp_channel_parse. intros Hparse.
  destruct alloc; cbn [negb] in Hparse; [|discriminate].
  destruct (parse_allocated unique uri_length uri_str) as [[c u]|];
    inversion Hparse; subst; reflexivity.
Qed.

Lemma of_option_continue {A} (o : option A) (a : A) :
  of_option o = Continue a -> o = Some a.
Proof. destruct o; simpl; congruence. Qed.

Ltac next_step H x Hx :=
  match type of H with
  | context [step_bind ?m _] =>
      destruct m as [x|] eqn:Hx; [cbn [step_bind] in H|discriminate H]
  end.

Ltac next_check H Hb :=
  match type of H with
  | (if ?b then _ else _) = _ => destruct b eqn:Hb; [|discriminate H]
  end.

Ltac project :=
  unfold ParsedChannel.made_unique,
    ParsedChannel.has_no_distinguishing_characteristic in *;
  cbn [original_uri UdpChannel.uri_length uri has_explicit_control
       is_manual_control_mode is_dynamic_control_mode is_multicast tag_id
       remote_data remote_control local_data local_control interface_index
       multicast_ttl canonical_form canonical_length] in *.

(** Every path of [parse_allocated] that reaches [return 0]. *)
Lemma parse_allocated_continue (unique : Z) (uri_length : nat) (uri_str : string)
    (ch : aeron_udp_channel_t) (unique' : Z) :
  parse_allocated unique uri_length uri_str = Continue (ch, unique') ->
  let udp := params_udp (uri ch) in
  (aeron_uri_parse uri_length uri_str = Some (uri ch)
   /\ aeron_uri_type_eqb (type (uri ch)) AERON_URI_UDP = true
   /\ (is_manual_control_mode ch, is_dynamic_control_mode ch)
      = match control_mode udp with
        | Some mode =>
            (String.eqb mode AERON_UDP_CHANNEL_CONTROL_MODE_MANUAL_VALUE,
             String.eqb mode AERON_UDP_CHANNEL_CONTROL_MODE_DYNAMIC_VALUE)
        | None => (false, false)
        end
   /\ negb (is_dynamic_control_mode ch && negb (bool_decide (is_Some (control udp))))
      = true
   /\ negb (ParsedChannel.has_no_distinguishing_characteristic (uri ch)
            && negb (is_manual_control_mode ch)) = true
   /\ match channel_tag udp with
      | Some t =>
          tag_id ch = aeron_uri_parse_tag t
          /\ (tag_id ch =? AERON_URI_INVALID_TAG) = false
      | None => tag_id ch = AERON_URI_INVALID_TAG
      end
   /\ UdpChannel.uri_length ch
      = (if (uri_length <? sizeof_original_uri - 1)%nat then uri_length
         else (sizeof_original_uri - 1)%nat)
   /\ original_uri ch = substring 0 (UdpChannel.uri_length ch) uri_str)
  /\ (match endpoint udp with
      | Some e => aeron_host_and_port_parse_and_resolve e = Some (remote_data ch)
      | None =>
          remote_data ch = aeron_set_ipv4_wildcard_host_and_port zeroed_sockaddr
      end
      /\ local_control ch = local_data ch
      /\ canonical_length ch = String.length (canonical_form ch)
      /\ is_multicast ch = aeron_is_addr_multicast (remote_data ch)
      /\ has_explicit_control ch
         = negb (is_multicast ch) && bool_decide (is_Some (control udp))
      /\ (if is_multicast ch then
            (forall other,
               aeron_multicast_control_address (remote_data ch) other
               = (0, remote_control ch))
            /\ multicast_ttl ch = aeron_uri_multicast_ttl (uri ch)
            /\ exists rc,
                aeron_find_multicast_interface (ss_family (remote_data ch))
                  (bind_interface udp) zeroed_sockaddr 0
                = (rc, local_data ch, interface_index ch)
                /\ (rc <? 0) = false
          else
            remote_control ch = remote_data ch
            /\ multicast_ttl ch = 0
            /\ match control udp with
               | Some c =>
                   aeron_host_and_port_parse_and_resolve c = Some (local_data ch)
                   /\ interface_index ch = 0
               | None =>
                   exists rc,
                     aeron_find_unicast_interface (ss_family (remote_data ch))
                       (bind_interface udp) zeroed_sockaddr 0
                     = (rc, local_data ch, interface_index ch)
                     /\ (rc <? 0) = false
               end))
  /\ exists ret,
      aeron_uri_udp_canonicalise unique EmptyString sizeof_canonical_form
        (local_data ch) (remote_data ch) (ParsedChannel.made_unique ch)
      = (ret, canonical_form ch, unique').
Proof.
  intros H. unfold parse_allocated in H.
  next_step H parsed Hparsed. apply of_option_continue in Hparsed.
  cbv zeta in H. next_check H Htype.
  match type of H with
  | context [match ?p with pair _ _ => _ end] =>
      destruct p as [manual dynamic] eqn:Hmode
  end.
  next_check H Hdynamic. next_check H Hdistinct.
  next_step H endpoint_addr Hendpoint.
  next_step H explicit_control_addr Hcontrol.
  next_step H tag Htag.
  assert (Htag' :
    match channel_tag (params_udp parsed) with
    | Some t => tag = aeron_uri_parse_tag t /\ (tag =? AERON_URI_INVALID_TAG) = false
    | None => tag = AERON_URI_INVALID_TAG
    end).
  { destruct (channel_tag (params_udp parsed)) as [t|]; [|congruence].
    destruct (aeron_uri_parse_tag t =? AERON_URI_INVALID_TAG) eqn:Hinvalid;
      [discriminate|].
    inversion Htag; subst. now split. }
  assert (Hendpoint' :
    match endpoint (params_udp parsed) with
    | Some e => aeron_host_and_port_parse_and_resolve e = Some endpoint_addr
    | None => endpoint_addr = aeron_set_ipv4_wildcard_host_and_port zeroed_sockaddr
    end).
  { destruct (endpoint (params_udp parsed)) as [e|];
      [now apply of_option_continue|congruence]. }
  clear Htag Hendpoint.
  destruct (aeron_is_addr_multicast endpoint_addr) eqn:Hmulticast.
  - destruct (aeron_multicast_control_address endpoint_addr zeroed_sockaddr)
      as [rc control_addr] eqn:Hremote.
    next_check H Hrc. apply negb_true_iff in Hrc.
    destruct (aeron_find_multicast_interface _ _ _ _)
      as [[rc0 interface_addr] index] eqn:Hinterface.
    next_check H Hrc0. apply negb_true_iff in Hrc0.
    destruct (aeron_uri_udp_canonicalise _ _ _ _ _ _)
      as [[ret canonical] u] eqn:Hcanonical.
    inversion H; subst ch unique'; clear H. project.
    rewrite Hmulticast. cbn [negb andb]. rewrite Hcanonical.
    repeat split; eauto using multicast_control_success.
  - destruct (control (params_udp parsed)) as [c|] eqn:Hc.
    + change (bool_decide (is_Some (Some c))) with true in *.
      cbv iota in H.
      destruct (aeron_uri_udp_canonicalise _ _ _ _ _ _)
        as [[ret canonical] u] eqn:Hcanonical.
      inversion H; subst ch unique'; clear H. project.
      rewrite Hmulticast, Hc.
      change (bool_decide (is_Some (Some c))) with true.
      cbn [negb andb]. rewrite !andb_false_r. cbn [negb andb]. rewrite Hcanonical.
      apply of_option_continue in Hcontrol.
      repeat split; eauto.
    + change (bool_decide (is_Some (@None string))) with false in *.
      cbv iota in H.
      destruct (aeron_find_unicast_interface _ _ _ _)
        as [[rc0 interface_addr] index] eqn:Hinterface.
      next_check H Hrc0. apply negb_true_iff in Hrc0.
      destruct (aeron_uri_udp_canonicalise _ _ _ _ _ _)
        as [[ret canonical] u] eqn:Hcanonical.
      inversion H; subst ch unique'; clear H. project.
      rewrite Hmulticast, Hc.
      change (bool_decide (is_Some (@None string))) with false.
      cbn [negb andb] in *. rewrite ?andb_true_r in *. rewrite Hcanonical.
      repeat split; eauto.
Qed.

End ParseMore.

(** X13.  A URI that [aeron_udp_channel_parse] accepts obeys the rules
    of the channel syntax: when 0 is returned and a channel stored,
    the URI parsed as a UDP URI, which the channel holds; the channel
    is in manual or dynamic control mode exactly when control-mode
    says so, and never in both; dynamic control mode comes with a
    control address; a channel that is not in manual control mode has
    an endpoint, a control address or a tag; the tag id is the parsed
    tag, which is valid, or the invalid tag when no tag is given; and
    the original URI is kept up to the room for it. *)
Theorem aeron_udp_channel_parse_accepts `{net : UdpChannel.NetUtil}
    (alloc : bool) (unique : Z) (uri_length : nat) (uri : string)
    (channel : option UdpChannel.aeron_udp_channel_t)
    (ch : UdpChannel.aeron_udp_channel_t) (unique' : Z) :
  UdpChannel.aeron_udp_channel_parse alloc unique uri_length uri channel
  = (0, Some ch, unique') ->
  let udp := UdpChannel.params_udp (UdpChannel.uri ch) in
  UdpChannel.aeron_uri_parse uri_length uri = Some (UdpChannel.uri ch)
  /\ UdpChannel.type (UdpChannel.uri ch) = UdpChannel.AERON_URI_UDP
  /\ (UdpChannel.is_manual_control_mode ch = true
      <-> UdpChannel.control_mode udp
          = Some UdpChannel.AERON_UDP_CHANNEL_CONTROL_MODE_MANUAL_VALUE)
  /\ (UdpChannel.is_dynamic_control_mode ch = true
      <-> UdpChannel.control_mode udp
          = Some UdpChannel.AERON_UDP_CHANNEL_CONTROL_MODE_DYNAMIC_VALUE)
  /\ (UdpChannel.is_manual_control_mode ch = true ->
      UdpChannel.is_dynamic_control_mode ch = false)
  /\ (UdpChannel.is_dynamic_control_mode ch = true ->
      is_Some (UdpChannel.control udp))
  /\ (UdpChannel.is_manual_control_mode ch = false ->
      is_Some (UdpChannel.endpoint udp) \/ is_Some (UdpChannel.control udp)
      \/ is_Some (UdpChannel.channel_tag udp))
  /\ match UdpChannel.channel_tag udp with
     | Some t =>
         UdpChannel.tag_id ch = UdpChannel.aeron_uri_parse_tag t
         /\ UdpChannel.tag_id ch <> UdpChannel.AERON_URI_INVALID_TAG
     | None => UdpChannel.tag_id ch = UdpChannel.AERON_URI_INVALID_TAG
     end
  /\ UdpChannel.uri_length ch
     = Nat.min uri_length (UdpChannel.sizeof_original_uri - 1)
  /\ UdpChannel.original_uri ch
     = substring 0 (UdpChannel.uri_length ch) uri.
Proof.
  intros Hparse udp. apply parse_stored, parse_allocated_continue in Hparse.
  destruct Hparse as
    [(Huri & Htype & Hmode & Hdynamic & Hdistinct & Htag & Hlength & Horiginal) _].
  fold udp in Hmode, Hdynamic, Htag.
  assert (Hmanual :
    UdpChannel.is_manual_control_mode ch = true
    <-> UdpChannel.control_mode udp
        = Some UdpChannel.AERON_UDP_CHANNEL_CONTROL_MODE_MANUAL_VALUE).
  { destruct (UdpChannel.control_mode udp) as [mode|];
      injection Hmode as Hm Hd; [|split; congruence].
    rewrite Hm, String.eqb_eq. split; congruence. }
  assert (Hdyn :
    UdpChannel.is_dynamic_control_mode ch = true
    <-> UdpChannel.control_mode udp
        = Some UdpChannel.AERON_UDP_CHANNEL_CONTROL_MODE_DYNAMIC_VALUE).
  { destruct (UdpChannel.control_mode udp) as [mode|];
      injection Hmode as Hm Hd; [|split; congruence].
    rewrite Hd, String.eqb_eq. split; congruence. }
  repeat split; try tauto.
  - now destruct (UdpChannel.type (UdpChannel.uri ch)).
  - intros Hm. apply Hmanual in Hm. apply not_true_is_false. intros Hd.
    apply Hdyn in Hd. rewrite Hm in Hd. discriminate.
  - intros Hd. rewrite Hd in Hdynamic. cbn [andb] in Hdynamic.
    rewrite negb_involutive in Hdynamic. now apply bool_decide_eq_true in Hdynamic.
  - intros Hm. rewrite Hm in Hdistinct.
    unfold ParsedChannel.has_no_distinguishing_characteristic in Hdistinct.
    fold udp in Hdistinct.
    destruct (UdpChannel.endpoint udp); [left; eauto|].
    destruct (UdpChannel.control udp); [right; left; eauto|].
    destruct (UdpChannel.channel_tag udp); [right; right; eauto|].
    discriminate.
  - destruct (UdpChannel.channel_tag udp) as [t|]; [|assumption].
    destruct Htag as [Htag Hvalid]. split; [assumption|]. now apply Z.eqb_neq.
  - rewrite Hlength. destruct (Nat.ltb_spec uri_length (UdpChannel.sizeof_original_uri - 1)); lia.
Qed.

Lemma aeron_udp_channel_parse_accepts_witness :
  exists ch,
    UdpChannel.aeron_udp_channel_parse (net := Reference.sample_net) true 0 34
      "aeron:udp?endpoint=127.0.0.1:40123" None = (0, Some ch, 0)
    /\ UdpChannel.uri_length ch = 34%nat.
Proof.
  eexists. split; [reflexivity|].
  pose proof (aeron_udp_channel_parse_accepts (net := Reference.sample_net)
    true 0 34 "aeron:udp?endpoint=127.0.0.1:40123" None _ 0 eq_refl) as H.
  cbv zeta in H. apply H.
Defined.

(** X14.  The addresses of a parsed channel: the remote data address
    is the resolved endpoint, or the IPv4 wildcard when there is none;
    local control equals local data; the channel is multicast exactly
    when its remote data address is; a multicast channel has the
    control address that [aeron_multicast_control_address] derives
    from its remote data address, the TTL of the URI and the interface
    that [aeron_find_multicast_interface] found; any other channel has
    remote control equal to remote data and TTL 0, and its local
    address is the resolved control address, with interface index 0,
    or else what [aeron_find_unicast_interface] found; explicit control
    is flagged exactly for a channel with a control address that is
    not multicast. *)
Theorem aeron_udp_channel_parse_addresses `{net : UdpChannel.NetUtil}
    (alloc : bool) (unique : Z) (uri_length : nat) (uri : string)
    (channel : option UdpChannel.aeron_udp_channel_t)
    (ch : UdpChannel.aeron_udp_channel_t) (unique' : Z) :
  UdpChannel.aeron_udp_channel_parse alloc unique uri_length uri channel
  = (0, Some ch, unique') ->
  let udp := UdpChannel.params_udp (UdpChannel.uri ch) in
  match UdpChannel.endpoint udp with
  | Some e =>
      UdpChannel.aeron_host_and_port_parse_and_resolve e
      = Some (UdpChannel.remote_data ch)
  | None =>
      UdpChannel.remote_data ch
      = UdpChannel.aeron_set_ipv4_wildcard_host_and_port UdpChannel.zeroed_sockaddr
  end
  /\ UdpChannel.local_control ch = UdpChannel.local_data ch
  /\ UdpChannel.canonical_length ch = String.length (UdpChannel.canonical_form ch)
  /\ UdpChannel.is_multicast ch
     = UdpChannel.aeron_is_addr_multicast (UdpChannel.remote_data ch)
  /\ UdpChannel.has_explicit_control ch
     = negb (UdpChannel.is_multicast ch)
       && bool_decide (is_Some (UdpChannel.control udp))
  /\ (if UdpChannel.is_multicast ch then
        (forall other,
           UdpChannel.aeron_multicast_control_address
             (UdpChannel.remote_data ch) other
           = (0, UdpChannel.remote_control ch))
        /\ UdpChannel.multicast_ttl ch
           = UdpChannel.aeron_uri_multicast_ttl (UdpChannel.uri ch)
        /\ exists rc,
            UdpChannel.aeron_find_multicast_interface
              (UdpChannel.ss_family (UdpChannel.remote_data ch))
              (UdpChannel.bind_interface udp) UdpChannel.zeroed_sockaddr 0
            = (rc, UdpChannel.local_data ch, UdpChannel.interface_index ch)
            /\ (rc <? 0) = false
      else
        UdpChannel.remote_control ch = UdpChannel.remote_data ch
        /\ UdpChannel.multicast_ttl ch = 0
        /\ match UdpChannel.control udp with
           | Some c =>
               UdpChannel.aeron_host_and_port_parse_and_resolve c
               = Some (UdpChannel.local_data ch)
               /\ UdpChannel.interface_index ch = 0
           | None =>
               exists rc,
                 UdpChannel.aeron_find_unicast_interface
                   (UdpChannel.ss_family (UdpChannel.remote_data ch))
                   (UdpChannel.bind_interface udp) UdpChannel.zeroed_sockaddr 0
                 = (rc, UdpChannel.local_data ch, UdpChannel.interface_index ch)
                 /\ (rc <? 0) = false
           end).
Proof.
  intros Hparse udp. apply parse_stored, parse_allocated_continue in Hparse.
  exact (proj1 (proj2 Hparse)).
Qed.

Lemma aeron_udp_channel_parse_addresses_witness :
  exists ch,
    UdpChannel.aeron_udp_channel_parse (net := Reference.sample_net) true 0 34
      "aeron:udp?endpoint=127.0.0.1:40123" None = (0, Some ch, 0)
    /\ UdpChannel.local_control ch = UdpChannel.local_data ch.
Proof.
  eexists. split; [reflexivity|].
  refine (proj1 (proj2
    (aeron_udp_channel_parse_addresses (net := Reference.sample_net) true 0 34
       "aeron:udp?endpoint=127.0.0.1:40123" None _ 0 eq_refl))).
Defined.

(** X15.  [aeron_udp_channel_parse] uses up a value of the static
    unique counter only for a channel that is not multicast and has
    neither endpoint nor control address nor tag, and such a channel
    is in manual control mode; for every other accepted URI the
    counter is left as it was. *)
Theorem aeron_udp_channel_parse_unique_value `{net : UdpChannel.NetUtil}
    (alloc : bool) (unique : Z) (uri_length : nat) (uri : string)
    (channel : option UdpChannel.aeron_udp_channel_t)
    (ch : UdpChannel.aeron_udp_channel_t) (unique' : Z) :
  UdpChannel.aeron_udp_channel_parse alloc unique uri_length uri channel
  = (0, Some ch, unique') ->
  unique' = (if ParsedChannel.made_unique ch then Int.wrap32 (unique + 1)
             else unique)
  /\ (ParsedChannel.made_unique ch = true ->
      UdpChannel.is_manual_control_mode ch = true)
  /\ (is_Some (UdpChannel.endpoint (UdpChannel.params_udp (UdpChannel.uri ch))) ->
      unique' = unique).
Proof.
  intros Hparse. apply parse_stored, parse_allocated_continue in Hparse.
  destruct Hparse as [(_ & _ & _ & _ & Hdistinct & _) [_ [ret Hcanonical]]].
  apply (f_equal snd) in Hcanonical.
  rewrite canonicalise_unique_value in Hcanonical. cbn [snd] in Hcanonical.
  split; [now symmetry|split].
  - unfold ParsedChannel.made_unique. intros [_ Hno]%andb_true_iff.
    rewrite Hno in Hdistinct. cbn [andb] in Hdistinct.
    now rewrite negb_involutive in Hdistinct.
  - intros [e He]. rewrite <- Hcanonical.
    unfold ParsedChannel.made_unique,
      ParsedChannel.has_no_distinguishing_characteristic.
    rewrite He. change (bool_decide (is_Some (Some e))) with true.
    cbn [negb andb]. now rewrite andb_false_r.
Qed.

Lemma aeron_udp_channel_parse_unique_value_witness :
  exists ch,
    UdpChannel.aeron_udp_channel_parse (net := Reference.sample_net) true 5 34
      "aeron:udp?endpoint=127.0.0.1:40123" None = (0, Some ch, 5)
    /\ 5 = (if ParsedChannel.made_unique ch then Int.wrap32 (5 + 1) else 5).
Proof.
  eexists. split; [reflexivity|].
  refine (proj1
    (aeron_udp_channel_parse_unique_value (net := Reference.sample_net) true 5 34
       "aeron:udp?endpoint=127.0.0.1:40123" None _ 5 eq_refl)).
Defined.

(** X16.  The canonical form of a parsed channel whose local and
    remote data addresses are IPv4 or IPv6 addresses, when the channel
    has room for 94 characters: it is the canonical form of exactly
    these two addresses, with the unique suffix if and only if the
    channel is neither multicast nor has endpoint, control address or
    tag; it reads back as the bytes and ports of the two addresses;
    and the canonical length is between 25 and 93. *)
Theorem aeron_udp_channel_parse_canonical_form `{net : UdpChannel.NetUtil}
    (alloc : bool) (unique : Z) (uri_length : nat) (uri : string)
    (channel : option UdpChannel.aeron_udp_channel_t)
    (ch : UdpChannel.aeron_udp_channel_t) (unique' : Z) :
  UdpChannel.aeron_udp_channel_parse alloc unique uri_length uri channel
  = (0, Some ch, unique') ->
  UdpChannel.well_formed (UdpChannel.local_data ch) ->
  UdpChannel.well_formed (UdpChannel.remote_data ch) ->
  (94 <= UdpChannel.sizeof_canonical_form)%nat ->
  UdpChannel.canonical_form ch
  = UdpChannel.canonical_form_of (UdpChannel.local_data ch)
      (UdpChannel.remote_data ch)
      (if ParsedChannel.made_unique ch then Some unique else None)
  /\ Decode.read_canonical (UdpChannel.canonical_form ch)
     = Some (UdpChannel.sin_addr (UdpChannel.local_data ch),
             UdpChannel.ntohs (UdpChannel.sin_port (UdpChannel.local_data ch)),
             UdpChannel.sin_addr (UdpChannel.remote_data ch),
             UdpChannel.ntohs (UdpChannel.sin_port (UdpChannel.remote_data ch)),
             if ParsedChannel.made_unique ch
             then String "-" (UdpChannel.decimal unique) else EmptyString)
  /\ (25 <= UdpChannel.canonical_length ch <= 93)%nat.
Proof.
  intros Hparse Hlocal Hremote Hroom.
  apply parse_stored, parse_allocated_continue in Hparse.
  destruct Hparse as [_ [(_ & _ & Hlength & _) [ret Hcanonical]]].
  rewrite aeron_uri_udp_canonicalise_text in Hcanonical by assumption.
  pose proof (canonical_form_of_length (UdpChannel.local_data ch)
    (UdpChannel.remote_data ch)
    (if ParsedChannel.made_unique ch then Some unique else None)
    Hlocal Hremote) as Hlen.
  unfold UdpChannel.snprintf in Hcanonical. cbn [fst] in Hcanonical.
  destruct UdpChannel.sizeof_canonical_form as [|n]; [lia|].
  rewrite substring_all in Hcanonical
    by (destruct (ParsedChannel.made_unique ch); lia).
  inversion Hcanonical as [[Hret Hform Hunique]].
  rewrite Hlength, <- Hform. repeat split.
  - rewrite read_canonical_form_of by assumption.
    now destruct (ParsedChannel.made_unique ch).
  - lia.
  - destruct (ParsedChannel.made_unique ch); lia.
Qed.

Lemma aeron_udp_channel_parse_canonical_form_witness :
  exists ch,
    UdpChannel.aeron_udp_channel_parse (net := Reference.sample_net) true 0 34
      "aeron:udp?endpoint=127.0.0.1:40123" None = (0, Some ch, 0)
    /\ UdpChannel.canonical_form ch = "UDP-00000000-0-7f000001-40123"%string.
Proof.
  eexists. split; [reflexivity|].
  refine (proj1
    (aeron_udp_channel_parse_canonical_form (net := Reference.sample_net) true 0 34
       "aeron:udp?endpoint=127.0.0.1:40123" None _ 0 eq_refl _ _ _)).
  - split; [left; split; reflexivity|]. repeat constructor; simpl; lia.
  - split; [left; split; reflexivity|]. repeat constructor; simpl; lia.
  - simpl. lia.
Defined.

(** X17.  A parsed channel that is not multicast and names neither a
    control address nor an interface is bound to the wildcard address
    of the family of its remote data address, IPv4 unless that family
    is AF_INET6: all address bytes and the port are zero, the address
    is well formed, and the interface index is 0. *)
Theorem aeron_udp_channel_parse_wildcard_local `{net : UdpChannel.NetUtil}
    (alloc : bool) (unique : Z) (uri_length : nat) (uri : string)
    (channel : option UdpChannel.aeron_udp_channel_t)
    (ch : UdpChannel.aeron_udp_channel_t) (unique' : Z) :
  UdpChannel.aeron_udp_channel_parse alloc unique uri_length uri channel
  = (0, Some ch, unique') ->
  UdpChannel.is_multicast ch = false ->
  UdpChannel.control (UdpChannel.params_udp (UdpChannel.uri ch)) = None ->
  UdpChannel.bind_interface (UdpChannel.params_udp (UdpChannel.uri ch)) = None ->
  let ipv6 :=
    UdpChannel.AF_INET6 =? UdpChannel.ss_family (UdpChannel.remote_data ch) in
  UdpChannel.well_formed (UdpChannel.local_data ch)
  /\ UdpChannel.ss_family (UdpChannel.local_data ch)
     = (if ipv6 then UdpChannel.AF_INET6 else UdpChannel.AF_INET)
  /\ UdpChannel.sin_addr (UdpChannel.local_data ch)
     = repeat 0 (if ipv6 then 16 else 4)%nat
  /\ UdpChannel.sin_port (UdpChannel.local_data ch) = 0
  /\ UdpChannel.interface_index ch = 0.
Proof.
  intros Hparse Hmulticast Hcontrol Hinterface ipv6.
  apply parse_stored, parse_allocated_continue in Hparse.
  destruct Hparse as [_ [(_ & _ & _ & _ & _ & Hpath) _]].
  rewrite Hmulticast, Hcontrol, Hinterface in Hpath.
  destruct Hpath as (_ & _ & rc & Hfind & _).
  unfold UdpChannel.aeron_find_unicast_interface in Hfind. fold ipv6 in Hfind.
  destruct ipv6; inversion Hfind as [[Hrc Hlocal Hindex]]; cbn;
    (repeat split; [| repeat constructor; lia]);
    [right|left]; split; reflexivity.
Qed.

Lemma aeron_udp_channel_parse_wildcard_local_witness :
  exists ch,
    UdpChannel.aeron_udp_channel_parse (net := Reference.sample_net) true 0 34
      "aeron:udp?endpoint=127.0.0.1:40123" None = (0, Some ch, 0)
    /\ UdpChannel.well_formed (UdpChannel.local_data ch).
Proof.
  eexists. split; [reflexivity|].
  refine (proj1
    (aeron_udp_channel_parse_wildcard_local (net := Reference.sample_net) true 0 34
       "aeron:udp?endpoint=127.0.0.1:40123" None _ 0 eq_refl eq_refl eq_refl
       eq_refl)).
Defined.

(** ** [aeron_publication.c]: closed publications, argument errors,
    the unfragmented path, and vectored offers *)

(** X18.  A closed publication reports [AERON_PUBLICATION_CLOSED] for
    every offer and vectored offer with a non-NULL buffer, whatever
    the length and whatever the log holds, and for every claim of at
    most [max_payload_length] bytes; a longer claim is answered with
    [AERON_PUBLICATION_ERROR] even though the publication is closed.
    Nothing is written: the publication and the claim stay as they
    were. *)
Theorem closed_publication_reports_closed `{ops : Publication.LogBufferOps}
    (p : Publication.aeron_publication_t) :
  Publication.is_closed p = true ->
  (forall buffer length supplier clientd,
      Publication.aeron_publication_offer (Some p) (Some buffer) length
        supplier clientd
      = (Publication.AERON_PUBLICATION_CLOSED, Some p))
  /\ (forall iov iovcnt supplier clientd,
        Publication.aeron_publication_offerv (Some p) (Some iov) iovcnt
          supplier clientd
        = (Publication.AERON_PUBLICATION_CLOSED, Some p))
  /\ (forall length claim,
        Publication.aeron_publication_try_claim (Some p) length (Some claim)
        = (if Publication.max_payload_length p <? length
           then Publication.AERON_PUBLICATION_ERROR
           else Publication.AERON_PUBLICATION_CLOSED,
           Some p, Some claim)).
Proof.
  intros Hclosed. repeat split; intros.
  - unfold Publication.aeron_publication_offer. now rewrite Hclosed.
  - unfold Publication.aeron_publication_offerv. cbv zeta. now rewrite Hclosed.
  - unfold Publication.aeron_publication_try_claim. rewrite Hclosed.
    now destruct (_ <? _).
Qed.

Lemma closed_publication_reports_closed_witness :
  Publication.aeron_publication_offer (ops := Reference.spec_ops)
    (Some Reference.closed_publication) (Some [1; 2; 3]) 3 None 0
  = (Publication.AERON_PUBLICATION_CLOSED, Some Reference.closed_publication).
Proof.
  refine (proj1 (closed_publication_reports_closed (ops := Reference.spec_ops)
    Reference.closed_publication eq_refl) _ _ _ _).
Defined.

(** X19.  Argument errors of offers and claims.  A NULL publication,
    buffer, vector or claim is answered with [AERON_PUBLICATION_ERROR],
    also on a closed publication, and nothing is touched.  On an open
    publication below its position limit, an offer or a vectored offer
    whose length exceeds both [max_payload_length] and
    [max_message_length] is answered with [AERON_PUBLICATION_ERROR]
    and no term appender runs. *)
Theorem offer_argument_errors `{ops : Publication.LogBufferOps} :
  (forall publication buffer length supplier clientd,
      publication = None \/ buffer = None ->
      Publication.aeron_publication_offer publication buffer length
        supplier clientd
      = (Publication.AERON_PUBLICATION_ERROR, publication))
  /\ (forall publication iov iovcnt supplier clientd,
        publication = None \/ iov = None ->
        Publication.aeron_publication_offerv publication iov iovcnt
          supplier clientd
        = (Publication.AERON_PUBLICATION_ERROR, publication))
  /\ (forall publication length claim,
        publication = None \/ claim = None ->
        Publication.aeron_publication_try_claim publication length claim
        = (Publication.AERON_PUBLICATION_ERROR, publication, claim))
  /\ (forall p,
        Publication.is_closed p = false ->
        Publication.term_count_matches p ->
        Publication.term_begin_position p < Publication.position_limit p ->
        (forall buffer length supplier clientd,
            Publication.max_payload_length p < length ->
            Publication.max_message_length p < length ->
            Publication.aeron_publication_offer (Some p) (Some buffer) length
              supplier clientd
            = (Publication.AERON_PUBLICATION_ERROR, Some p))
        /\ (forall iov iovcnt supplier clientd,
              Publication.max_payload_length p < Publication.iov_length iov iovcnt ->
              Publication.max_message_length p < Publication.iov_length iov iovcnt ->
              Publication.aeron_publication_offerv (Some p) (Some iov) iovcnt
                supplier clientd
              = (Publication.AERON_PUBLICATION_ERROR, Some p))).
Proof.
  split; [|split; [|split]].
  - intros publication buffer length supplier clientd [-> | ->];
      [reflexivity|now destruct publication].
  - intros publication iov iovcnt supplier clientd [-> | ->];
      [reflexivity|now destruct publication].
  - intros publication length claim [-> | ->];
      [reflexivity|now destruct publication].
  - intros p Hopen Hmatch Hlimit.
    apply term_count_check in Hmatch. apply limit_check_passes in Hlimit.
    split.
    + intros buffer length supplier clientd Hpayload Hmessage.
      unfold Publication.aeron_publication_offer. cbv zeta.
      rewrite Hopen, Hmatch, Hlimit. cbn [negb].
      destruct (Z.leb_spec length (Publication.max_payload_length p)); [lia|].
      destruct (Z.ltb_spec (Publication.max_message_length p) length); [|lia].
      reflexivity.
    + intros iov iovcnt supplier clientd Hpayload Hmessage.
      unfold Publication.aeron_publication_offerv. cbv zeta.
      rewrite Hopen, Hmatch, Hlimit. cbn [negb].
      destruct (Z.leb_spec (Publication.iov_length iov iovcnt)
                  (Publication.max_payload_length p)); [lia|].
      destruct (Z.ltb_spec (Publication.max_message_length p)
                  (Publication.iov_length iov iovcnt)); [|lia].
      reflexivity.
Qed.

Lemma offer_argument_errors_witness :
  Publication.aeron_publication_offer (ops := Reference.spec_ops)
    (Some (Reference.sample_publication 4 1000000)) (Some [7; 7; 7]) 9000
    None 0
  = (Publication.AERON_PUBLICATION_ERROR,
     Some (Reference.sample_publication 4 1000000)).
Proof.
  pose proof (offer_argument_errors (ops := Reference.spec_ops)) as H.
  destruct H as (_ & _ & _ & H).
  apply (H (Reference.sample_publication 4 1000000)); reflexivity.
Defined.

(** X20.  On an open publication below its position limit, an offer
    of at most [max_payload_length] bytes goes to the unfragmented
    term appender, whatever [max_message_length] is: that limit is
    looked at only for a message that needs fragmenting.  The result
    is what [aeron_publication_new_position] makes of the resulting
    offset. *)
Theorem offer_within_max_payload_is_unfragmented
    `{ops : Publication.LogBufferOps}
    (p : Publication.aeron_publication_t) (buffer : list Z) (length : Z)
    (supplier : Publication.aeron_reserved_value_supplier_t) (clientd : Z) :
  Publication.is_closed p = false ->
  Publication.term_count_matches p ->
  Publication.term_begin_position p < Publication.position_limit p ->
  length <= Publication.max_payload_length p ->
  Publication.aeron_publication_offer (Some p) (Some buffer) length
    supplier clientd
  = let index := Publication.active_index p in
    let '(resulting_offset, term_buffer, tail) :=
      Publication.aeron_term_appender_append_unfragmented_message
        (Publication.term_buffer_at p index)
        (Publication.term_tail_counter_at p index)
        buffer length supplier clientd
        (Publication.active_term_id p) (Publication.session_id p)
        (Publication.stream_id p) in
    let '(new_position, p') :=
      Publication.aeron_publication_new_position
        (Publication.with_term p index term_buffer tail)
        (LogBuffer.aeron_logbuffer_active_term_count
           (Publication.log_meta_data p))
        (Int.wrap32
           (Z.land (Publication.term_tail_counter_at p index) 4294967295))
        (Publication.active_term_id p)
        (Publication.term_begin_position p) resulting_offset in
    (new_position, Some p').
Proof.
  intros Hopen Hmatch Hlimit Hlength.
  apply term_count_check in Hmatch. apply limit_check_passes in Hlimit.
  unfold Publication.aeron_publication_offer. cbv zeta.
  rewrite Hopen, Hmatch, Hlimit. cbn [negb].
  destruct (Z.leb_spec length (Publication.max_payload_length p)); [|lia].
  reflexivity.
Qed.

Lemma offer_within_max_payload_is_unfragmented_witness :
  fst (Publication.aeron_publication_offer (ops := Reference.spec_ops)
         (Some (Reference.sample_publication 4 1000000)) (Some [1; 2; 3]) 3
         None 0)
  = 262208.
Proof.
  rewrite (offer_within_max_payload_is_unfragmented (ops := Reference.spec_ops)
    (Reference.sample_publication 4 1000000) [1; 2; 3] 3 None 0 eq_refl).
  - reflexivity.
  - reflexivity.
  - reflexivity.
  - vm_compute. discriminate.
Defined.

(** X21.  A vectored offer is an offer of the gathered bytes: when the
    two vectored term appenders do what the plain ones do on the
    concatenation of the vector's buffers, [aeron_publication_offerv]
    returns what [aeron_publication_offer] returns for that
    concatenation and the summed length of the first [iovcnt] entries,
    and leaves the same log. *)
Theorem offerv_is_offer_of_gathered `{ops : Publication.LogBufferOps}
    (gathered : list Publication.aeron_iovec_t -> Z -> list Z) :
  (forall term_buffer tail iov iovcnt length supplier clientd
          term_id session_id stream_id,
      Publication.aeron_term_appender_append_unfragmented_messagev
        term_buffer tail iov iovcnt length supplier clientd
        term_id session_id stream_id
      = Publication.aeron_term_appender_append_unfragmented_message
          term_buffer tail (gathered iov iovcnt) length supplier clientd
          term_id session_id stream_id) ->
  (forall term_buffer tail iov iovcnt length max_payload_length supplier
          clientd term_id session_id stream_id,
      Publication.aeron_term_appender_append_fragmented_messagev
        term_buffer tail iov iovcnt length max_payload_length supplier clientd
        term_id session_id stream_id
      = Publication.aeron_term_appender_append_fragmented_message
          term_buffer tail (gathered iov iovcnt) length max_payload_length
          supplier clientd term_id session_id stream_id) ->
  forall publication iov iovcnt supplier clientd,
    Publication.aeron_publication_offerv publication (Some iov) iovcnt
      supplier clientd
    = Publication.aeron_publication_offer publication
        (Some (gathered iov iovcnt)) (Publication.iov_length iov iovcnt)
        supplier clientd.
Proof.
  intros Hunfragmented Hfragmented publication iov iovcnt supplier clientd.
  unfold Publication.aeron_publication_offerv,
    Publication.aeron_publication_offer.
  destruct publication as [p|]; [|reflexivity]. cbv zeta.
  now rewrite Hunfragmented, Hfragmented.
Qed.

Lemma offerv_is_offer_of_gathered_witness :
  Publication.aeron_publication_offerv (ops := Reference.spec_ops)
    (Some (Reference.sample_publication 4 1000000))
    (Some [ {| Publication.iov_base := [1; 2; 3]; Publication.iov_len := 2 |};
            {| Publication.iov_base := [4; 5]; Publication.iov_len := 2 |} ])
    2 None 0
  = Publication.aeron_publication_offer (ops := Reference.spec_ops)
      (Some (Reference.sample_publication 4 1000000)) (Some [1; 2; 4; 5]) 4
      None 0.
Proof.
  refine (offerv_is_offer_of_gathered (ops := Reference.spec_ops)
    Reference.gather _ _ (Some (Reference.sample_publication 4 1000000))
    [ {| Publication.iov_base := [1; 2; 3]; Publication.iov_len := 2 |};
      {| Publication.iov_base := [4; 5]; Publication.iov_len := 2 |} ]
    2 None 0).
  - reflexivity.
  - reflexivity.
Defined.
